(* ===== verification/_CoqProject ===== *)
-Q . S2P
Prelude.v
JsValue.v
Networks.v
Proc.v
Plugin.v
Gate.v
Lifecycle.v
Slot.v
Settle.v
EventLoop.v
Invariants.v
Signals.v
Resumption.v
Activation.v
GateLoop.v
Noninterference.v
SlotLoop.v
Routing.v
Dispatch.v
