(* ===== verification/Prelude.v ===== *)
(** * A verification development for the Remix AI plugin and the explorer table

    ** The program

    The repository's two source files are

    - [src/apps/remix-ide/src/app/plugins/remixAIPlugin.tsx]: the class
      [RemixAIPlugin], an orchestrator that forwards six AI operations to one
      of two backends (the desktop companion plugin [remixAID] or a
      [RemoteInferencer]), guarded by the busy flag [isInferencing], and that
      stages at most one chat request in [chatRequestBuffer];
    - [src/apps/etherscan/src/app/utils/networks.ts]: the constant
      [scanAPIurls], a table from chain identifiers to explorer API URLs.

    The plugin is single-threaded and asynchronous.  A method runs without
    interruption up to its next [await]; while it is suspended other methods
    run, and the backends fire the events [onInference] and
    [onInferenceDone], whose callbacks are the only code that writes the busy
    flag.  The chat view stages a request with [chatPipe] and flushes it
    later with [ProcessChatRequestBuffer], which calls the staged method by
    name ([this[fn_name](...)]).

    ** Files, in the order of their dependencies

    - [Prelude] (this file): the notation scope, the tactics and hint
      databases of the development, and a generic theory of labelled
      transition systems: runs, reachability, invariants by rule induction,
      lock-step simulation.
    - [JsValue]: the JavaScript values that the plugin handles ([undefined],
      [null], booleans, numbers, strings, flat objects), with truthiness,
      default parameters, optional chaining, member access (which throws on
      [null] and [undefined]), [===] against a string, and the conversion of
      a value to a property name ([to_property_key]), with the decimal name
      of an integer ([number_to_string]).
    - [Networks]: [scanAPIurls] as the source's list of properties and as
      the [gmap] that evaluating the literal builds; no key is written
      twice and no URL is used twice, every URL is an HTTPS URL ending in
      [/api].
    - [Proc]: the computations of a method as an inductive free monad
      [proc] over the fields of [this]: reads and writes, effects that are not
      awaited, awaited requests, exceptions.  [run] is one synchronous
      segment, [resume] the segment after an answer, [exec] a whole execution
      against an environment that answers at once, [spawn] the call of an
      async method that is not awaited.  The file also holds the program
      logic of the development: [awaits] bounds the suspensions of a method,
      [wp] is a weakest precondition with an invariant at the points at which
      a method yields, a guarantee on its writes and a set of permitted
      events ([protocol]), and [sim] relates two computations that run
      from two states and emit the same events, segment by segment, with a
      relation on the states they write and one on the states in which they
      are resumed; [agree] is [sim] from one state.  [segmented] states a
      property of the trace of every segment of a method, for the
      properties that speak of several events at once.
    - [Plugin]: the fields of the class as the record [RemixAIPlugin], the
      constructor [new_RemixAIPlugin], the constant [profile], whose
      [version] is the one of [package.json] (class [PackageJson]), the
      outbound calls as the types [effect] and [request], and the names of
      the thirteen methods ([method], [method_of_value]).
    - [Gate]: the six operations ([code_generation], [code_completion],
      [solidity_answer], [code_explaining], [error_explaining],
      [code_insertion]), each written statement by statement after its
      method, and what a call does with the gate closed and with the gate
      open.
    - [Lifecycle]: [onActivation], [setRemixAIOnSidePannel], [initialize],
      [render] and the four callbacks that the plugin registers.
    - [Slot]: [chatPipe], [ProcessChatRequestBuffer] and
      [isChatRequestPending]; the dynamic call [call_method]; the machine
      EMPTY/OCCUPIED of the specification ([slot_step]) and the proof that
      the plugin simulates it.
    - [Settle]: every method is settled by two answers, at every depth of
      the call stack.
    - [EventLoop]: the event loop as a labelled transition system
      ([world_step], computed by [step]) whose turns are a call, the answer
      to an outstanding request and an event of an emitter; the class
      [followed] of the protocols that the methods follow, and the theorem
      that a turn keeps every such protocol; outstanding calls settle; the
      gate admits overlapping calls.
    - [Invariants]: the protocols of the plugin and the invariants of all
      reachable worlds that follow from them: the backends are mutually
      exclusive, the busy flag is written by notifications only, an
      activated browser plugin can serve.
    - [Signals]: the callbacks of [onInference] and of [onInferenceDone]
      are registered together, with the same emitters, in every world that
      the plugin can reach ([signals_paired], by [Proc.segmented]).
    - [Resumption]: the part of a method that runs after its first
      [await]: the class [resumed] of the protocols that every method
      follows from its first suspension on, at every depth of a flush, and
      the frame of a resumption ([resumption_protocol]): it writes nothing
      but [aiIsActivated] and issues no request but that of
      [solidity_answer].
    - [Activation]: the desktop plugin and its backend: until
      [initializeModelBackend] is in the history the plugin is not activated,
      its gate is open and it listens to [activated] only
      ([dormant_protocol], followed by every method but [initialize]).
    - [GateLoop]: the busy gate of the specification as a machine over a
      boolean ([busy_gate]) and every run of the loop as a run of it
      ([gate_label_of], [gate_trace]); the requests that a closed gate
      keeps back ([gated_request], [closed_gate_protocol]); the gate between
      the delivery of [onInference] and that of [onInferenceDone].  A signal
      is delivered when its callback is registered with the emitter of the
      event; an event that no callback hears is a turn that changes nothing.
    - [Noninterference]: what the plugin reads of [isInferencing] and of
      [aiIsActivated]: two worlds that differ in one of the flags
      ([world_sim]) take the same turns to worlds that differ in it, as long
      as no turn is one that reads the flag ([quiet_step]); the class
      [hidden] states what a flag must satisfy, and both flags are instances.
    - [SlotLoop]: the slot in the event loop: no turn but a call of the
      slot's three methods writes [chatRequestBuffer], and every run of the
      loop is a run of the specification's machine; the protocol of the
      slot is an instance of [Resumption.resumed].
    - [Routing]: the plugin under the engine: the calls that the plugin
      addresses to itself ([this.call("remixAI", ...)]) wait in a queue and
      are delivered, when [profile.methods] lists them, as later turns of the
      loop ([engine_step], computed by [system_step]).
    - [Dispatch]: the capability interface and the tagged request of the
      specification's design notes, proved equal to the source.

    ** Correspondence with the source

    A field of the class is a field of [Plugin.RemixAIPlugin];
    [remoteInferencer] and [chatRequestBuffer] are options, [None] being
    [null].  A method is a definition of the same name of type [M value], in
    which [s ← get] reads [this], [modify] assigns a field, [emit] performs a
    call whose result is not awaited ([console.log], [this.call('terminal',
    ...)], [this.on], [ChatApi.composer.send]) and [await] performs one that
    is.  An [if] of the source is an [if] on [JsValue.truthy] of the value or
    on the boolean field; an early [return] is the branch that ends in
    [mret].  Values are untyped, as at run time: TypeScript's annotations are
    erased, and the flush does pass a context where [params] is expected.

    ** What is proved

    - Slot ([Slot], [SlotLoop]): refinement of the specification's machine,
      by a sequence of calls of the slot and by every run of the event loop;
      the first stage wins; a flush empties the slot before the backend has
      answered;
      a staged name that is not a method blocks the slot for ever; a staged
      [solidity_answer] receives the context as its [params]; a staged flush
      exhausts the stack; a stage followed by a flush is the call of the
      staged operation and returns the plugin to the state before the stage
      (round trip); the tag of a request and its stored name determine each
      other.
    - Gate ([Gate], [Invariants], [EventLoop], [Signals], [GateLoop]): a
      guarded method refuses while the flag is set; the flag is written by
      the callbacks only, in every interleaving; it stays set until
      [onInferenceDone] is delivered to its callback, and the callback is
      registered wherever that of [onInference] is, so that a closed gate
      can be reopened; it is not re-read by [solidity_answer]
      after its first [await], and it does not serialise calls that are made
      before [onInference] arrives; every run of the loop is a run of the
      specification's gate, in which an attempt, direct or through a flush,
      is refused exactly when the gate is closed; once the flag is set, no
      turn sends the request of [code_generation], [code_explaining] or
      [error_explaining] before [onInferenceDone] is delivered.
    - Resumptions ([Resumption]): in every reachable world the turn that
      resumes a suspended method leaves the slot, the busy flag, the mode and
      the inferencer as they are, may set [aiIsActivated], and emits nothing
      but the request of [solidity_answer], an entry of the terminal and the
      registrations of the desktop callbacks.
    - Noninterference ([Noninterference]): the value of [isInferencing]
      changes nothing of a run in which no guarded method is called and no
      slot that holds one is flushed (the same events and requests, the same
      callbacks, the same outstanding requests, plugins that differ in the
      flag at most), so that [code_completion], [code_insertion], the
      callbacks and every resumption do not read the gate; the value of
      [aiIsActivated] changes nothing of any run.
    - Dispatch ([Gate], [Invariants], [Dispatch]): with the gate open each
      operation issues one request to the backend of the mode, with the
      arguments of the source, and relays the answer; [solidity_answer]
      sends the prompt that the agent has rewritten; no interleaving makes
      the plugin use both backends; a failure of the backend reaches the
      caller as it is and nothing is echoed; a [params] without members
      turns a truthy answer into a [TypeError]; the source is equal to a
      dispatcher over one interface.
    - Life cycle ([Lifecycle], [Settle], [EventLoop], [Activation]): the
      whole effect of activation and initialisation in both modes; every
      call settles; on the desktop nothing is activated and no callback of
      the stream is registered before the backend was asked to initialise,
      and the operations forward all the same.
    - Engine ([Routing]): the plugin addresses one call to itself,
      [initialize(null, null, null, false)], which the profile exposes; the
      calls in flight are all delivered; on the desktop, once [onActivation]
      has run, the event [activated] and an answer of the backend activate
      the plugin, whatever else is in flight.
    - Table ([Networks]): well-formedness of the literal: no key is written
      twice, every endpoint is an HTTPS URL that ends in [/api], and no two
      chains share one.

    ** Bounds

    - Every method is a finite tree, so [run], [resume] and [exec] are
      structural and total: they need no fuel.
    - The only unbounded recursion of the source is a staged request that
      names [ProcessChatRequestBuffer] itself.  JavaScript ends it with a
      [RangeError] when the call stack is exhausted; [Slot.call_method]
      takes the number of free frames as a [nat], and the theorems hold for
      every depth (where a call must succeed, for every depth [S depth]).
    - Numbers are integers ([Z]): the plugin only tests them for
      truthiness; the keys of the table are below [2^53 - 1], which
      [Networks.scanAPIurls_lookup_api_url] states.  The name of an integer
      is its decimal digits, as JavaScript prints an integer below [10^21]
      in magnitude; from there on JavaScript prints an exponent, which
      [JsValue.number_to_string] does not.
    - The queue of the engine is a list without a bound; the theorems hold
      for every length, and [Routing.inbox_drains] gives the number of
      deliveries that empty it.

    ** What is not modelled

    Code that is not under [src/] appears only through its interface:
    [RemoteInferencer], [CodeExplainAgent], [ChatApi] and the React view are
    effects and requests whose answers and events the environment chooses, in
    any order.  Of the plugin engine, [Routing] models the delivery of the
    calls that the plugin addresses to itself; registration, permissions and
    the calls of other plugins are the environment, which may call any method
    at any time.  The constant [GenerationParams] of [@remix/remix-ai-core]
    is a parameter of the development (class [JsValue.RemixAICore]).  The
    dynamic call converts the staged value to a property name and resolves
    the thirteen methods that the class declares; names inherited from
    [ViewPlugin], [Plugin] and [Object.prototype] are treated as absent, as
    they are for the keys of [scanAPIurls].  The event loop admits every
    order of calls, answers and events, and runs the callback of an event
    once when one is registered, however often [this.on] registered it.  A
    callback runs as a turn of its own: a backend that fires [onInference]
    synchronously, inside the call that the plugin makes to it, is not
    represented.  The engine of [Routing] is a model of this development and
    not code of the repository: that the calls wait in a queue and that the
    engine tests them against [profile.methods] is what the plugin's use of
    [this.call] assumes of [@remixproject/engine].  A turn of that engine is
    a turn of the loop or none by definition ([Routing.served_live]), so the
    invariants of the loop hold under it, while
    [EventLoop.gate_admits_concurrent_calls] speaks of callers that hold the
    object, as the chat view does.  Two members of the class are not fields
    of [Plugin.RemixAIPlugin] because nothing assigns them after the
    constructor: [agent] appears as the target of the request [ChatCommand],
    and [remixDesktopPluginName] is a constant.  The file [package.json],
    from which the profile takes its [version], is not a source: the version
    is the parameter of the class [Plugin.PackageJson], and no theorem
    depends on its value.

    What is left of the two sources is outside the reach of a model of the
    plugin's own code.  The members that the class inherits ([this.call],
    [this.on], [this.emit] and the rest of [ViewPlugin]) are code of the
    engine, which is not under [src/]: a staged name that resolves to one of
    them would run that code, and the development says nothing of such a
    flush.  [render] returns a React element whose content is the
    component [RemixAITab]; the model returns an opaque value for it, and
    [ChatApi], which the view sets, is the target of an effect.  The answers
    of the
    backends are values that the environment chooses; what a backend does
    with a request is not stated.

    Nothing else of the two sources is left out: every statement of every
    method, the constructor, the profile and every entry of the table has
    its definition.  What remains outside is library code that the sources
    only call, and it cannot be modelled from them: the members that the
    class inherits can call its methods back in the turn of a flush, so that
    an inherited name in the slot has no sound model short of the library
    itself. *)

From stdpp Require Export base tactics option list strings gmap.

(** ** Notation scope and hint databases *)

Declare Scope remix_scope.
Delimit Scope remix_scope with remix.

(** [remix] holds the resolution hints of the development, and the rewrite
    database of the same name the equations that [autorewrite] uses to
    evaluate runs of plugin methods. *)
Create HintDb remix.
Create Rewrite HintDb remix.

(** ** Tactics *)

(** [case_bool b] splits on a boolean and simplifies both goals. *)
Ltac case_bool b := destruct b eqn:?; simpl in *; try done.

(** [solve_by_compute] closes a closed decidable goal by evaluation. *)
Ltac solve_by_compute := apply (bool_decide_unpack _); vm_compute; reflexivity.

(** ** Labelled transition systems

    The event loop of the plugin is a labelled transition system.  This
    section fixes the vocabulary once: a run is a list of labels, a state is
    reachable when a run leads to it, and an invariant is a predicate that
    every step preserves. *)

Section lts.
Context {S L : Type} (step : S → L → S → Prop).

Inductive steps : S → list L → S → Prop :=
| steps_nil s : steps s [] s
| steps_cons s l s' ls s'' : step s l s' → steps s' ls s'' → steps s (l :: ls) s''.

Definition reachable (init : S → Prop) (s : S) : Prop :=
  ∃ s0 ls, init s0 ∧ steps s0 ls s.

Definition preserved (P : S → Prop) : Prop :=
  ∀ s l s', P s → step s l s' → P s'.

Lemma steps_one s l s' : step s l s' → steps s [l] s'.
Proof. eauto using steps. Qed.

Lemma steps_app s ls s' ls' s'' :
  steps s ls s' → steps s' ls' s'' → steps s (ls ++ ls') s''.
Proof. induction 1; simpl; eauto using steps. Qed.

Lemma steps_snoc s ls s' l s'' :
  steps s ls s' → step s' l s'' → steps s (ls ++ [l]) s''.
Proof. eauto using steps_app, steps_one. Qed.

Lemma steps_app_inv s ls ls' s'' :
  steps s (ls ++ ls') s'' → ∃ s', steps s ls s' ∧ steps s' ls' s''.
Proof.
  revert s. induction ls as [|l ls IH]; simpl; intros s H.
  - eauto using steps.
  - inv H. edestruct IH as (s1 & ? & ?); eauto using steps.
Qed.

Lemma preserved_steps P s ls s' :
  preserved P → steps s ls s' → P s → P s'.
Proof. intros HP. induction 1; eauto. Qed.

(** An invariant of the steps whose label is [allowed] holds along the runs
    that are made of such steps. *)
Lemma preserved_steps_allowed (allowed : L → Prop) (P : S → Prop) s ls s' :
  (∀ s l s', allowed l → P s → step s l s' → P s') →
  steps s ls s' → Forall allowed ls → P s → P s'.
Proof.
  intros HP. induction 1 as [|s l s' ls s'' Hstep _ IH]; [done|].
  intros [Hl Hls]%Forall_cons Hs. eauto.
Qed.

Lemma preserved_reachable (init P : S → Prop) :
  (∀ s, init s → P s) → preserved P → ∀ s, reachable init s → P s.
Proof. intros Hinit HP s (s0 & ls & ? & ?). eapply preserved_steps; eauto. Qed.

Lemma preserved_and P Q : preserved P → preserved Q → preserved (λ s, P s ∧ Q s).
Proof. intros HP HQ s l s' [??] ?. split; eauto. Qed.

Lemma reachable_init (init : S → Prop) s : init s → reachable init s.
Proof. intros. exists s, []. eauto using steps. Qed.

Lemma reachable_step (init : S → Prop) s l s' :
  reachable init s → step s l s' → reachable init s'.
Proof. intros (s0 & ls & ? & ?) ?. exists s0, (ls ++ [l]). eauto using steps_snoc. Qed.

Lemma reachable_steps (init : S → Prop) s ls s' :
  reachable init s → steps s ls s' → reachable init s'.
Proof. intros (s0 & ls0 & ? & ?) ?. exists s0, (ls0 ++ ls). eauto using steps_app. Qed.

End lts.

(** A lock-step simulation between two systems over the same labels: the
    abstract system can follow every step of the concrete one, and then
    every run. *)
Section simulation.
Context {S1 S2 L : Type}.
Context (step1 : S1 → L → S1 → Prop) (step2 : S2 → L → S2 → Prop).
Context (R : S1 → S2 → Prop).

Definition simulates : Prop :=
  ∀ s1 l s1' s2, R s1 s2 → step1 s1 l s1' → ∃ s2', step2 s2 l s2' ∧ R s1' s2'.

Lemma simulates_steps s1 ls s1' s2 :
  simulates → R s1 s2 → steps step1 s1 ls s1' →
  ∃ s2', steps step2 s2 ls s2' ∧ R s1' s2'.
Proof.
  intros Hsim HR Hsteps. revert s2 HR.
  induction Hsteps as [|s l s' ls s'' Hstep _ IH]; intros s2 HR.
  - exists s2. split; [constructor|done].
  - destruct (Hsim _ _ _ _ HR Hstep) as (s2' & Hstep2 & HR').
    destruct (IH _ HR') as (s2'' & ? & ?). exists s2''. split; [|done].
    by econstructor.
Qed.

End simulation.

(** A chain of steps of a preorder is a step of it. *)
Lemma rtc_preorder {A} (R : relation A) `{!PreOrder R} x y : rtc R x y → R x y.
Proof. induction 1; [reflexivity|by etrans]. Qed.

#[export] Hint Constructors steps : remix.
#[export] Hint Resolve steps_one steps_app steps_snoc reachable_init reachable_step : remix.

(** ** Lists and options *)

Section lists.
Context {A : Type}.

(** The elements of [l] that satisfy a boolean test, counted. *)
Definition count (f : A → bool) (l : list A) : nat := length (filter (λ x, f x = true) l).

Lemma count_nil f : count f [] = 0.
Proof. done. Qed.

Lemma count_cons f x l : count f (x :: l) = (if f x then 1 else 0) + count f l.
Proof. unfold count. rewrite filter_cons. destruct (f x); by case_decide. Qed.

Lemma count_app f l l' : count f (l ++ l') = count f l + count f l'.
Proof. unfold count. by rewrite filter_app, length_app. Qed.

Lemma count_zero_Forall f l : count f l = 0 ↔ Forall (λ x, f x = false) l.
Proof.
  induction l as [|x l IH]; [by rewrite count_nil|].
  rewrite count_cons, Forall_cons, <-IH. destruct (f x); simpl; [|tauto].
  split; [lia|]. by intros [? _].
Qed.

End lists.

(** In a list of pairs whose second components are distinct, a second
    component determines the first. *)
Lemma NoDup_snd_inj {A B} (l : list (A * B)) x1 x2 y :
  NoDup l.*2 → (x1, y) ∈ l → (x2, y) ∈ l → x1 = x2.
Proof.
  intros Hl [i Hi]%list_elem_of_lookup [j Hj]%list_elem_of_lookup.
  assert (i = j) as ->; [|congruence].
  apply (NoDup_lookup l.*2 i j y Hl); by rewrite list_lookup_fmap, ?Hi, ?Hj.
Qed.

#[export] Hint Rewrite @count_nil @count_cons @count_app : remix.
