(* ===== verification/JsValue.v ===== *)
(** * JavaScript values of the plugin

    TypeScript annotations are erased at run time: a method of
    [RemixAIPlugin] receives whatever its caller passes.  This file models the
    values the plugin can observe and the operations of the language it
    applies to them: the test of a condition (truthiness), a default
    parameter, a member access [v.k], an optional chain [v?.k], the strict
    comparison of a value with a string literal, and the conversion of a
    value to the property name under which [o[v]] looks a member up. *)

From Stdlib Require Import Ascii DecimalString DecimalN DecimalZ DecimalFacts DecimalPos.
From S2P Require Import Prelude.

(** ** Values *)

(** Primitive values.  Numbers are integers: the plugin never computes with a
    number, it only tests results for truthiness. *)
Inductive prim : Type :=
| Undefined
| Null
| Bool (b : bool)
| Num (n : Z)
| Str (s : string).

(** An object is the list of its own properties; the first binding of a name
    is the one that is read. *)
Definition object : Type := list (string * prim).

Inductive value : Type :=
| Prim (p : prim)
| Obj (o : object).

Coercion Prim : prim >-> value.

(** The property names the plugin reads: [params.terminal_output] in the
    methods that echo their result, [remoteModel?.apiUrl] and
    [remoteModel?.completionUrl] in [initialize].  None of them is defined by
    the wrapper of a primitive value. *)
Inductive pname : Type := terminal_output | apiUrl | completionUrl.

Definition pname_string (k : pname) : string :=
  match k with
  | terminal_output => "terminal_output"
  | apiUrl => "apiUrl"
  | completionUrl => "completionUrl"
  end.

(** What a computation can throw: a [TypeError] (a member of [null] or
    [undefined] is read, or something that is not a function is called), a
    [RangeError] (the call stack is exhausted), or the reason with which an
    awaited promise was rejected. *)
Inductive error : Type :=
| TypeError
| RangeError
| Rejection (reason : value).

#[export] Instance prim_eq_dec : EqDecision prim.
Proof. solve_decision. Defined.
#[export] Instance value_eq_dec : EqDecision value.
Proof. solve_decision. Defined.
#[export] Instance pname_eq_dec : EqDecision pname.
Proof. solve_decision. Defined.
#[export] Instance error_eq_dec : EqDecision error.
Proof. solve_decision. Defined.
#[export] Instance uint_eq_dec : EqDecision Decimal.uint.
Proof. solve_decision. Defined.

(** The constants the plugin imports from [@remix/remix-ai-core].
    [GenerationParams] is the default value of every [params] parameter. *)
Class RemixAICore : Type := { GenerationParams : value }.

(** The constants as the library defines them, as far as the plugin reads
    them: an options record whose [terminal_output] is off.  The theorems of
    the development hold for every instance of [RemixAICore]; this one is
    used for concrete runs. *)
Definition remix_ai_core : RemixAICore :=
  {| GenerationParams := Obj [("terminal_output"%string, Bool false)] |}.

(** ** Operations *)

(** [ToBoolean]: what [if (v)] and [v && ...] test. *)
Definition truthy (v : value) : bool :=
  match v with
  | Prim Undefined | Prim Null => false
  | Prim (Bool b) => b
  | Prim (Num n) => negb (Z.eqb n 0)
  | Prim (Str s) => negb (String.eqb s "")
  | Obj _ => true
  end.

(** The [i]th positional argument of a call; a missing argument is
    [undefined]. *)
Definition arg (i : nat) (args : list value) : value :=
  default (Prim Undefined) (args !! i).

(** A parameter declared [p = d]: the default replaces [undefined] only. *)
Definition default_param (d v : value) : value :=
  match v with
  | Prim Undefined => d
  | _ => v
  end.

(** An own property of an object, [undefined] when it has none. *)
Fixpoint get_prop (o : object) (k : string) : prim :=
  match o with
  | [] => Undefined
  | (k', p) :: o' => if String.eqb k' k then p else get_prop o' k
  end.

(** [v.k]: reading a member of [undefined] or [null] throws; a primitive
    has none of the properties of [pname]. *)
Definition member (v : value) (k : pname) : error + value :=
  match v with
  | Prim Undefined | Prim Null => inl TypeError
  | Prim _ => inr (Prim Undefined)
  | Obj o => inr (Prim (get_prop o (pname_string k)))
  end.

(** [v?.k]: [undefined] when [v] is [undefined] or [null]. *)
Definition opt_member (v : value) (k : pname) : value :=
  match member v k with
  | inl _ => Prim Undefined
  | inr w => w
  end.

(** [v === "s"] for a string literal [s]. *)
Definition strict_eq_str (v : value) (s : string) : bool :=
  match v with
  | Prim (Str s') => String.eqb s' s
  | _ => false
  end.

(** [v == null]: true of [null] and [undefined] only. *)
Definition loose_eq_null (v : value) : bool :=
  match v with
  | Prim Undefined | Prim Null => true
  | _ => false
  end.

(** [ToString] of a number that is an integer: its decimal digits, after a
    minus sign when it is negative.  (JavaScript prints every digit of an
    integer below [10^21] in magnitude.) *)
Definition number_to_string (n : Z) : string := NilZero.string_of_int (Z.to_int n).

(** [ToPropertyKey]: the name under which [o[v]] looks a member up. *)
Definition to_property_key (v : value) : string :=
  match v with
  | Prim Undefined => "undefined"
  | Prim Null => "null"
  | Prim (Bool b) => if b then "true" else "false"
  | Prim (Num n) => number_to_string n
  | Prim (Str s) => s
  | Obj _ => "[object Object]"
  end.

(** A decimal digit. *)
Definition is_digit (c : ascii) : bool :=
  bool_decide (c ∈ ["0"; "1"; "2"; "3"; "4"; "5"; "6"; "7"; "8"; "9"]%char).

(** ** Properties *)

Implicit Types (v w d : value) (p : prim) (o : object) (s : string) (k : pname).

Lemma strict_eq_str_spec v s : strict_eq_str v s = true ↔ v = Str s.
Proof.
  destruct v as [[]|]; simpl; try (split; [done|by intros [=]]).
  rewrite String.eqb_eq. split; [by intros ->|by intros [=]].
Qed.

Lemma strict_eq_str_refl s : strict_eq_str (Str s) s = true.
Proof. by apply strict_eq_str_spec. Qed.

Lemma strict_eq_str_false v s : v ≠ Str s → strict_eq_str v s = false.
Proof.
  intros Hne. destruct (strict_eq_str v s) eqn:E; [|done].
  by apply strict_eq_str_spec in E.
Qed.

Lemma truthy_str s : truthy (Str s) = bool_decide (s ≠ "").
Proof.
  simpl. destruct (String.eqb_spec s ""); simpl; symmetry.
  - by apply bool_decide_eq_false; intros ?.
  - by apply bool_decide_eq_true.
Qed.

Lemma truthy_not_nullish v : truthy v = true → loose_eq_null v = false.
Proof. by destruct v as [[]|]. Qed.

Lemma arg_nil i : arg i [] = Undefined.
Proof. by destruct i. Qed.

Lemma arg_lookup i args v : args !! i = Some v → arg i args = v.
Proof. unfold arg. by intros ->. Qed.

Lemma arg_ge i args : length args ≤ i → arg i args = Undefined.
Proof. intros. unfold arg. by rewrite lookup_ge_None_2. Qed.

Lemma default_param_undefined d : default_param d Undefined = d.
Proof. done. Qed.

Lemma default_param_defined d v : v ≠ Undefined → default_param d v = v.
Proof. by destruct v as [[]|]. Qed.

Lemma default_param_idemp d v : default_param d (default_param d v) = default_param d v.
Proof. destruct v as [[]|]; simpl; try done. by destruct d as [[]|]. Qed.

(** A member access throws exactly on [undefined] and [null]. *)
Lemma member_throws v k : member v k = inl TypeError ↔ loose_eq_null v = true.
Proof. destruct v as [[]|]; simpl; naive_solver. Qed.

Lemma member_defined v k : loose_eq_null v = false → ∃ w, member v k = inr w.
Proof. destruct v as [[]|]; simpl; naive_solver. Qed.

(** An optional chain agrees with the member access wherever that one does
    not throw. *)
Lemma opt_member_member v k w : member v k = inr w → opt_member v k = w.
Proof. unfold opt_member. by intros ->. Qed.

Lemma opt_member_nullish v k : loose_eq_null v = true → opt_member v k = Undefined.
Proof. by destruct v as [[]|]. Qed.

Lemma get_prop_cons_eq (k : string) p o : get_prop ((k, p) :: o) k = p.
Proof. simpl. by rewrite String.eqb_refl. Qed.

Lemma get_prop_cons_ne (k k' : string) p o : k' ≠ k → get_prop ((k', p) :: o) k = get_prop o k.
Proof. intros. simpl. by destruct (String.eqb_spec k' k). Qed.

Lemma get_prop_absent o (k : string) : k ∉ o.*1 → get_prop o k = Undefined.
Proof.
  induction o as [|[k' p] o IH]; [done|]. rewrite fmap_cons, not_elem_of_cons.
  intros [??]. rewrite get_prop_cons_ne by done. auto.
Qed.

Lemma pname_string_inj : Inj (=) (=) pname_string.
Proof. by intros [] [] [=]. Qed.

(** ** Integers as property names *)

Lemma Z_to_int_proper n :
  Z.to_int n ≠ Decimal.Pos Decimal.Nil ∧ Z.to_int n ≠ Decimal.Neg Decimal.Nil.
Proof.
  destruct n as [|p|p]; simpl; split; try done; intros [= Hp];
    by apply DecimalPos.Unsigned.to_uint_nonnil in Hp.
Qed.

#[export] Instance number_to_string_inj : Inj (=) (=) number_to_string.
Proof.
  intros n m Heq. apply to_int_inj, (inj Some).
  destruct (Z_to_int_proper n), (Z_to_int_proper m).
  rewrite <-!NilZero.isi by done. by f_equal.
Qed.

Lemma string_of_uint_head (u : Decimal.uint) :
  ∃ c s, NilZero.string_of_uint u = String c s ∧ is_digit c = true.
Proof. destruct u; simpl; by eauto. Qed.

(** The name of a number starts with a digit or with the minus sign. *)
Lemma number_to_string_head n :
  ∃ c s, number_to_string n = String c s ∧ (is_digit c = true ∨ c = "-"%char).
Proof.
  unfold number_to_string. destruct (Z.to_int n) as [u|u]; simpl; [|by eauto].
  destruct (string_of_uint_head u) as (c & s & -> & ?). eauto.
Qed.

(** The key of a value that is not a string starts with a digit, with the
    minus sign, or is one of four words. *)
Lemma to_property_key_not_string v :
  (∀ s, v ≠ Str s) →
  to_property_key v ∈ ["undefined"; "null"; "true"; "false"; "[object Object]"] ∨
  ∃ c s, to_property_key v = String c s ∧ (is_digit c = true ∨ c = "-"%char).
Proof.
  destruct v as [[| |[]|n|s]|o]; simpl; intros Hv;
    [left; set_solver..|right; apply number_to_string_head|by destruct (Hv s)
    |left; set_solver].
Qed.

#[export] Hint Rewrite strict_eq_str_refl arg_nil default_param_undefined
  get_prop_cons_eq : remix.
#[export] Hint Resolve truthy_not_nullish : remix.
