(* ===== verification/Networks.v ===== *)
(** * The explorer table [scanAPIurls]

    [src/apps/etherscan/src/app/utils/networks.ts] exports one object
    literal whose keys are chain identifiers and whose values are the base
    URLs of the block explorers' APIs.  The entries are kept here in the
    order and in the two groups of the source; the object they denote is the
    finite map built by evaluating the literal from its first property to its
    last.  The theorems say that the literal is well formed (no key is
    written twice, so no entry is shadowed), that the map and the list of
    entries hold the same bindings, that every URL has the expected shape,
    and that no two chains share a URL. *)

From S2P Require Import Prelude.

#[local] Open Scope Z_scope.

(** ** The table *)

(** The properties under the comment [// all mainnet]. *)
Definition mainnet_entries : list (Z * string) := [
  (1, "https://api.etherscan.io/api");
  (56, "https://api.bscscan.com/api");
  (137, "https://api.polygonscan.com/api");
  (250, "https://api.ftmscan.com/api");
  (42161, "https://api.arbiscan.io/api");
  (43114, "https://api.snowtrace.io/api");
  (1285, "https://api-moonriver.moonscan.io/api");
  (1284, "https://api-moonbeam.moonscan.io/api");
  (25, "https://api.cronoscan.com/api");
  (199, "https://api.bttcscan.com/api");
  (10, "https://api-optimistic.etherscan.io/api");
  (42220, "https://api.celoscan.io/api");
  (288, "https://api.bobascan.com/api");
  (100, "https://api.gnosisscan.io/api");
  (1101, "https://api-zkevm.polygonscan.com/api");
  (59144, "https://api.lineascan.build/api");
  (8453, "https://api.basescan.org/api");
  (534352, "https://api.scrollscan.com/api");
  (1116, "https://openapi.coredao.org/api")
]%string.

(** The properties under the comment [// all testnet]. *)
Definition testnet_entries : list (Z * string) := [
  (17000, "https://api-holesky.etherscan.io/api");
  (11155111, "https://api-sepolia.etherscan.io/api");
  (97, "https://api-testnet.bscscan.com/api");
  (80001, "https://api-testnet.polygonscan.com/api");
  (80002, "https://api-amoy.polygonscan.com/api");
  (4002, "https://api-testnet.ftmscan.com/api");
  (421611, "https://api-testnet.arbiscan.io/api");
  (42170, "https://api-nova.arbiscan.io/api");
  (43113, "https://api-testnet.snowtrace.io/api");
  (1287, "https://api-moonbase.moonscan.io/api");
  (338, "https://api-testnet.cronoscan.com/api");
  (1028, "https://api-testnet.bttcscan.com/api");
  (420, "https://api-goerli-optimistic.etherscan.io/api");
  (44787, "https://api-alfajores.celoscan.io/api");
  (2888, "https://api-testnet.bobascan.com/api");
  (84531, "https://api-goerli.basescan.org/api");
  (84532, "https://api-sepolia.basescan.org/api");
  (1442, "https://api-testnet-zkevm.polygonscan.com/api");
  (2442, "https://api-cardona-zkevm.polygonscan.com/api");
  (59140, "https://api-testnet.lineascan.build/api");
  (534351, "https://api-sepolia.scrollscan.com/api");
  (1115, "https://api.test.btcs.network/api")
]%string.

(** An object literal is evaluated property by property: a later property
    with the key of an earlier one replaces it. *)
Definition object_literal {V} (props : list (Z * V)) : gmap Z V :=
  foldl (λ m kv, <[kv.1 := kv.2]> m) ∅ props.

Definition scanAPIurls_entries : list (Z * string) :=
  mainnet_entries ++ testnet_entries.

Definition scanAPIurls : gmap Z string := object_literal scanAPIurls_entries.

(** ** Predicates on URLs *)

Definition has_prefix (p s : string) : bool := String.prefix p s.

Definition has_suffix (p s : string) : bool :=
  String.eqb (String.substring (String.length s - String.length p) (String.length p) s) p.

(** A well-formed endpoint: an HTTPS URL whose path is [/api]. *)
Definition api_url (s : string) : bool :=
  has_prefix "https://" s && has_suffix "/api" s.

(** The largest integer that a JavaScript number represents exactly; a key
    below it is its own canonical property name. *)
Definition MAX_SAFE_INTEGER : Z := 2 ^ 53 - 1.

(** The largest array index: a property whose name is an integer up to it
    is an integer-indexed property of the object. *)
Definition MAX_ARRAY_INDEX : Z := 2 ^ 32 - 2.

(** ** Object literals *)

Section object_literal.
Context {V : Type}.
Implicit Types (props : list (Z * V)) (m : gmap Z V).

Lemma not_elem_of_keys_snoc props k k' v' :
  k ∉ (props ++ [(k', v')]).*1 ↔ k ∉ props.*1 ∧ k' ≠ k.
Proof.
  rewrite fmap_app, not_elem_of_app. simpl. rewrite list_elem_of_singleton.
  split; (intros [??]; split; [done|congruence]).
Qed.

Lemma object_literal_snoc props k v :
  object_literal (props ++ [(k, v)]) = <[k := v]> (object_literal props).
Proof. unfold object_literal. by rewrite foldl_app. Qed.

(** The last property written for a key is the one that is read. *)
Lemma object_literal_lookup_last props k v props' :
  k ∉ props'.*1 → object_literal (props ++ (k, v) :: props') !! k = Some v.
Proof.
  induction props' as [|[k' v'] props' IH] using rev_ind; intros Hk.
  - by rewrite object_literal_snoc, lookup_insert_eq.
  - apply not_elem_of_keys_snoc in Hk as [Hk Hne].
    rewrite app_comm_cons, app_assoc, object_literal_snoc.
    rewrite lookup_insert_ne by done. auto.
Qed.

Lemma object_literal_lookup_None props k :
  k ∉ props.*1 → object_literal props !! k = None.
Proof.
  induction props as [|[k' v'] props IH] using rev_ind; intros Hk; [done|].
  apply not_elem_of_keys_snoc in Hk as [Hk Hne].
  rewrite object_literal_snoc, lookup_insert_ne by done. auto.
Qed.

Lemma object_literal_lookup_Some props k v :
  object_literal props !! k = Some v → (k, v) ∈ props.
Proof.
  induction props as [|[k' v'] props IH] using rev_ind; [done|].
  rewrite object_literal_snoc, elem_of_app, list_elem_of_singleton.
  destruct (decide (k' = k)) as [->|].
  - rewrite lookup_insert_eq. intros [= ->]. by right.
  - rewrite lookup_insert_ne by done. auto.
Qed.

(** When no key is written twice the object holds exactly the properties of
    the literal, whatever their order. *)
Lemma object_literal_NoDup props k v :
  NoDup props.*1 → object_literal props !! k = Some v ↔ (k, v) ∈ props.
Proof.
  intros Hnd. split; [apply object_literal_lookup_Some|].
  intros (props1 & props2 & ->)%list_elem_of_split.
  apply object_literal_lookup_last.
  rewrite fmap_app, fmap_cons in Hnd. apply NoDup_app in Hnd as (_ & _ & Hnd).
  by apply NoDup_cons in Hnd as [? _].
Qed.

Lemma object_literal_list_to_map props :
  NoDup props.*1 → object_literal props = list_to_map props.
Proof.
  intros Hnd. apply map_eq; intros k. apply option_eq; intros v.
  by rewrite object_literal_NoDup, elem_of_list_to_map.
Qed.

Lemma object_literal_dom props : dom (object_literal props) = list_to_set props.*1.
Proof.
  induction props as [|[k v] props IH] using rev_ind; [apply dom_empty_L|].
  rewrite object_literal_snoc, dom_insert_L, IH, fmap_app, list_to_set_app_L.
  set_solver.
Qed.

Lemma object_literal_size props : NoDup props.*1 → size (object_literal props) = length props.
Proof.
  intros Hnd. rewrite <-size_dom, object_literal_dom, size_list_to_set by done.
  by rewrite length_fmap.
Qed.

End object_literal.

(** ** The table is well formed *)

Lemma scanAPIurls_entries_NoDup : NoDup scanAPIurls_entries.*1.
Proof. solve_by_compute. Qed.

Lemma scanAPIurls_entries_api_url : Forall (λ kv, api_url kv.2 = true) scanAPIurls_entries.
Proof. solve_by_compute. Qed.

Lemma scanAPIurls_entries_safe :
  Forall (λ kv, 0 < kv.1 ≤ MAX_ARRAY_INDEX) scanAPIurls_entries.
Proof. solve_by_compute. Qed.

Lemma scanAPIurls_entries_urls_NoDup : NoDup scanAPIurls_entries.*2.
Proof. solve_by_compute. Qed.

(** No chain identifier is written twice in the literal of [scanAPIurls],
    in either group or across the two groups, so no entry of the source is
    shadowed by a later one. *)
Lemma scanAPIurls_no_duplicate_key :
  NoDup (mainnet_entries ++ testnet_entries).*1 ∧
  ∀ k v, (k, v) ∈ scanAPIurls_entries ↔ scanAPIurls !! k = Some v.
Proof.
  split; [apply scanAPIurls_entries_NoDup|]. intros k v.
  symmetry. apply object_literal_NoDup, scanAPIurls_entries_NoDup.
Qed.

(** C40: every endpoint that [scanAPIurls] returns is an HTTPS URL that ends
    in [/api], and the chain identifier it is filed under is a positive
    array index, hence a safe integer: a number that JavaScript represents
    exactly, whose name is its decimal digits, and that an enumeration lists
    in ascending order.  No two chains share an endpoint: the table is
    injective. *)
Theorem scanAPIurls_lookup_api_url k url :
  scanAPIurls !! k = Some url →
  api_url url = true ∧ 0 < k ≤ MAX_ARRAY_INDEX ∧ MAX_ARRAY_INDEX < MAX_SAFE_INTEGER ∧
  ∀ k', scanAPIurls !! k' = Some url → k' = k.
Proof.
  intros Hin%object_literal_lookup_Some. split_and!; [| | |done|].
  - by apply (proj1 (Forall_forall _ _) scanAPIurls_entries_api_url (k, url)).
  - by apply (proj1 (Forall_forall _ _) scanAPIurls_entries_safe (k, url)).
  - by apply (proj1 (Forall_forall _ _) scanAPIurls_entries_safe (k, url)).
  - intros k' Hin'%object_literal_lookup_Some.
    eapply NoDup_snd_inj; eauto using scanAPIurls_entries_urls_NoDup.
Qed.

Lemma scanAPIurls_lookup_api_url_witness :
  api_url "https://api.etherscan.io/api" = true ∧ 0 < 1 ≤ MAX_ARRAY_INDEX ∧
  MAX_ARRAY_INDEX < MAX_SAFE_INTEGER ∧
  ∀ k', scanAPIurls !! k' = Some "https://api.etherscan.io/api" → k' = 1.
Proof. apply (scanAPIurls_lookup_api_url 1). reflexivity. Defined.

(** The table has 41 entries, 19 for main networks and 22 for test
    networks, and no two chains share an endpoint. *)
Lemma scanAPIurls_size :
  size scanAPIurls = 41%nat ∧ length mainnet_entries = 19%nat ∧
  length testnet_entries = 22%nat ∧ NoDup scanAPIurls_entries.*2.
Proof.
  split_and!; [|done|done|solve_by_compute].
  unfold scanAPIurls. by rewrite object_literal_size by apply scanAPIurls_entries_NoDup.
Qed.

(** The endpoint of a chain that is not in the table is [undefined]. *)
Lemma scanAPIurls_lookup_absent k : k ∉ scanAPIurls_entries.*1 → scanAPIurls !! k = None.
Proof. apply object_literal_lookup_None. Qed.

(** A key written twice keeps its last value: the reason for which the
    absence of duplicates matters. *)
Example object_literal_shadow : object_literal [(1, "a"); (1, "b")] !! 1 = Some "b".
Proof. reflexivity. Qed.
