(* ===== verification/Proc.v ===== *)
(** * Computations of an asynchronous method

    A method of the plugin reads and writes the fields of [this], performs
    outbound calls whose result it does not wait for, awaits requests, and
    may throw.  [proc St Eff Req A] is the type of such computations over a
    state [St], fire-and-forget effects [Eff] and awaited requests [Req]: an
    inductive free monad.  JavaScript runs a method without interruption up
    to its next [await]; [run] is that synchronous segment.  [exec] runs a
    computation to its end against an environment that answers every request
    at once.  [spawn] is the call of an async method whose promise is not
    awaited on the spot: the callee's first segment runs inside the caller,
    and the rest of the callee is returned as a value.

    Three judgements on computations carry the proofs of the other files:
    [awaits n t] (at most [n] suspensions), [wp Π Φ t s] (a weakest
    precondition under a [protocol]: an invariant at the points of
    suspension, a guarantee on the writes, a set of permitted events) and
    [sim Q R Φ s1 s2 t u] (two runs from two states, segment by segment:
    the same events and requests, written states related by [Q], resumption
    states by [R], results by [Φ]).  [agree P s t u] is [sim] from one
    state, with equality for the states and the results.  A fourth,
    [segmented P l t], states a property [P] of the whole trace of every
    segment, for what a protocol, which constrains one event at a time,
    cannot say; it composes for the properties of the class [Composable].

    The type is generic; [Plugin] instantiates it with the plugin's
    fields, effects and requests. *)

From S2P Require Import Prelude JsValue.

(** ** Syntax *)

Section syntax.
Context {Eff Req : Type}.

(** What an observer of the plugin sees: an effect, or a request being
    issued. *)
Inductive event : Type :=
| Did (e : Eff)
| Asked (r : Req).

End syntax.
Arguments event : clear implicits.

Section proc.
Context {St Eff Req : Type}.

Inductive proc (A : Type) : Type :=
| Ret (a : A)
| Throw (e : error)
| Get (k : St → proc A)
| Put (s : St) (k : proc A)
| Emit (e : event Eff Req) (k : proc A)
| Wait (r : Req) (k : value → proc A).
Arguments Ret {A} a.
Arguments Throw {A} e.
Arguments Get {A} k.
Arguments Put {A} s k.
Arguments Emit {A} e k.
Arguments Wait {A} r k.

Fixpoint bind {A B} (t : proc A) (f : A → proc B) : proc B :=
  match t with
  | Ret a => f a
  | Throw e => Throw e
  | Get k => Get (λ s, bind (k s) f)
  | Put s k => Put s (bind k f)
  | Emit e k => Emit e (bind k f)
  | Wait r k => Wait r (λ v, bind (k v) f)
  end.

(** The primitive computations. *)
Definition get : proc St := Get Ret.
Definition put (s : St) : proc unit := Put s (Ret tt).
Definition modify (f : St → St) : proc unit := Get (λ s, Put (f s) (Ret tt)).
Definition emit (e : Eff) : proc unit := Emit (Did e) (Ret tt).
Definition throw {A} (e : error) : proc A := Throw e.

(** [await r]: the request is issued, then the method is suspended until
    the answer arrives. *)
Definition await (r : Req) : proc value := Emit (Asked r) (Wait r Ret).

(** A member access that may throw, as a computation. *)
Definition lift {A} (x : error + A) : proc A :=
  match x with
  | inl e => Throw e
  | inr a => Ret a
  end.

(** The call of an async method, not awaited.  The callee runs up to its
    first suspension; an exception it throws rejects its promise and does not
    reach the caller. *)
Fixpoint spawn {A} (t : proc A) : proc (proc A) :=
  match t with
  | Ret a => Ret (Ret a)
  | Throw e => Ret (Throw e)
  | Get k => Get (λ s, spawn (k s))
  | Put s k => Put s (spawn k)
  | Emit e k => Emit e (spawn k)
  | Wait r k => Ret (Wait r k)
  end.

(** ** Semantics *)

(** How a synchronous segment ends: the promise of the method is fulfilled
    or rejected, or the method is suspended on a request. *)
Inductive outcome (A : Type) : Type :=
| Fulfilled (a : A)
| Rejected (e : error)
| Pending (r : Req) (k : value → proc A).
Arguments Fulfilled {A} a.
Arguments Rejected {A} e.
Arguments Pending {A} r k.

(** One synchronous segment: the final state, the events in the order in
    which they happened, and the outcome. *)
Fixpoint run {A} (t : proc A) (s : St) : St * list (event Eff Req) * outcome A :=
  match t with
  | Ret a => (s, [], Fulfilled a)
  | Throw e => (s, [], Rejected e)
  | Get k => run (k s) s
  | Put s' k => run k s'
  | Emit e k => let '(s', l, o) := run k s in (s', e :: l, o)
  | Wait r k => (s, [], Pending r k)
  end.

(** The segment that follows the answer to the awaited request; a rejected
    request is thrown at the [await], which no method of the plugin
    catches. *)
Definition resume {A} (k : value → proc A) (answer : error + value) (s : St) :
    St * list (event Eff Req) * outcome A :=
  match answer with
  | inr v => run (k v) s
  | inl e => (s, [], Rejected e)
  end.

(** A whole execution in which nothing else happens between a request and
    its answer: [env] answers each request. *)
Fixpoint exec {A} (env : Req → error + value) (t : proc A) (s : St) :
    St * list (event Eff Req) * (error + A) :=
  match t with
  | Ret a => (s, [], inr a)
  | Throw e => (s, [], inl e)
  | Get k => exec env (k s) s
  | Put s' k => exec env k s'
  | Emit e k => let '(s', l, o) := exec env k s in (s', e :: l, o)
  | Wait r k =>
      match env r with
      | inr v => exec env (k v) s
      | inl e => (s, [], inl e)
      end
  end.

(** What is left of a method after its first segment, as a computation. *)
Definition residual {A} (o : outcome A) : proc A :=
  match o with
  | Fulfilled a => Ret a
  | Rejected e => Throw e
  | Pending r k => Wait r k
  end.

(** [awaits n t]: whatever the answers, [t] is suspended at most [n] times
    before it settles. *)
Fixpoint awaits {A} (n : nat) (t : proc A) {struct t} : Prop :=
  match t with
  | Ret _ | Throw _ => True
  | Get k => ∀ s, awaits n (k s)
  | Put _ k | Emit _ k => awaits n k
  | Wait _ k =>
      match n with
      | 0 => False
      | S n' => ∀ v, awaits n' (k v)
      end
  end.

(** [returns P t]: every value that [t] can return, from whatever state and
    with whatever answers, satisfies [P]. *)
Fixpoint returns {A} (P : A → Prop) (t : proc A) : Prop :=
  match t with
  | Ret a => P a
  | Throw _ => True
  | Get k => ∀ s, returns P (k s)
  | Put _ k | Emit _ k => returns P k
  | Wait _ k => ∀ v, returns P (k v)
  end.

(** [later P t]: what is left of [t] after its first suspension satisfies
    [P], whatever the state and the answer. *)
Fixpoint later {A} (P : proc A → Prop) (t : proc A) : Prop :=
  match t with
  | Ret _ | Throw _ => True
  | Get k => ∀ s, later P (k s)
  | Put _ k | Emit _ k => later P k
  | Wait _ k => ∀ v, P (k v)
  end.

(** [segmented P l t]: a segment that has emitted [l] and goes on as [t]
    has emitted a trace that has [P] when it ends or is suspended, and so has
    every later segment of [t], whatever the states and the answers. *)
Fixpoint segmented {A} (P : list (event Eff Req) → Prop) (l : list (event Eff Req))
    (t : proc A) : Prop :=
  match t with
  | Ret _ | Throw _ => P l
  | Get k => ∀ s, segmented P l (k s)
  | Put _ k => segmented P l k
  | Emit e k => segmented P (l ++ [e]) k
  | Wait _ k => P l ∧ ∀ v, segmented P [] (k v)
  end.

(** The properties of traces for which [segmented] composes: those that the
    empty trace has and that two traces in a row keep. *)
Class Composable (P : list (event Eff Req) → Prop) : Prop := {
  composable_nil : P [];
  composable_app l l' : P l → P l' → P (l ++ l')
}.

(** What the methods that share a state promise to each other: an invariant
    of the state that holds whenever a method yields or ends, a guarantee on
    every write, and the events that may be emitted. *)
Record protocol : Type := {
  invariant : St → Prop;
  guarantee : St → St → Prop;
  permitted : event Eff Req → Prop
}.

(** [wp Π Φ t s]: the weakest precondition of [t] in the state [s] under the
    protocol [Π].  A segment runs without interruption, so inside a segment
    the state is the one the method left; at an [await] the method yields:
    the invariant must hold there, and all the method knows of the state in
    which it resumes is the invariant.  Every write is within the guarantee
    and every event is permitted; the invariant holds when the method throws,
    and [Φ] of the value and the state when it returns. *)
Fixpoint wp {A} (Π : protocol) (Φ : A → St → Prop) (t : proc A) (s : St) : Prop :=
  match t with
  | Ret a => Φ a s
  | Throw _ => invariant Π s
  | Get k => wp Π Φ (k s) s
  | Put s' k => guarantee Π s s' ∧ wp Π Φ k s'
  | Emit e k => permitted Π e ∧ wp Π Φ k s
  | Wait _ k => invariant Π s ∧ ∀ v s', invariant Π s' → wp Π Φ (k v) s'
  end.

(** A method that follows the protocol. *)
Definition respects {A} (Π : protocol) (t : proc A) (s : St) : Prop :=
  wp Π (λ _, invariant Π) t s.

(** What is left of a method at the end of a segment: a value, an
    exception, or a suspension. *)
Definition is_residual {A} (t : proc A) : Prop :=
  match t with
  | Ret _ | Throw _ | Wait _ _ => True
  | _ => False
  end.

(** The segments of a suspended method, one per answer, as long as there
    are answers and the method is suspended. *)
Fixpoint settle {A} (answers : list (error + value)) (s : St) (o : outcome A) :
    St * list (event Eff Req) * outcome A :=
  match answers, o with
  | a :: answers', Pending r k =>
      let '(s1, l1, o1) := resume k a s in
      let '(s2, l2, o2) := settle answers' s1 o1 in (s2, l1 ++ l2, o2)
  | _, _ => (s, [], o)
  end.

(** A method from its call to the last of the given answers. *)
Definition drive {A} (answers : list (error + value)) (t : proc A) (s : St) :
    St * list (event Eff Req) * outcome A :=
  let '(s1, l1, o1) := run t s in
  let '(s2, l2, o2) := settle answers s1 o1 in (s2, l1 ++ l2, o2).

(** A settled outcome: the promise is fulfilled or rejected. *)
Definition settled {A} (o : outcome A) : bool :=
  match o with
  | Pending _ _ => false
  | _ => true
  end.

(** [sim Q R Φ s1 s2 t u]: [t] from the state [s1] and [u] from the state
    [s2] emit the same events, await the same requests and end alike, segment
    by segment: with the same exception, or with values related by [Φ].  The
    states that they write are related by [Q], and they resume in states
    related by [R].  They need not read the state at the same points. *)
Inductive sim {A B} (Q R : relation St) (Φ : A → B → Prop) :
    St → St → proc A → proc B → Prop :=
| sim_ret s1 s2 a b : Φ a b → sim Q R Φ s1 s2 (Ret a) (Ret b)
| sim_throw s1 s2 e : sim Q R Φ s1 s2 (Throw e) (Throw e)
| sim_get_l s1 s2 k u : sim Q R Φ s1 s2 (k s1) u → sim Q R Φ s1 s2 (Get k) u
| sim_get_r s1 s2 t k : sim Q R Φ s1 s2 t (k s2) → sim Q R Φ s1 s2 t (Get k)
| sim_put s1 s2 s1' s2' k k' :
    Q s1' s2' → sim Q R Φ s1' s2' k k' → sim Q R Φ s1 s2 (Put s1' k) (Put s2' k')
| sim_emit s1 s2 e k k' :
    sim Q R Φ s1 s2 k k' → sim Q R Φ s1 s2 (Emit e k) (Emit e k')
| sim_wait s1 s2 r k k' :
    (∀ v s1' s2', R s1' s2' → sim Q R Φ s1' s2' (k v) (k' v)) →
    sim Q R Φ s1 s2 (Wait r k) (Wait r k').

(** Segments that end alike. *)
Definition outcome_sim {A B} (Q R : relation St) (Φ : A → B → Prop)
    (o : outcome A) (o' : outcome B) : Prop :=
  match o, o' with
  | Fulfilled a, Fulfilled b => Φ a b
  | Rejected e, Rejected e' => e = e'
  | Pending r k, Pending r' k' =>
      r = r' ∧ ∀ v s1 s2, R s1 s2 → sim Q R Φ s1 s2 (k v) (k' v)
  | _, _ => False
  end.

(** What is left of two methods that were called and not awaited: promises
    that are related whenever they are awaited. *)
Definition promised {A B} (Q R : relation St) (Φ : A → B → Prop)
    (p : proc A) (q : proc B) : Prop :=
  ∀ s1 s2, sim Q R Φ s1 s2 p q.

(** The states in which two computations that agree under [P] resume: the
    same state, of which [P] holds. *)
Definition resumed_in (P : St → Prop) : relation St := λ s1 s2, s1 = s2 ∧ P s1.

(** [agree P s t u]: from the state [s], [t] and [u] write the same states,
    emit the same events and await the same requests, segment by segment, as
    long as [P] holds of the state in which they resume. *)
Definition agree {A} (P : St → Prop) (s : St) (t u : proc A) : Prop :=
  sim eq (resumed_in P) eq s s t u.

Definition outcome_agree {A} (P : St → Prop) (o o' : outcome A) : Prop :=
  outcome_sim eq (resumed_in P) eq o o'.

(** ** Equivalence of computations

    Two computations are equivalent when they are the same tree up to the
    extensional equality of their continuations. *)
Inductive proc_equiv {A} : Equiv (proc A) :=
| Ret_equiv a : Ret a ≡ Ret a
| Throw_equiv e : Throw e ≡ Throw e
| Get_equiv k k' : (∀ s, k s ≡ k' s) → Get k ≡ Get k'
| Put_equiv s k k' : k ≡ k' → Put s k ≡ Put s k'
| Emit_equiv e k k' : k ≡ k' → Emit e k ≡ Emit e k'
| Wait_equiv r k k' : (∀ v, k v ≡ k' v) → Wait r k ≡ Wait r k'.
#[export] Existing Instance proc_equiv.

Inductive outcome_equiv {A} : Equiv (outcome A) :=
| Fulfilled_equiv a : Fulfilled a ≡ Fulfilled a
| Rejected_equiv e : Rejected e ≡ Rejected e
| Pending_equiv r k k' : (∀ v, k v ≡ k' v) → Pending r k ≡ Pending r k'.
#[export] Existing Instance outcome_equiv.

End proc.

Arguments proc : clear implicits.
Arguments outcome : clear implicits.
Arguments protocol : clear implicits.
Arguments Ret {St Eff Req A} a.
Arguments Throw {St Eff Req A} e.
Arguments Get {St Eff Req A} k.
Arguments Put {St Eff Req A} s k.
Arguments Emit {St Eff Req A} e k.
Arguments Wait {St Eff Req A} r k.
Arguments Fulfilled {St Eff Req A} a.
Arguments Rejected {St Eff Req A} e.
Arguments Pending {St Eff Req A} r k.

#[export] Instance proc_ret {St Eff Req} : MRet (proc St Eff Req) := λ A, Ret.
#[export] Instance proc_bind {St Eff Req} : MBind (proc St Eff Req) := λ A B f t, bind t f.
#[export] Instance proc_fmap {St Eff Req} : FMap (proc St Eff Req) :=
  λ A B f t, bind t (λ a, Ret (f a)).

#[export] Hint Constructors proc_equiv outcome_equiv : remix.

(** ** Theory *)

Section theory.
Context {St Eff Req : Type}.
#[local] Abbreviation proc := (proc St Eff Req).
#[local] Abbreviation outcome := (outcome St Eff Req).
Implicit Types (s : St) (l : list (event Eff Req)) (env : Req → error + value).

(** *** The equivalence *)

Lemma proc_equiv_refl {A} (t : proc A) : t ≡ t.
Proof. induction t; constructor; auto. Qed.

Lemma proc_equiv_sym {A} (t u : proc A) : t ≡ u → u ≡ t.
Proof. induction 1; constructor; auto. Qed.

Lemma proc_equiv_trans {A} (t u w : proc A) : t ≡ u → u ≡ w → t ≡ w.
Proof.
  intros Htu. revert w.
  induction Htu; intros w Huw; inv Huw; constructor; auto.
Qed.

#[export] Instance proc_equivalence {A} : Equivalence (≡@{proc A}).
Proof.
  split; [exact proc_equiv_refl|exact proc_equiv_sym|exact proc_equiv_trans].
Qed.

#[export] Instance outcome_equivalence {A} : Equivalence (≡@{outcome A}).
Proof.
  split.
  - intros []; constructor; reflexivity.
  - intros ?? []; constructor; by symmetry.
  - intros ??? [] Hyz; inv Hyz; constructor; etrans; eauto.
Qed.

#[export] Instance bind_proper {A B} :
  Proper ((≡) ==> pointwise_relation A (≡) ==> (≡)) (@bind St Eff Req A B).
Proof. intros t u Htu f g Hfg. induction Htu; simpl; try constructor; auto. Qed.

#[export] Instance residual_proper {A} : Proper ((≡) ==> (≡)) (@residual St Eff Req A).
Proof. intros ?? []; simpl; constructor; auto. Qed.

(** *** The monad laws *)

Lemma bind_ret_l {A B} (a : A) (f : A → proc B) : mret a ≫= f = f a.
Proof. done. Qed.

Lemma bind_ret_r {A} (t : proc A) : t ≫= mret ≡ t.
Proof. induction t; simpl; constructor; auto. Qed.

Lemma bind_assoc {A B C} (t : proc A) (f : A → proc B) (g : B → proc C) :
  (t ≫= f) ≫= g ≡ t ≫= (λ a, f a ≫= g).
Proof. induction t; simpl; try constructor; auto; reflexivity. Qed.

Lemma bind_throw {A B} e (f : A → proc B) : throw e ≫= f = throw e.
Proof. done. Qed.

(** *** Synchronous segments *)

(** Equivalent computations run alike. *)
Lemma run_proper {A} (t u : proc A) s :
  t ≡ u → (run t s).1 = (run u s).1 ∧ (run t s).2 ≡ (run u s).2.
Proof.
  intros Htu. revert s. induction Htu; intros s0; simpl; auto with remix.
  destruct (IHHtu s0) as [Heq Ho].
  destruct (run k s0) as [[??]?], (run k' s0) as [[??]?]; simpl in *.
  by simplify_eq.
Qed.

#[export] Instance exec_proper {A} env : Proper ((≡) ==> (=) ==> (=)) (@exec St Eff Req A env).
Proof.
  intros t u Htu s ? <-. revert s. induction Htu; intros s0; simpl; auto.
  - by rewrite IHHtu.
  - destruct (env r); auto.
Qed.

(** The segment of [t ≫= f]: the segment of [t], followed by that of [f]
    when [t] settles with a value. *)
Lemma run_bind {A B} (t : proc A) (f : A → proc B) s :
  run (t ≫= f) s =
    match run t s with
    | (s1, l1, Fulfilled a) => let '(s2, l2, o) := run (f a) s1 in (s2, l1 ++ l2, o)
    | (s1, l1, Rejected e) => (s1, l1, Rejected e)
    | (s1, l1, Pending r k) => (s1, l1, Pending r (λ v, k v ≫= f))
    end.
Proof.
  unfold mbind, proc_bind. revert s.
  induction t as [a|e|k IH|s' k IH|e k IH|r k IH]; intros s; simpl; auto.
  - by destruct (run (f a) s) as [[??]?].
  - rewrite IH. destruct (run k s) as [[s1 l1] [a| |]]; auto.
    by destruct (run (f a) s1) as [[??]?].
Qed.

Lemma exec_bind {A B} env (t : proc A) (f : A → proc B) s :
  exec env (t ≫= f) s =
    match exec env t s with
    | (s1, l1, inr a) => let '(s2, l2, o) := exec env (f a) s1 in (s2, l1 ++ l2, o)
    | (s1, l1, inl e) => (s1, l1, inl e)
    end.
Proof.
  unfold mbind, proc_bind. revert s.
  induction t as [a|e|k IH|s' k IH|e k IH|r k IH]; intros s; simpl; auto.
  - by destruct (exec env (f a) s) as [[??]?].
  - rewrite IH. destruct (exec env k s) as [[s1 l1] [|a]]; auto.
    by destruct (exec env (f a) s1) as [[??]?].
  - destruct (env r); auto.
Qed.

(** A whole execution is its first segment followed by the execution of
    what is left. *)
Lemma exec_run {A} env (t : proc A) s :
  exec env t s =
    let '(s1, l1, o) := run t s in
    let '(s2, l2, x) := exec env (residual o) s1 in (s2, l1 ++ l2, x).
Proof.
  revert s. induction t as [a|e|k IH|s' k IH|e k IH|r k IH]; intros s; simpl; auto.
  - rewrite IH. destruct (run k s) as [[s1 l1] o].
    by destruct (exec env (residual o) s1) as [[??]?].
  - by destruct (env r) as [|v]; [|destruct (exec env (k v) s) as [[??]?]].
Qed.

(** *** Calls that are not awaited *)

(** A call returns to its caller without throwing and without suspending
    it: the caller holds the callee's promise. *)
Lemma run_spawn {A} (t : proc A) s :
  run (spawn t) s = let '(s', l, o) := run t s in (s', l, Fulfilled (residual o)).
Proof.
  revert s. induction t; intros s0; simpl; auto.
  rewrite IHt. by destruct (run t s0) as [[??]?].
Qed.

(** Awaiting the promise of a call on the spot is the callee itself. *)
Lemma spawn_join {A} (t : proc A) : spawn t ≫= id ≡ t.
Proof.
  unfold mbind, proc_bind. induction t; simpl; try constructor; auto; reflexivity.
Qed.

(** *** Bounds on suspensions *)

Lemma awaits_mono {A} n m (t : proc A) : n ≤ m → awaits n t → awaits m t.
Proof.
  revert n m. induction t as [| |k IH|? k IH|? k IH|r k IH]; simpl; intros n m Hnm; eauto.
  destruct n, m; try done; try lia. intros Hk v. eapply IH; [|apply Hk]. lia.
Qed.

Lemma awaits_bind {A B} n m (t : proc A) (f : A → proc B) :
  awaits n t → (∀ a, awaits m (f a)) → awaits (n + m) (t ≫= f).
Proof.
  unfold mbind, proc_bind. revert n.
  induction t as [| |k IH|? k IH|? k IH|r k IH]; simpl; intros n Ht Hf; eauto.
  - eapply awaits_mono; [|apply Hf]. lia.
  - destruct n; [done|]. simpl. intros v. by apply IH.
Qed.

Lemma awaits_spawn {A} (t : proc A) : awaits 0 (spawn t).
Proof. induction t; simpl; auto. Qed.

(** A computation that never suspends settles in its first segment. *)
Lemma awaits_0_run {A} (t : proc A) s : awaits 0 t → ∀ r k, (run t s).2 ≠ Pending r k.
Proof.
  revert s. induction t as [| |k IH|? k IH|? k IH|r k IH]; simpl; intros s0 Ht r' k'; try done; eauto.
  specialize (IH s0 Ht r' k'). by destruct (run k s0) as [[??]?].
Qed.

Lemma awaits_S_run {A} n (t : proc A) s r k :
  awaits (S n) t → (run t s).2 = Pending r k → ∀ v, awaits n (k v).
Proof.
  revert s. induction t as [| |k0 IH|? k0 IH|? k0 IH|r0 k0 IH]; simpl; intros s0 Ht; try done; eauto.
  - intros Ho. apply (IH s0 Ht). by destruct (run k0 s0) as [[??]?].
  - by intros [= <- <-].
Qed.

Lemma awaits_residual_run {A} n (t : proc A) s : awaits n t → awaits n (residual (run t s).2).
Proof.
  revert s. induction t as [| |k0 IH|? k0 IH|? k0 IH|r0 k0 IH]; simpl; intros s0 Ht; eauto.
  specialize (IH s0 Ht). by destruct (run k0 s0) as [[??]?].
Qed.

(** A method that suspends at most [n] times is settled by [n] answers,
    whatever they are. *)
Lemma awaits_settle {A} n answers s (o : outcome A) :
  awaits n (residual o) → n ≤ length answers → settled (settle answers s o).2 = true.
Proof.
  revert n s o. induction answers as [|a answers IH]; intros n s [a'|e|r k]; simpl; try done.
  - intros ? ?. destruct n; [done|lia].
  - destruct n as [|n]; [done|]. intros Hk Hn.
    assert (awaits n (residual (resume k a s).2)) as Ho.
    { destruct a as [e|v]; simpl; [done|]. by apply awaits_residual_run. }
    destruct (resume k a s) as [[s1 l1] o1]. simpl in Ho.
    specialize (IH n s1 o1 Ho ltac:(lia)).
    by destruct (settle answers s1 o1) as [[??]?].
Qed.

Lemma awaits_drive {A} n answers (t : proc A) s :
  awaits n t → n ≤ length answers → settled (drive answers t s).2 = true.
Proof.
  intros Ht Hn. unfold drive.
  pose proof (awaits_residual_run n t s Ht) as Ho.
  destruct (run t s) as [[s1 l1] o1]. simpl in Ho.
  pose proof (awaits_settle n answers s1 o1 Ho Hn) as Hs.
  by destruct (settle answers s1 o1) as [[??]?].
Qed.

(** *** Postconditions *)

Lemma returns_mono {A} (P Q : A → Prop) (t : proc A) :
  (∀ a, P a → Q a) → returns P t → returns Q t.
Proof. induction t; simpl; eauto. Qed.

Lemma returns_bind {A B} (P : A → Prop) (Q : B → Prop) (t : proc A) (f : A → proc B) :
  returns P t → (∀ a, P a → returns Q (f a)) → returns Q (t ≫= f).
Proof. unfold mbind, proc_bind. induction t; simpl; eauto. Qed.

Lemma returns_True {A} (t : proc A) : returns (λ _, True) t.
Proof. induction t; simpl; eauto. Qed.

(** The promise that a call returns suspends no more often than the
    callee. *)
Lemma returns_spawn {A} n (t : proc A) : awaits n t → returns (awaits n) (spawn t).
Proof.
  induction t as [| |k0 IH|? k0 IH|? k0 IH|r0 k0 IH]; simpl; eauto.
Qed.

(** The bound of a sequence whose second part depends on what the first
    returns. *)
Lemma awaits_bind_returns {A B} n m (t : proc A) (f : A → proc B) :
  awaits n t → returns (λ a, awaits m (f a)) t → awaits (n + m) (t ≫= f).
Proof.
  unfold mbind, proc_bind. revert n.
  induction t as [| |k IH|? k IH|? k IH|r k IH]; simpl; intros n Ht Hf; eauto.
  - eapply awaits_mono; [|apply Hf]. lia.
  - destruct n; [done|]. simpl. intros v. by apply IH.
Qed.

(** What a computation returns in its first segment satisfies its
    postcondition. *)
Lemma returns_run {A} (P : A → Prop) (t : proc A) s a :
  returns P t → (run t s).2 = Fulfilled a → P a.
Proof.
  revert s. induction t as [| |k0 IH|? k0 IH|? k0 IH|r0 k0 IH]; simpl; intros s0 Ht; eauto.
  - by intros [= <-].
  - done.
  - intros Ho. apply (IH s0 Ht). by destruct (run k0 s0) as [[??]?].
  - done.
Qed.

Lemma is_residual_residual {A} (o : outcome A) : is_residual (residual o).
Proof. by destruct o. Qed.

(** *** After the first suspension *)

Lemma later_residual_run {A} (P : proc A → Prop) (t : proc A) s :
  later P t → later P (residual (run t s).2).
Proof.
  revert s. induction t as [| |k IH|? k IH|? k IH|r k IH]; simpl; intros s0 Ht; eauto.
  specialize (IH s0 Ht). by destruct (run k s0) as [[??]?].
Qed.

Lemma awaits_0_later {A} (P : proc A → Prop) (t : proc A) : awaits 0 t → later P t.
Proof. induction t; simpl; intros; try done; eauto. Qed.

Lemma returns_spawn_later {A} (P : proc A → Prop) (t : proc A) :
  later P t → returns (later P) (spawn t).
Proof. induction t; simpl; eauto. Qed.

Lemma later_bind {A B} (P : proc B → Prop) (t : proc A) (f : A → proc B) :
  later (λ u, P (u ≫= f)) t → returns (λ a, later P (f a)) t → later P (t ≫= f).
Proof. unfold mbind, proc_bind. induction t; simpl; eauto. Qed.

End theory.

(** *** The trace of every segment *)

Section segmented.
Context {St Eff Req : Type} (P : list (event Eff Req) → Prop) {HP : Composable P}.
#[local] Abbreviation proc := (proc St Eff Req).

Lemma segmented_app {A} l l' (t : proc A) :
  P l → segmented P l' t → segmented P (l ++ l') t.
Proof.
  destruct HP as [_ P_app]. intros Hl. revert l'.
  induction t as [| |k IH|? k IH|e k IH|r k IH]; simpl; intros l'; eauto.
  - rewrite <-app_assoc. apply IH.
  - intros [??]. eauto.
Qed.

(** A sequence whose second part depends on what the first returns. *)
Lemma segmented_bind_returns {A B} (Q : A → Prop) l (t : proc A) (f : A → proc B) :
  segmented P l t → returns Q t → (∀ a, Q a → segmented P [] (f a)) →
  segmented P l (t ≫= f).
Proof.
  unfold mbind, proc_bind. intros Ht HQ Hf. revert l Ht.
  induction t as [| |k IH|? k IH|e k IH|r k IH]; simpl in *; intros l Ht; eauto.
  - rewrite <-(app_nil_r l). apply segmented_app; auto.
  - destruct Ht as [? Hk]. eauto.
Qed.

Lemma segmented_bind {A B} l (t : proc A) (f : A → proc B) :
  segmented P l t → (∀ a, segmented P [] (f a)) → segmented P l (t ≫= f).
Proof. intros Ht Hf. eapply segmented_bind_returns; eauto using returns_True. Qed.

(** The call of an async method: the first segment of the callee is part of
    the segment of the caller, and the promise holds the rest. *)
Lemma segmented_spawn {A} l (t : proc A) :
  segmented P l t → segmented P l (spawn t) ∧ returns (segmented P []) (spawn t).
Proof.
  destruct HP as [P_nil _]. revert l.
  induction t as [| |k IH|? k IH|e k IH|r k IH]; simpl; intros l Ht; eauto.
  - split; intros s; by apply (IH s l).
  - by destruct Ht.
Qed.

(** The first segment has [P], and what is left is segmented. *)
Lemma segmented_run {A} l (t : proc A) s :
  segmented P l t → P (l ++ (run t s).1.2) ∧ segmented P [] (residual (run t s).2).
Proof.
  destruct HP as [P_nil _]. revert l s.
  induction t as [| |k IH|? k IH|e k IH|r k IH]; simpl; intros l s0 Ht;
    rewrite ?app_nil_r; eauto.
  - specialize (IH (l ++ [e]) s0 Ht). destruct (run k s0) as [[??]?]. simpl in *.
    by rewrite <-app_assoc in IH.
  - destruct Ht. eauto.
Qed.

End segmented.

(** *** Invariants at the points of suspension *)

Section wp.
Context {St Eff Req : Type} (Π : protocol St Eff Req).
#[local] Abbreviation proc := (proc St Eff Req).
Implicit Types (s : St).

Lemma wp_mono {A} (Φ Ψ : A → St → Prop) (t : proc A) s :
  (∀ a s', Φ a s' → Ψ a s') → wp Π Φ t s → wp Π Ψ t s.
Proof. intros HΦ. revert s. induction t; simpl; intros s0; naive_solver. Qed.

Lemma wp_bind {A B} (Φ : B → St → Prop) (t : proc A) (f : A → proc B) s :
  wp Π (λ a s', wp Π Φ (f a) s') t s → wp Π Φ (t ≫= f) s.
Proof.
  unfold mbind, proc_bind. revert s. induction t; simpl; intros s0; naive_solver.
Qed.

(** A call that is not awaited leaves to its caller a promise that follows
    the protocol as the callee does. *)
Lemma wp_spawn {A} (Φ : A → St → Prop) (t : proc A) s :
  wp Π Φ t s → wp Π (λ u s', is_residual u ∧ wp Π Φ u s') (spawn t) s.
Proof. revert s. induction t; simpl; intros s0; naive_solver. Qed.

(** What is left of a method reads the state only when it resumes: all it
    needs of the state in which it is kept is the invariant. *)
Lemma wp_residual_stable {A} (Φ : A → St → Prop) (u : proc A) s s' :
  is_residual u → (invariant Π s → invariant Π s') → (∀ a, Φ a s → Φ a s') →
  wp Π Φ u s → wp Π Φ u s'.
Proof. destruct u; simpl; naive_solver. Qed.

(** One segment: its writes compose within the guarantee, its events are
    permitted, and what is left of the method follows the protocol from the
    state in which the segment ends. *)
Lemma wp_run {A} (Φ : A → St → Prop) (t : proc A) s :
  wp Π Φ t s →
  rtc (guarantee Π) s (run t s).1.1 ∧ Forall (permitted Π) (run t s).1.2 ∧
  wp Π Φ (residual (run t s).2) (run t s).1.1.
Proof.
  revert s. induction t as [| |k IH|s' k IH|e k IH|r k IH]; simpl; intros s0;
    try naive_solver.
  - intros [Hg Hk]. destruct (IH s' Hk) as (? & ? & ?). eauto using rtc_l.
  - intros [He Hk]. destruct (IH s0 Hk) as (Hs & Hl & Ho).
    destruct (run k s0) as [[s1 l1] o1]. simpl in *. split_and!; [done|by constructor|done].
Qed.

Lemma wp_resume {A} (Φ : A → St → Prop) r (k : value → proc A) answer s s' :
  wp Π Φ (Wait r k) s → invariant Π s' →
  rtc (guarantee Π) s' (resume k answer s').1.1 ∧
  Forall (permitted Π) (resume k answer s').1.2 ∧
  wp Π Φ (residual (resume k answer s').2) (resume k answer s').1.1.
Proof.
  intros [_ Hk] Hs'. destruct answer as [e|v]; simpl; [done|]. by apply wp_run, Hk.
Qed.

(** What is left at the end of a segment: the invariant holds there. *)
Lemma respects_residual {A} (o : outcome St Eff Req A) s :
  respects Π (residual o) s → invariant Π s.
Proof. unfold respects. destruct o; simpl; [done|done|by intros [? _]]. Qed.

End wp.

(** *** Related runs *)

Section sim.
Context {St Eff Req : Type} (Q R : relation St).

(** Computations that are related run alike: the segments end in related
    states, with the same events, and what is left is related. *)
Lemma sim_run {A B} (Φ : A → B → Prop) (t : proc St Eff Req A) (u : proc St Eff Req B)
    s1 s2 :
  Q s1 s2 → sim Q R Φ s1 s2 t u →
  Q (run t s1).1.1 (run u s2).1.1 ∧ (run t s1).1.2 = (run u s2).1.2 ∧
  outcome_sim Q R Φ (run t s1).2 (run u s2).2.
Proof.
  intros Hs Hsim. induction Hsim as [| | | | |s1 s2 e k k' _ IH|]; simpl; auto.
  destruct (IH Hs) as (? & ? & ?).
  destruct (run k s1) as [[??]?], (run k' s2) as [[??]?]. simpl in *. by simplify_eq.
Qed.

(** The same, for a segment whose result is known. *)
Lemma sim_run_inv {A B} (Φ : A → B → Prop) (t : proc St Eff Req A) (u : proc St Eff Req B)
    s1 s2 s evs o :
  Q s1 s2 → sim Q R Φ s1 s2 t u → run t s1 = (s, evs, o) →
  ∃ s' o', run u s2 = (s', evs, o') ∧ Q s s' ∧ outcome_sim Q R Φ o o'.
Proof.
  intros Hs Hsim Hrun. destruct (sim_run Φ t u s1 s2 Hs Hsim) as (Hs' & Hevs & Ho).
  rewrite Hrun in Hs', Hevs, Ho. destruct (run u s2) as [[s' evs'] o']. simpl in *.
  subst. by exists s', o'.
Qed.

Lemma sim_resume_inv {A B} (Φ : A → B → Prop) (k : value → proc St Eff Req A)
    (k' : value → proc St Eff Req B) a s1 s2 s evs o :
  Q s1 s2 → (∀ v, sim Q R Φ s1 s2 (k v) (k' v)) → resume k a s1 = (s, evs, o) →
  ∃ s' o', resume k' a s2 = (s', evs, o') ∧ Q s s' ∧ outcome_sim Q R Φ o o'.
Proof.
  intros Hs Hk. destruct a as [e|v]; simpl; [|by apply sim_run_inv].
  intros [= <- <- <-]. by exists s2, (Rejected e).
Qed.

(** The rule of sequence: the second computations are related from every
    pair of states in which the first can end. *)
Lemma sim_bind {A B A' B'} (Φ : A → B → Prop) (Ψ : A' → B' → Prop)
    (t : proc St Eff Req A) (u : proc St Eff Req B) f g s1 s2 :
  (∀ s1 s2, R s1 s2 → Q s1 s2) → Q s1 s2 → sim Q R Φ s1 s2 t u →
  (∀ a b s1 s2, Φ a b → Q s1 s2 → sim Q R Ψ s1 s2 (f a) (g b)) →
  sim Q R Ψ s1 s2 (t ≫= f) (u ≫= g).
Proof.
  intros HR Hs Hsim Hf. induction Hsim; simpl; eauto using sim.
Qed.

(** Two related methods that are called and not awaited leave related
    promises. *)
Lemma sim_spawn {A B} (Φ : A → B → Prop) (t : proc St Eff Req A) (u : proc St Eff Req B)
    s1 s2 :
  sim Q R Φ s1 s2 t u → sim Q R (promised Q R Φ) s1 s2 (spawn t) (spawn u).
Proof. induction 1; simpl; try (by constructor); constructor; intros ??; by constructor. Qed.

Lemma sim_mono {A B} (Φ Ψ : A → B → Prop) (t : proc St Eff Req A) (u : proc St Eff Req B)
    s1 s2 :
  (∀ a b, Φ a b → Ψ a b) → sim Q R Φ s1 s2 t u → sim Q R Ψ s1 s2 t u.
Proof. intros HΦ. induction 1; eauto using sim. Qed.

End sim.

(** Computations that agree run alike: the segment ends in the same state,
    with the same events, and what is left agrees. *)
Lemma agree_run {St Eff Req A} (P : St → Prop) (t u : proc St Eff Req A) s :
  agree P s t u →
  (run t s).1 = (run u s).1 ∧ outcome_agree P (run t s).2 (run u s).2.
Proof.
  intros (Hs & Hevs & Ho)%(sim_run eq (resumed_in P) eq t u s s eq_refl). split; [|done].
  destruct (run t s) as [[??]?], (run u s) as [[??]?]. simpl in *. by subst.
Qed.

#[export] Hint Resolve awaits_spawn returns_spawn returns_True : remix.

(** ** Tactics *)

(** [eval_run] evaluates a run of a computation, using the equations of the
    context on the tests and matches that block the evaluation. *)
Ltac eval_run :=
  simpl;
  repeat match goal with
  | H : ?x = _ |- context [if ?x then _ else _] => rewrite H; simpl
  | H : ?x = _ |- context [match ?x with _ => _ end] => rewrite H; simpl
  end.

(** [agree_tac] proves that two computations that are written out agree, by
    cases on every test of either. *)
Ltac agree_tac :=
  unfold agree;
  repeat first
    [ apply sim_get_l | apply sim_get_r
    | progress (simpl; intros)
    | match goal with H : resumed_in _ _ _ |- _ => destruct H as [<- H] end
    | match goal with H : ?x = _ |- context [?x] => rewrite H end
    | case_match
    | constructor ].
