(* ===== verification/Plugin.v ===== *)
(** * The class [RemixAIPlugin]

    The model of [src/apps/remix-ide/src/app/plugins/remixAIPlugin.tsx]: the
    fields of the class as the record [RemixAIPlugin], the outbound calls as
    the types [effect] and [request], the constant [profile], and the names
    of the methods that the class declares.  The methods themselves are
    computations of [Proc.proc] over this state; each is defined in the file
    of its component: the six inference operations in [Gate], activation and
    initialisation in [Lifecycle], the pending request and the dynamic call
    [this[fn_name](...)] in [Slot]. *)

From Stdlib Require Import Ascii.
From S2P Require Import Prelude JsValue Proc.

(** ** State *)

(** [new RemoteInferencer(apiUrl, completionUrl)]: the object is known by
    the two arguments of its constructor. *)
Record RemoteInferencer : Type := {
  api_url : value;
  completion_url : value
}.

(** The staged request: [chatRequestBufferT<any>]. *)
Record chatRequestBufferT : Type := {
  fn_name : value;
  prompt : value;
  context : value
}.

(** The mutable fields of the class.  [remixDesktopPluginName] is a
    constant, and [agent] is assigned once by the constructor. *)
Record RemixAIPlugin : Type := {
  isOnDesktop : bool;
  aiIsActivated : bool;
  remoteInferencer : option RemoteInferencer;
  isInferencing : bool;
  chatRequestBuffer : option chatRequestBufferT
}.

#[export] Instance RemoteInferencer_eq_dec : EqDecision RemoteInferencer.
Proof. solve_decision. Defined.
#[export] Instance chatRequestBufferT_eq_dec : EqDecision chatRequestBufferT.
Proof. solve_decision. Defined.
#[export] Instance RemixAIPlugin_eq_dec : EqDecision RemixAIPlugin.
Proof. solve_decision. Defined.

Definition remixDesktopPluginName : string := "remixAID".

Definition set_aiIsActivated (b : bool) (s : RemixAIPlugin) : RemixAIPlugin :=
  {| isOnDesktop := isOnDesktop s; aiIsActivated := b;
     remoteInferencer := remoteInferencer s; isInferencing := isInferencing s;
     chatRequestBuffer := chatRequestBuffer s |}.

Definition set_remoteInferencer (r : option RemoteInferencer) (s : RemixAIPlugin) :
    RemixAIPlugin :=
  {| isOnDesktop := isOnDesktop s; aiIsActivated := aiIsActivated s;
     remoteInferencer := r; isInferencing := isInferencing s;
     chatRequestBuffer := chatRequestBuffer s |}.

Definition set_isInferencing (b : bool) (s : RemixAIPlugin) : RemixAIPlugin :=
  {| isOnDesktop := isOnDesktop s; aiIsActivated := aiIsActivated s;
     remoteInferencer := remoteInferencer s; isInferencing := b;
     chatRequestBuffer := chatRequestBuffer s |}.

Definition set_chatRequestBuffer (b : option chatRequestBufferT) (s : RemixAIPlugin) :
    RemixAIPlugin :=
  {| isOnDesktop := isOnDesktop s; aiIsActivated := aiIsActivated s;
     remoteInferencer := remoteInferencer s; isInferencing := isInferencing s;
     chatRequestBuffer := b |}.

(** The constructor: the field initialisers, then [isOnDesktop]. *)
Definition new_RemixAIPlugin (inDesktop : bool) : RemixAIPlugin :=
  {| isOnDesktop := inDesktop; aiIsActivated := false; remoteInferencer := None;
     isInferencing := false; chatRequestBuffer := None |}.

(** ** The profile *)

Record Profile : Type := {
  name : string;
  displayName : string;
  methods : list string;
  events : list string;
  icon : string;
  description : string;
  kind : string;
  location : string;
  documentation : string;
  version : string;
  maintainedBy : string
}.

(** What the plugin reads of [package.json], a file of the repository that
    is not a source: a parameter of the development. *)
Class PackageJson : Type := { package_version : string }.

(** A [package.json] for concrete runs; the theorems hold for every
    instance. *)
Definition package_json : PackageJson := {| package_version := "0.0.0" |}.

(** The constant [profile]. *)
Definition profile `{PackageJson} : Profile := {|
  name := "remixAI";
  displayName := "Remix AI";
  methods := ["code_generation"; "code_completion";
    "solidity_answer"; "code_explaining";
    "code_insertion"; "error_explaining";
    "initialize"; "chatPipe"; "ProcessChatRequestBuffer"; "isChatRequestPending"];
  events := [];
  icon := "assets/img/remix-logo-blue.png";
  description := "RemixAI provides AI services to Remix IDE.";
  kind := "";
  location := "sidePanel";
  documentation := "https://remix-ide.readthedocs.io/en/latest/remixai.html";
  version := package_version;
  maintainedBy := "Remix"
|}.

(** ** Outbound calls *)

(** Who emits the events the plugin listens to: the desktop plugin (through
    [this.on(this.remixDesktopPluginName, ...)]) or the remote inferencer
    (through [this.remoteInferencer.event.on(...)]). *)
Inductive emitter : Type := Desktop | Remote.

(** The calls whose result the plugin does not wait for. *)
Inductive effect : Type :=
| ConsoleLog (msg : string)
    (* console.log(msg) *)
| TerminalLog (type : string) (v : value)
    (* this.call('terminal', 'log', { type: type, value: v }) *)
| PinView
    (* this.call('sidePanel', 'pinView', profile) *)
| ComposerSend (msg : value)
    (* ChatApi.composer.send(msg) *)
| Listen (src : emitter) (ev : string)
    (* this.on(remixDesktopPluginName, ev, cb) or remoteInferencer.event.on(ev, cb) *)
| CallSelf (method : string) (args : list value).
    (* this.call("remixAI", method, ...args) *)

(** The calls the plugin awaits. *)
Inductive request : Type :=
| DesktopCall (method : string) (args : list value)
    (* this.call(this.remixDesktopPluginName, method, ...args) *)
| RemoteCall (inf : RemoteInferencer) (method : string) (args : list value)
    (* this.remoteInferencer.method(...args) *)
| ChatCommand (prompt : value).
    (* this.agent.chatCommand(prompt) *)

#[export] Instance emitter_eq_dec : EqDecision emitter.
Proof. solve_decision. Defined.
#[export] Instance effect_eq_dec : EqDecision effect.
Proof. solve_decision. Defined.
#[export] Instance request_eq_dec : EqDecision request.
Proof. solve_decision. Defined.
#[export] Instance event_eq_dec : EqDecision (event effect request).
Proof. solve_decision. Defined.

(** The computations of the plugin. *)
Abbreviation M := (proc RemixAIPlugin effect request).
Abbreviation trace := (list (event effect request)).

(** [await this.call(this.remixDesktopPluginName, method, ...args)]. *)
Definition desktop (method : string) (args : list value) : M value :=
  await (DesktopCall method args).

(** [await this.remoteInferencer.method(...args)]: reading a member of the
    field throws while it is [null]. *)
Definition remote (method : string) (args : list value) : M value :=
  s ← get;
  match remoteInferencer s with
  | Some inf => await (RemoteCall inf method args)
  | None => throw TypeError
  end.

(** ** Method names *)

(** The methods that the class declares. *)
Inductive method : Type :=
| m_onActivation
| m_setRemixAIOnSidePannel
| m_initialize
| m_code_generation
| m_code_completion
| m_solidity_answer
| m_code_explaining
| m_error_explaining
| m_code_insertion
| m_chatPipe
| m_ProcessChatRequestBuffer
| m_isChatRequestPending
| m_render.

#[export] Instance method_eq_dec : EqDecision method.
Proof. solve_decision. Defined.

Definition all_methods : list method :=
  [m_onActivation; m_setRemixAIOnSidePannel; m_initialize; m_code_generation;
   m_code_completion; m_solidity_answer; m_code_explaining; m_error_explaining;
   m_code_insertion; m_chatPipe; m_ProcessChatRequestBuffer; m_isChatRequestPending;
   m_render].

Definition method_name (m : method) : string :=
  match m with
  | m_onActivation => "onActivation"
  | m_setRemixAIOnSidePannel => "setRemixAIOnSidePannel"
  | m_initialize => "initialize"
  | m_code_generation => "code_generation"
  | m_code_completion => "code_completion"
  | m_solidity_answer => "solidity_answer"
  | m_code_explaining => "code_explaining"
  | m_error_explaining => "error_explaining"
  | m_code_insertion => "code_insertion"
  | m_chatPipe => "chatPipe"
  | m_ProcessChatRequestBuffer => "ProcessChatRequestBuffer"
  | m_isChatRequestPending => "isChatRequestPending"
  | m_render => "render"
  end.

(** The methods declared [async]: a call of one of them returns a promise. *)
Definition is_async (m : method) : bool :=
  match m with
  | m_initialize | m_code_generation | m_code_completion | m_solidity_answer
  | m_code_explaining | m_error_explaining | m_code_insertion
  | m_ProcessChatRequestBuffer => true
  | _ => false
  end.

(** The methods whose first statement tests [this.isInferencing]. *)
Definition is_guarded (m : method) : bool :=
  match m with
  | m_code_generation | m_solidity_answer | m_code_explaining | m_error_explaining => true
  | _ => false
  end.

(** [this[s]] for a string [s]: the method of that name, if the class
    declares one. *)
Definition method_of_string (s : string) : option method :=
  list_find (λ m, method_name m = s) all_methods ≫= λ im, Some im.2.

(** [this[v]]: the key [v] is converted to a property name, and the member
    of that name is looked up. *)
Definition method_of_value (v : value) : option method :=
  method_of_string (to_property_key v).

(** ** Names *)

Lemma method_of_string_name m : method_of_string (method_name m) = Some m.
Proof. by destruct m. Qed.

Lemma method_of_string_Some s m : method_of_string s = Some m → method_name m = s.
Proof.
  unfold method_of_string.
  destruct (list_find _ _) as [[i m']|] eqn:Hfind; [|done].
  intros [= <-]. by apply list_find_Some in Hfind as (_ & ? & _).
Qed.

Lemma method_name_inj : Inj (=) (=) method_name.
Proof.
  intros m m' Heq. apply (inj Some).
  by rewrite <-(method_of_string_name m), Heq, method_of_string_name.
Qed.

Lemma method_name_head m c s :
  method_name m = String c s → is_digit c = false ∧ c ≠ "-"%char.
Proof. by destruct m; intros [= <- <-]. Qed.

Lemma method_name_not_word m :
  method_name m ∉ ["undefined"; "null"; "true"; "false"; "[object Object]"].
Proof. destruct m; solve_by_compute. Qed.

(** Only the string that is the name of a method selects it: the key of a
    number, of a boolean, of [null], of [undefined] or of an object is the
    name of no method. *)
Lemma method_of_value_Some v m : method_of_value v = Some m ↔ v = Str (method_name m).
Proof.
  split; [|intros ->; apply method_of_string_name].
  unfold method_of_value. intros Hm%method_of_string_Some.
  destruct (decide (v = Str (to_property_key v))) as [Hv|Hv]; [by rewrite Hv, Hm|].
  destruct (to_property_key_not_string v) as [Hw|(c & s & Hk & Hc)];
    [by intros s ->|..].
  - rewrite <-Hm in Hw. by apply method_name_not_word in Hw.
  - rewrite <-Hm in Hk. apply method_name_head in Hk as [??]. destruct Hc; congruence.
Qed.

Lemma method_of_value_not_string (v : value) :
  (∀ s, v ≠ Str s) → method_of_value v = None.
Proof.
  intros Hv. destruct (method_of_value v) as [m|] eqn:Hm; [|done].
  apply method_of_value_Some in Hm. by destruct (Hv _ Hm).
Qed.

Lemma all_methods_complete m : m ∈ all_methods.
Proof. destruct m; solve_by_compute. Qed.

Lemma all_methods_NoDup : NoDup all_methods.
Proof. solve_by_compute. Qed.

(** ** The profile *)

(** The profile exposes methods that exist.  Every name of
    [profile.methods] is the name of a method that the class declares, no name
    is listed twice, and the methods that the class declares and the profile
    does not expose are the three that the engine and the class itself call:
    [onActivation], [setRemixAIOnSidePannel] and [render]. *)
Theorem profile_methods_declared `{PackageJson} :
  Forall (λ n, is_Some (method_of_string n)) (methods profile) ∧
  NoDup (methods profile) ∧
  filter (λ m, method_name m ∉ methods profile) all_methods =
    [m_onActivation; m_setRemixAIOnSidePannel; m_render].
Proof. split_and!; [solve_by_compute|solve_by_compute|by vm_compute]. Qed.
