(* ===== verification/Gate.v ===== *)
(** * The busy gate and the forwarding of requests

    The six inference operations of [RemixAIPlugin], each written after its
    method in the source, and the theorems on them.  Four of them test
    [this.isInferencing] before anything else ([guarded]); two forward their
    request whatever the flag.  The theorems state what a call does in each
    case: the warning and nothing else while the flag is set; otherwise one
    request to the backend that the mode flag selects, with the arguments
    that the source passes, the answer relayed to the caller and, for the
    methods that take [params], echoed to the terminal when
    [params.terminal_output] is set.

    The file also states the two places in which the gate does not protect
    the backend: the second segment of [solidity_answer], and the unguarded
    methods; that a failure of the backend reaches the caller as it is; and
    that the first segment of an operation neither reads nor writes the
    pending request. *)

From S2P Require Import Prelude JsValue Proc Plugin.

(** ** The operations *)

Section operations.
Context `{RemixAICore}.

(** The statement that opens every guarded method:
    [this.call('terminal', 'log', { type: 'aitypewriterwarning', value: "RemixAI is already busy!" })]. *)
Definition busy_warning : M unit :=
  emit (TerminalLog "aitypewriterwarning" (Str "RemixAI is already busy!")).

(** [if (result && params.terminal_output) this.call('terminal', 'log', ...)]. *)
Definition echo (result params : value) : M unit :=
  if truthy result then
    t ← lift (member params terminal_output);
    if truthy t then emit (TerminalLog "aitypewriterwarning" result) else mret tt
  else mret tt.

Definition code_generation (prompt : value) : M value :=
  s ← get;
  if isInferencing s then busy_warning;; mret (Prim Undefined)
  else if isOnDesktop s then desktop "code_generation" [prompt]
  else remote "code_generation" [prompt].

Definition code_completion (prompt : value) : M value :=
  s ← get;
  if isOnDesktop s then desktop "code_completion" [prompt]
  else remote "code_completion" [prompt].

Definition solidity_answer (prompt params : value) : M value :=
  let params := default_param GenerationParams params in
  s ← get;
  if isInferencing s then busy_warning;; mret (Prim Undefined)
  else
    newPrompt ← await (ChatCommand prompt);
    s' ← get;
    result ← (if isOnDesktop s' then desktop "solidity_answer" [newPrompt]
              else remote "solidity_answer" [newPrompt]);
    echo result params;;
    mret result.

Definition code_explaining (prompt context params : value) : M value :=
  let params := default_param GenerationParams params in
  s ← get;
  if isInferencing s then busy_warning;; mret (Prim Undefined)
  else
    result ← (if isOnDesktop s then desktop "code_explaining" [prompt; context; params]
              else remote "code_explaining" [prompt; context; params]);
    echo result params;;
    mret result.

Definition error_explaining (prompt context params : value) : M value :=
  let context := default_param (Str "") context in
  let params := default_param GenerationParams params in
  s ← get;
  if isInferencing s then busy_warning;; mret (Prim Undefined)
  else
    result ← (if isOnDesktop s then desktop "error_explaining" [prompt]
              else remote "error_explaining" [prompt; params]);
    echo result params;;
    mret result.

Definition code_insertion (msg_pfx msg_sfx : value) : M value :=
  s ← get;
  if isOnDesktop s then desktop "code_insertion" [msg_pfx; msg_sfx]
  else remote "code_insertion" [msg_pfx; msg_sfx].

End operations.

(** The six operations that the plugin forwards to a backend, and the
    method of the class behind each. *)
Inductive operation : Type :=
| op_code_generation
| op_code_completion
| op_solidity_answer
| op_code_explaining
| op_error_explaining
| op_code_insertion.

#[export] Instance operation_eq_dec : EqDecision operation.
Proof. solve_decision. Defined.

Definition operation_method (op : operation) : method :=
  match op with
  | op_code_generation => m_code_generation
  | op_code_completion => m_code_completion
  | op_solidity_answer => m_solidity_answer
  | op_code_explaining => m_code_explaining
  | op_error_explaining => m_error_explaining
  | op_code_insertion => m_code_insertion
  end.

(** An operation applied to the arguments of a call, a missing argument
    being [undefined]. *)
Definition perform `{RemixAICore} (op : operation) (args : list value) : M value :=
  match op with
  | op_code_generation => code_generation (arg 0 args)
  | op_code_completion => code_completion (arg 0 args)
  | op_solidity_answer => solidity_answer (arg 0 args) (arg 1 args)
  | op_code_explaining => code_explaining (arg 0 args) (arg 1 args) (arg 2 args)
  | op_error_explaining => error_explaining (arg 0 args) (arg 1 args) (arg 2 args)
  | op_code_insertion => code_insertion (arg 0 args) (arg 1 args)
  end.

(** The operations whose first statement tests [this.isInferencing]. *)
Definition guarded (op : operation) : bool := is_guarded (operation_method op).

(** ** Specification vocabulary *)

(** The only entry that a refused call leaves in the terminal. *)
Definition busy_entry : event effect request :=
  Did (TerminalLog "aitypewriterwarning" (Str "RemixAI is already busy!")).

(** The request with which a method [name] reaches the backend in use: the
    desktop plugin when [isOnDesktop], the remote inferencer otherwise, which
    must have been constructed. *)
Definition backend_request (s : RemixAIPlugin) (name : string)
    (desktop_args remote_args : list value) : error + request :=
  if isOnDesktop s then inr (DesktopCall name desktop_args)
  else match remoteInferencer s with
       | Some inf => inr (RemoteCall inf name remote_args)
       | None => inl TypeError
       end.

(** What [if (result && params.terminal_output) ...] adds to the terminal:
    nothing for a falsy result, an error when [params] has no members. *)
Definition echo_entries (result params : value) : error + trace :=
  if truthy result then
    match member params terminal_output with
    | inl e => inl e
    | inr t =>
        inr (if truthy t then [Did (TerminalLog "aitypewriterwarning" result)] else [])
    end
  else inr [].

(** The requests among the events of a trace. *)
Definition is_request (e : event effect request) : bool :=
  match e with
  | Asked _ => true
  | Did _ => false
  end.

(** The requests of a trace that go to a backend, as opposed to the agent. *)
Definition is_backend_request (e : event effect request) : bool :=
  match e with
  | Asked (DesktopCall _ _) | Asked (RemoteCall _ _ _) => true
  | _ => false
  end.

(** The entries of the terminal among the events of a trace. *)
Definition is_echo (e : event effect request) : bool :=
  match e with
  | Did (TerminalLog _ _) => true
  | _ => false
  end.

(** The operations that forward one request and return its answer as it
    is. *)
Definition is_relay (op : operation) : bool :=
  match op with
  | op_code_generation | op_code_completion | op_code_insertion => true
  | _ => false
  end.

(** The arguments that reach the desktop plugin and the remote inferencer
    for a call of [m] with [args]. *)
Definition forwarded_args `{RemixAICore} (op : operation) (args : list value) :
    list value * list value :=
  let params i := default_param GenerationParams (arg i args) in
  match op with
  | op_code_generation | op_code_completion => ([arg 0 args], [arg 0 args])
  | op_code_insertion => ([arg 0 args; arg 1 args], [arg 0 args; arg 1 args])
  | op_code_explaining =>
      ([arg 0 args; arg 1 args; params 2], [arg 0 args; arg 1 args; params 2])
  | op_error_explaining => ([arg 0 args], [arg 0 args; params 2])
  | op_solidity_answer => ([], [])
  end.

(** The name under which the backend knows an operation: the name of its
    method. *)
Definition operation_name (op : operation) : string := method_name (operation_method op).

(** [perform_cases] proves a fact of the first segment of an operation by
    running it on every case of the tests it makes. *)
Ltac perform_cases :=
  cbn [perform];
  unfold code_generation, code_completion, solidity_answer, code_explaining,
    error_explaining, code_insertion, remote, desktop, busy_warning; simpl;
  repeat (case_match; simpl; try done).

Section gate.
Context `{RemixAICore}.
Implicit Types (s : RemixAIPlugin) (op : operation) (args : list value)
  (env : request → error + value).

(** ** Helper lemmas *)

Lemma exec_echo env result params s :
  exec env (echo result params) s =
    match echo_entries result params with
    | inr l => (s, l, inr tt)
    | inl e => (s, [], inl e)
    end.
Proof.
  unfold echo, echo_entries. destruct (truthy result); [|done].
  destruct (member params terminal_output) as [e|t]; simpl; [done|].
  by destruct (truthy t).
Qed.

Lemma exec_desktop env name args s :
  exec env (desktop name args) s =
    (s, [Asked (DesktopCall name args)], env (DesktopCall name args)).
Proof. simpl. by destruct (env _). Qed.

Lemma exec_remote env name args s inf :
  remoteInferencer s = Some inf →
  exec env (remote name args) s =
    (s, [Asked (RemoteCall inf name args)], env (RemoteCall inf name args)).
Proof. intros Hinf. eval_run. by destruct (env _). Qed.

Lemma exec_remote_null env name args s :
  remoteInferencer s = None → exec env (remote name args) s = (s, [], inl TypeError).
Proof. intros Hinf. by eval_run. Qed.

(** The choice of the backend, as every forwarding method writes it. *)
Lemma exec_backend env name dargs rargs s :
  exec env (if isOnDesktop s then desktop name dargs else remote name rargs) s =
    match backend_request s name dargs rargs with
    | inr r => (s, [Asked r], env r)
    | inl e => (s, [], inl e)
    end.
Proof.
  unfold backend_request. destruct (isOnDesktop s); [apply exec_desktop|].
  destruct (remoteInferencer s) eqn:?; eauto using exec_remote, exec_remote_null.
Qed.

(** A request followed by the echo of its answer. *)
Lemma exec_backend_echo env name dargs rargs params s :
  exec env (result ← (if isOnDesktop s then desktop name dargs else remote name rargs);
            echo result params;; mret result) s =
    match backend_request s name dargs rargs with
    | inl e => (s, [], inl e)
    | inr r =>
        match env r with
        | inl e => (s, [Asked r], inl e)
        | inr v =>
            match echo_entries v params with
            | inr l => (s, Asked r :: l, inr v)
            | inl e => (s, [Asked r], inl e)
            end
        end
    end.
Proof.
  rewrite exec_bind, exec_backend.
  destruct (backend_request _ _ _ _) as [e|r]; [done|].
  destruct (env r) as [e|v]; [done|].
  rewrite exec_bind, exec_echo. destruct (echo_entries v params); simpl; [done|].
  by rewrite app_nil_r.
Qed.

(** ** The operations and the slot *)

(** The first segment of an operation neither reads nor writes
    [chatRequestBuffer], and leaves the other fields as they are. *)
Lemma run_perform_frame op args b s :
  run (perform op args) (set_chatRequestBuffer b s) =
    (let '(s1, l1, o1) := run (perform op args) s in (set_chatRequestBuffer b s1, l1, o1)).
Proof. destruct op; perform_cases. Qed.

Lemma run_perform_state op args s : (run (perform op args) s).1.1 = s.
Proof. destruct op; perform_cases. Qed.

(** ** The gate is closed *)

Lemma run_guarded_busy op args s :
  guarded op = true → isInferencing s = true →
  run (perform op args) s = (s, [busy_entry], Fulfilled (Prim Undefined)).
Proof. intros Hm Hbusy. destruct op; try done; by eval_run. Qed.

(** C5: a guarded method called while [isInferencing] is set returns
    [undefined] at once: the state is unchanged, the terminal receives the
    warning exactly once, and no request is issued to either backend or to
    the agent. *)
Theorem guarded_busy op args s :
  guarded op = true → isInferencing s = true →
  run (perform op args) s = (s, [busy_entry], Fulfilled (Prim Undefined)) ∧
  count is_request (run (perform op args) s).1.2 = 0.
Proof. intros Hm Hbusy. by rewrite run_guarded_busy. Qed.

(** ** The gate is open *)

(** The relays. *)
Lemma exec_relay op args s env :
  is_relay op = true → (guarded op = true → isInferencing s = false) →
  exec env (perform op args) s =
    match backend_request s (operation_name op) (forwarded_args op args).1
                          (forwarded_args op args).2 with
    | inr r => (s, [Asked r], env r)
    | inl e => (s, [], inl e)
    end.
Proof.
  intros Hm Hclear. destruct op; try done; simpl; rewrite ?Hclear by done;
    apply exec_backend.
Qed.

(** C12: with the gate open, [code_generation], [code_completion] and
    [code_insertion] issue exactly one request, to the backend that
    [isOnDesktop] selects and with the caller's arguments, leave the state
    unchanged, and settle as the backend does: fulfilled with its answer or
    rejected with its reason.  In the browser, before [initialize] has
    constructed the inferencer, they are rejected with a [TypeError] and issue
    nothing. *)
Theorem relay_forwards op args s env r :
  is_relay op = true → (guarded op = true → isInferencing s = false) →
  backend_request s (operation_name op) (forwarded_args op args).1
                  (forwarded_args op args).2 = inr r →
  exec env (perform op args) s = (s, [Asked r], env r).
Proof. intros Hm Hclear Hr. by rewrite exec_relay, Hr. Qed.

(** The unguarded methods [code_completion] and [code_insertion] do not
    read the busy flag: whatever its value, they issue the same request and
    end in the same way, so the gate does not keep them from starting a call
    while another one is outstanding. *)
Theorem unguarded_ignores_gate op args s env b :
  is_relay op = true → guarded op = false →
  exec env (perform op args) (set_isInferencing b s) =
    (let '(s', l, x) := exec env (perform op args) s in
     (set_isInferencing b s', l, x)).
Proof.
  intros Hm Hg. rewrite !exec_relay by (done || by rewrite Hg).
  unfold backend_request; simpl.
  by destruct (isOnDesktop s), (remoteInferencer s).
Qed.

(** The methods that echo their result. *)
Lemma exec_explaining op args s env :
  op = op_code_explaining ∨ op = op_error_explaining → isInferencing s = false →
  exec env (perform op args) s =
    match backend_request s (operation_name op) (forwarded_args op args).1
                          (forwarded_args op args).2 with
    | inl e => (s, [], inl e)
    | inr r =>
        match env r with
        | inl e => (s, [Asked r], inl e)
        | inr v =>
            match echo_entries v (default_param GenerationParams (arg 2 args)) with
            | inr l => (s, Asked r :: l, inr v)
            | inl e => (s, [Asked r], inl e)
            end
        end
    end.
Proof.
  intros [-> | ->] Hclear; simpl; rewrite Hclear; apply exec_backend_echo.
Qed.

(** C31: with the gate open, [code_explaining] and [error_explaining] issue
    one request and, when the backend answers [v], return [v]; the terminal
    receives [v] exactly when [v] is truthy and [params.terminal_output] is
    truthy, [params] being [GenerationParams] unless the caller passes
    one. *)
Theorem explaining_echoes op args s env r v t :
  op = op_code_explaining ∨ op = op_error_explaining → isInferencing s = false →
  backend_request s (operation_name op) (forwarded_args op args).1
                  (forwarded_args op args).2 = inr r →
  env r = inr v →
  member (default_param GenerationParams (arg 2 args)) terminal_output = inr t →
  exec env (perform op args) s =
    (s, Asked r :: (if truthy v && truthy t
                    then [Did (TerminalLog "aitypewriterwarning" v)] else []),
     inr v).
Proof.
  intros Hm Hclear Hr Hv Ht. rewrite exec_explaining, Hr, Hv by done.
  unfold echo_entries. rewrite Ht. by destruct (truthy v), (truthy t).
Qed.

(** C24: a failure of the backend reaches the caller as it is.  With the
    gate open and a backend that rejects every request with [e], each of the
    six operations is rejected, leaves the state as it is and writes nothing
    to the terminal; the reason is [e], unless the call failed before it
    reached the backend: in the browser without an inferencer, or, for
    [solidity_answer], because the agent rejected the prompt. *)
Theorem backend_failure_propagates op args s env e :
  (∀ r, is_backend_request (Asked r) = true → env r = inl e) →
  (guarded op = true → isInferencing s = false) →
  ∃ l e', exec env (perform op args) s = (s, l, inl e') ∧ count is_echo l = 0 ∧
    length l ≤ 2 ∧
    (e' = e ∨ (e' = TypeError ∧ isOnDesktop s = false ∧ remoteInferencer s = None) ∨
     (op = op_solidity_answer ∧ env (ChatCommand (arg 0 args)) = inl e')).
Proof.
  intros Henv Hclear.
  assert (∀ name dargs, env (DesktopCall name dargs) = inl e) as Hd by (intros; by apply Henv).
  assert (∀ inf name rargs, env (RemoteCall inf name rargs) = inl e) as Hr
    by (intros; by apply Henv).
  destruct op; simpl; rewrite ?Hclear by done;
    destruct (isOnDesktop s) eqn:Hdesk, (remoteInferencer s) eqn:Hinf; simpl;
    rewrite ?Hdesk, ?Hinf, ?Hd, ?Hr; simpl;
    try destruct (env (ChatCommand _)) as [e1|v1] eqn:Hagent;
    repeat (progress (simpl; rewrite ?Hdesk, ?Hinf, ?Hd, ?Hr));
    eexists _, _; (split; [reflexivity|]); split_and!; try done; eauto 6; simpl; lia.
Qed.

(** [solidity_answer], request by request: the agent, then the backend, then
    the echo. *)
Lemma exec_solidity_answer args s env :
  isInferencing s = false →
  exec env (perform op_solidity_answer args) s =
    match env (ChatCommand (arg 0 args)) with
    | inl e => (s, [Asked (ChatCommand (arg 0 args))], inl e)
    | inr newPrompt =>
        match backend_request s "solidity_answer" [newPrompt] [newPrompt] with
        | inl e => (s, [Asked (ChatCommand (arg 0 args))], inl e)
        | inr r =>
            match env r with
            | inl e => (s, [Asked (ChatCommand (arg 0 args)); Asked r], inl e)
            | inr v =>
                match echo_entries v (default_param GenerationParams (arg 1 args)) with
                | inr l => (s, Asked (ChatCommand (arg 0 args)) :: Asked r :: l, inr v)
                | inl e => (s, [Asked (ChatCommand (arg 0 args)); Asked r], inl e)
                end
            end
        end
    end.
Proof.
  intros Hclear. simpl. rewrite Hclear. simpl.
  destruct (env (ChatCommand _)) as [e|newPrompt]; [done|].
  rewrite (exec_backend_echo env "solidity_answer" [newPrompt] [newPrompt]).
  destruct (backend_request _ _ _ _) as [e|r]; [done|].
  destruct (env r) as [e|v]; [done|]. by destruct (echo_entries _ _).
Qed.

(** [error_explaining] does not forward its [context], and the two backends
    do not receive the same arguments: the desktop plugin is not given
    [params]. *)
Lemma error_explaining_context_unused prompt context context' params :
  error_explaining prompt context params = error_explaining prompt context' params.
Proof. done. Qed.

(** [solidity_answer] tests the gate in its first segment only.  With
    the gate open it asks the agent to rewrite the prompt and is suspended;
    when the agent answers, the request goes to the backend whether or not
    [isInferencing] has been set in the meantime. *)
Theorem solidity_answer_gate_not_rechecked prompt params s :
  isInferencing s = false →
  ∃ k, run (solidity_answer prompt params) s =
         (s, [Asked (ChatCommand prompt)], Pending (ChatCommand prompt) k) ∧
       ∀ newPrompt s', isOnDesktop s' = true →
         ∃ k', run (k newPrompt) s' =
           (s', [Asked (DesktopCall "solidity_answer" [newPrompt])],
            Pending (DesktopCall "solidity_answer" [newPrompt]) k').
Proof.
  intros Hclear. eexists. split; [by eval_run|].
  intros newPrompt s' Hdesktop. eexists. by eval_run.
Qed.

(** C23: with the gate open, [solidity_answer] asks the agent to rewrite the
    prompt and sends the agent's answer, not the caller's prompt, to the
    backend that [isOnDesktop] selects.  It returns the backend's answer [v],
    and the terminal receives [v] when [v] and [params.terminal_output] are
    truthy, [params] being [GenerationParams] unless the caller passes one.
    When [params] has no members, which is the case of [null], a truthy [v]
    is lost: the call is rejected with a [TypeError] after both requests were
    answered. *)
Theorem solidity_answer_rewrites_prompt args s env newPrompt r v :
  isInferencing s = false →
  env (ChatCommand (arg 0 args)) = inr newPrompt →
  backend_request s "solidity_answer" [newPrompt] [newPrompt] = inr r →
  env r = inr v →
  exec env (perform op_solidity_answer args) s =
    (s,
     Asked (ChatCommand (arg 0 args)) :: Asked r ::
       match member (default_param GenerationParams (arg 1 args)) terminal_output with
       | inr t => if truthy v && truthy t
                  then [Did (TerminalLog "aitypewriterwarning" v)] else []
       | inl _ => []
       end,
     match member (default_param GenerationParams (arg 1 args)) terminal_output with
     | inl e => if truthy v then inl e else inr v
     | inr _ => inr v
     end).
Proof.
  intros Hclear Ha Hr Hv. rewrite exec_solidity_answer, Ha, Hr, Hv by done.
  unfold echo_entries. by destruct (truthy v), (member _ _) as [e|t]; try destruct (truthy t).
Qed.

End gate.

(** ** Witnesses

    The theorems above, applied to concrete calls, with the constants of
    [JsValue.remix_ai_core]. *)

#[local] Existing Instance remix_ai_core.

Lemma guarded_busy_witness :
  run (perform op_code_explaining [Prim (Str "contract C {}")])
      (set_isInferencing true (new_RemixAIPlugin false))
  = (set_isInferencing true (new_RemixAIPlugin false), [busy_entry],
     Fulfilled (Prim Undefined)) ∧
  count is_request
    (run (perform op_code_explaining [Prim (Str "contract C {}")])
         (set_isInferencing true (new_RemixAIPlugin false))).1.2 = 0.
Proof. by apply guarded_busy. Defined.

Lemma relay_forwards_witness :
  exec (λ _, inr (Prim (Str "answer")))
       (perform op_code_generation [Prim (Str "prompt")]) (new_RemixAIPlugin true)
  = (new_RemixAIPlugin true,
     [Asked (DesktopCall "code_generation" [Prim (Str "prompt")])],
     inr (Prim (Str "answer"))).
Proof. by apply relay_forwards. Defined.

Lemma unguarded_ignores_gate_witness :
  exec (λ _, inr (Prim Null)) (perform op_code_completion [])
       (set_isInferencing true (new_RemixAIPlugin true)) =
  (let '(s', l, x) :=
     exec (λ _, inr (Prim Null)) (perform op_code_completion []) (new_RemixAIPlugin true) in
   (set_isInferencing true s', l, x)).
Proof. by apply unguarded_ignores_gate. Defined.

Lemma solidity_answer_gate_not_rechecked_witness :
  ∃ k, run (solidity_answer (Str "q") Undefined) (new_RemixAIPlugin true) =
         (new_RemixAIPlugin true, [Asked (ChatCommand (Str "q"))],
          Pending (ChatCommand (Str "q")) k) ∧
       ∀ newPrompt s', isOnDesktop s' = true →
         ∃ k', run (k newPrompt) s' =
           (s', [Asked (DesktopCall "solidity_answer" [newPrompt])],
            Pending (DesktopCall "solidity_answer" [newPrompt]) k').
Proof. by apply solidity_answer_gate_not_rechecked. Defined.

Lemma backend_failure_propagates_witness :
  let env r := match r with
               | ChatCommand p => inr p
               | _ => inl (Rejection (Str "offline"))
               end in
  ∃ l e', exec env (perform op_solidity_answer [Prim (Str "What is a mapping?")])
               (new_RemixAIPlugin true) = (new_RemixAIPlugin true, l, inl e') ∧
    count is_echo l = 0 ∧ length l ≤ 2 ∧
    (e' = Rejection (Str "offline") ∨
     (e' = TypeError ∧ isOnDesktop (new_RemixAIPlugin true) = false ∧
      remoteInferencer (new_RemixAIPlugin true) = None) ∨
     (op_solidity_answer = op_solidity_answer ∧
      env (ChatCommand (arg 0 [Prim (Str "What is a mapping?")])) = inl e')).
Proof. intros env. apply backend_failure_propagates; [by intros []|done]. Defined.

(** The agent rewrites the question, the desktop plugin answers the rewritten
    one, and [null] for [params] turns the answer into a [TypeError]. *)
Lemma solidity_answer_rewrites_prompt_witness :
  let env r := match r with
               | ChatCommand _ => inr (Prim (Str "Explain mappings."))
               | _ => inr (Prim (Str "A mapping is a hash table."))
               end in
  exec env (perform op_solidity_answer [Prim (Str "What is a mapping?"); Prim Null])
       (new_RemixAIPlugin true) =
    (new_RemixAIPlugin true,
     [Asked (ChatCommand (Str "What is a mapping?"));
      Asked (DesktopCall "solidity_answer" [Prim (Str "Explain mappings.")])],
     inl TypeError).
Proof.
  intros env.
  by apply (solidity_answer_rewrites_prompt
              [Prim (Str "What is a mapping?"); Prim Null] (new_RemixAIPlugin true) env
              (Str "Explain mappings.")
              (DesktopCall "solidity_answer" [Prim (Str "Explain mappings.")])
              (Str "A mapping is a hash table.")).
Defined.

Lemma explaining_echoes_witness :
  exec (λ _, inr (Prim (Str "This contract stores a number.")))
       (perform op_code_explaining
          [Prim (Str "contract C {}"); Prim (Str ""); Obj [("terminal_output", Bool true)]])
       (new_RemixAIPlugin true) =
    (new_RemixAIPlugin true,
     Asked (DesktopCall "code_explaining"
              [Prim (Str "contract C {}"); Prim (Str "");
               Obj [("terminal_output", Bool true)]])
       :: (if truthy (Str "This contract stores a number.") && truthy (Bool true)
           then [Did (TerminalLog "aitypewriterwarning"
                        (Str "This contract stores a number."))]
           else []),
     inr (Prim (Str "This contract stores a number."))).
Proof. apply explaining_echoes; by eauto. Defined.
