(* ===== verification/Lifecycle.v ===== *)
(** * Construction, activation and initialisation

    What [new RemixAIPlugin], [onActivation], [initialize] and
    [setRemixAIOnSidePannel] do, in the browser and on the desktop, and what
    the callbacks do that they register.  The theorems state the whole effect
    of each method: the fields it writes, the events it emits in order, the
    request it awaits and how it ends. *)

From S2P Require Import Prelude JsValue Proc Plugin.

(** ** The methods *)

Section methods.
Context `{RemixAICore}.

Definition setRemixAIOnSidePannel (resize : value) : M value :=
  let resize := default_param (Bool false) resize in
  (if truthy resize then emit PinView else emit PinView);;
  mret (Prim Undefined).

Definition initialize (model1 model2 remoteModel useRemote : value) : M value :=
  s ← get;
  (if isOnDesktop s then
     emit (ConsoleLog "initialize on desktop");;
     res ← desktop "initializeModelBackend" [useRemote; model1; model2];
     if truthy res then
       emit (Listen Desktop "onStreamResult");;
       emit (Listen Desktop "onInference");;
       emit (Listen Desktop "onInferenceDone")
     else mret tt
   else
     modify (set_remoteInferencer (Some
       {| api_url := opt_member remoteModel apiUrl;
          completion_url := opt_member remoteModel completionUrl |}));;
     emit (Listen Remote "onInference");;
     emit (Listen Remote "onInferenceDone"));;
  modify (set_aiIsActivated true);;
  mret (Prim (Bool true)).

Definition onActivation : M value :=
  s ← get;
  (if isOnDesktop s then
     emit (ConsoleLog "Activating RemixAIPlugin on desktop");;
     emit (Listen Desktop "activated")
   else
     emit (ConsoleLog "Activating RemixAIPlugin on browser");;
     spawn (initialize Undefined Undefined Undefined Undefined);;
     mret tt);;
  setRemixAIOnSidePannel (Bool false).

(** The element [<RemixAITab plugin={this}>], an object that the model does
    not look into. *)
Definition RemixAITab : value := Obj [("type", Str "RemixAITab")].

Definition render : M value := mret RemixAITab.

(** ** Callbacks *)

(** The callback of the desktop plugin's [activated] event. *)
Definition on_activated : M unit :=
  emit (CallSelf "initialize" [Prim Null; Prim Null; Prim Null; Prim (Bool false)]).

Definition onStreamResult (v : value) : M unit := emit (TerminalLog "log" v).

Definition onInference : M unit := modify (set_isInferencing true).

Definition onInferenceDone : M unit := modify (set_isInferencing false).

(** The callback that the plugin registers for an event of an emitter. *)
Definition handler (src : emitter) (ev : string) (payload : value) : option (M unit) :=
  if String.eqb ev "onInference" then Some onInference
  else if String.eqb ev "onInferenceDone" then Some onInferenceDone
  else match src with
       | Desktop =>
           if String.eqb ev "activated" then Some on_activated
           else if String.eqb ev "onStreamResult" then Some (onStreamResult payload)
           else None
       | Remote => None
       end.

End methods.

(** ** Specification vocabulary *)

(** The listeners that a successful [initialize] registers with the desktop
    plugin, in the order of the source. *)
Definition desktop_listeners : trace :=
  [Did (Listen Desktop "onStreamResult"); Did (Listen Desktop "onInference");
   Did (Listen Desktop "onInferenceDone")].

(** The listeners registered on a new remote inferencer. *)
Definition remote_listeners : trace :=
  [Did (Listen Remote "onInference"); Did (Listen Remote "onInferenceDone")].

(** The state in which [initialize] leaves a plugin in the browser. *)
Definition initialized_browser (remoteModel : value) (s : RemixAIPlugin) : RemixAIPlugin :=
  set_aiIsActivated true (set_remoteInferencer
    (Some {| api_url := opt_member remoteModel apiUrl;
             completion_url := opt_member remoteModel completionUrl |}) s).

(** The request of [initialize] on the desktop: [useRemote] comes first. *)
Definition initializeModelBackend (model1 model2 useRemote : value) : request :=
  DesktopCall "initializeModelBackend" [useRemote; model1; model2].

(** The busy flag after a sequence of lifecycle notifications, starting from
    [b]: the last one wins. *)
Definition last_notification (b : bool) (evs : list string) : bool :=
  foldl (λ b ev, if String.eqb ev "onInference" then true
                 else if String.eqb ev "onInferenceDone" then false else b) b evs.

(** The callbacks of a sequence of events of one emitter, run one after the
    other; an event without a callback is skipped. *)
Fixpoint deliver `{RemixAICore} (src : emitter) (evs : list string) : M unit :=
  match evs with
  | [] => mret tt
  | ev :: evs' =>
      match handler src ev Undefined with
      | Some cb => cb;; deliver src evs'
      | None => deliver src evs'
      end
  end.

Section lifecycle.
Context `{RemixAICore}.
Implicit Types (s : RemixAIPlugin) (env : request → error + value).

(** ** Runs of the lifecycle methods *)

Lemma run_setRemixAIOnSidePannel resize s :
  run (setRemixAIOnSidePannel resize) s = (s, [Did PinView], Fulfilled (Prim Undefined)).
Proof. unfold setRemixAIOnSidePannel. by destruct (truthy _). Qed.

Lemma run_initialize_browser model1 model2 remoteModel useRemote s :
  isOnDesktop s = false →
  run (initialize model1 model2 remoteModel useRemote) s =
    (initialized_browser remoteModel s, remote_listeners, Fulfilled (Prim (Bool true))).
Proof. intros Hd. by eval_run. Qed.

Lemma run_onActivation s :
  run onActivation s =
    if isOnDesktop s then
      (s, [Did (ConsoleLog "Activating RemixAIPlugin on desktop");
           Did (Listen Desktop "activated"); Did PinView], Fulfilled (Prim Undefined))
    else
      (initialized_browser Undefined s,
       Did (ConsoleLog "Activating RemixAIPlugin on browser") :: remote_listeners
         ++ [Did PinView], Fulfilled (Prim Undefined)).
Proof. destruct (isOnDesktop s) eqn:Hd; by eval_run. Qed.

Lemma exec_initialize_desktop env model1 model2 remoteModel useRemote s :
  isOnDesktop s = true →
  exec env (initialize model1 model2 remoteModel useRemote) s =
    let r := initializeModelBackend model1 model2 useRemote in
    match env r with
    | inr res =>
        (set_aiIsActivated true s,
         Did (ConsoleLog "initialize on desktop") :: Asked r ::
           (if truthy res then desktop_listeners else []),
         inr (Prim (Bool true)))
    | inl e => (s, [Did (ConsoleLog "initialize on desktop"); Asked r], inl e)
    end.
Proof.
  intros Hd. eval_run. unfold initializeModelBackend.
  destruct (env _) as [e|res]; [done|]. by destruct (truthy res).
Qed.

Lemma run_deliver_snoc src evs ev s :
  (run (deliver src (evs ++ [ev])) s).1.1 =
    (run (deliver src [ev]) (run (deliver src evs) s).1.1).1.1.
Proof.
  revert s. induction evs as [|ev' evs IH]; intros s; [done|].
  cbn [app deliver]. destruct (handler src ev' Undefined) as [cb|] eqn:Hcb; [|apply IH].
  rewrite !run_bind. destruct (run cb s) as [[s1 l1] [[]|e|r k]] eqn:Hrun.
  - specialize (IH s1).
    destruct (run (deliver src (evs ++ [ev])) s1) as [[??]?],
      (run (deliver src evs) s1) as [[??]?]. done.
  - unfold handler in Hcb. repeat case_match; simplify_eq; done.
  - unfold handler in Hcb. repeat case_match; simplify_eq; done.
Qed.

(** ** Theorems *)

(** C36: the whole effect of [onActivation], in whatever state it is called.
    In the browser it initialises the plugin before it returns, although it
    does not await [initialize]: the call has no [await] on its way, so the
    remote inferencer is replaced by one built from [undefined] URLs, the two
    lifecycle callbacks are registered on it and the plugin is activated in
    the segment of the caller; then the view is pinned, and nothing is left
    pending.  On the desktop it registers the callback of [activated] and
    pins the view: no field is written and no backend is asked. *)
Theorem onActivation_spec s :
  run onActivation s =
    if isOnDesktop s then
      (s, [Did (ConsoleLog "Activating RemixAIPlugin on desktop");
           Did (Listen Desktop "activated"); Did PinView], Fulfilled (Prim Undefined))
    else
      (set_aiIsActivated true (set_remoteInferencer
         (Some {| api_url := Undefined; completion_url := Undefined |}) s),
       [Did (ConsoleLog "Activating RemixAIPlugin on browser");
        Did (Listen Remote "onInference"); Did (Listen Remote "onInferenceDone");
        Did PinView], Fulfilled (Prim Undefined)).
Proof. apply run_onActivation. Qed.

(** C34: in the browser [initialize] is synchronous; it replaces the remote
    inferencer by a new one that receives [remoteModel?.apiUrl] and
    [remoteModel?.completionUrl] unmodified (the properties of the object
    when it is one, [undefined] when [remoteModel] is missing), registers the
    two lifecycle listeners on it, and leaves every other field but
    [aiIsActivated] as it was. *)
Theorem initialize_browser_spec model1 model2 remoteModel useRemote s :
  isOnDesktop s = false →
  run (initialize model1 model2 remoteModel useRemote) s =
    ({| isOnDesktop := false; aiIsActivated := true;
        remoteInferencer := Some
          {| api_url := match remoteModel with
                        | Obj o => get_prop o "apiUrl"
                        | _ => Undefined
                        end;
             completion_url := match remoteModel with
                               | Obj o => get_prop o "completionUrl"
                               | _ => Undefined
                               end |};
        isInferencing := isInferencing s;
        chatRequestBuffer := chatRequestBuffer s |},
     [Did (Listen Remote "onInference"); Did (Listen Remote "onInferenceDone")],
     Fulfilled (Prim (Bool true))).
Proof.
  intros Hd. rewrite run_initialize_browser by done.
  unfold initialized_browser, set_aiIsActivated, set_remoteInferencer. simpl.
  rewrite Hd. by destruct remoteModel as [[]|].
Qed.

(** C35: on the desktop [initialize] logs, asks the desktop plugin to
    initialise its model backend with [useRemote, model1, model2] and waits.
    When the answer is truthy it registers the three listeners; when it is
    falsy it registers none, so that [isInferencing] can never be set; in both
    cases it sets [aiIsActivated] and returns [true].  When the request is
    rejected the plugin is not activated. *)
Theorem initialize_desktop_spec env model1 model2 remoteModel useRemote s res :
  isOnDesktop s = true →
  env (initializeModelBackend model1 model2 useRemote) = inr res →
  exec env (initialize model1 model2 remoteModel useRemote) s =
    (set_aiIsActivated true s,
     [Did (ConsoleLog "initialize on desktop");
      Asked (DesktopCall "initializeModelBackend" [useRemote; model1; model2])]
       ++ (if truthy res then desktop_listeners else []),
     inr (Prim (Bool true))).
Proof. intros Hd Hres. rewrite exec_initialize_desktop by done. cbv zeta. by rewrite Hres. Qed.

(** [setRemixAIOnSidePannel] pins the view once and does nothing else,
    whatever its argument: the two branches of its test are the same
    call. *)
Theorem setRemixAIOnSidePannel_resize_irrelevant resize s :
  run (setRemixAIOnSidePannel resize) s = (s, [Did PinView], Fulfilled (Prim Undefined)).
Proof. apply run_setRemixAIOnSidePannel. Qed.

(** A lifecycle callback writes [isInferencing] and nothing else. *)
Lemma run_deliver_one src ev s :
  (run (deliver src [ev]) s).1.1 = set_isInferencing (last_notification (isInferencing s) [ev]) s.
Proof.
  unfold last_notification, handler. simpl. unfold handler.
  destruct s as [???[]?]; repeat case_match; simplify_eq/=; done.
Qed.

(** The busy flag is written by the lifecycle callbacks only, the last
    notification wins, and nothing else is touched: after any sequence of
    events of an emitter, [isInferencing] is [true] exactly when the last
    lifecycle notification of the sequence is [onInference], and it keeps its
    value when there is none. *)
Theorem busy_flag_last_write_wins src evs s :
  (run (deliver src evs) s).1.1 =
    set_isInferencing (last_notification (isInferencing s) evs) s.
Proof.
  revert s. induction evs as [|ev evs IH] using rev_ind; intros s.
  - by destruct s.
  - rewrite run_deliver_snoc, IH, run_deliver_one.
    unfold last_notification. rewrite foldl_app. by destruct s.
Qed.

End lifecycle.

(** ** Witnesses *)

#[local] Existing Instance remix_ai_core.

Lemma initialize_browser_spec_witness :
  run (initialize Undefined Undefined
         (Obj [("apiUrl", Str "https://a"); ("completionUrl", Str "https://c")]) Undefined)
      (new_RemixAIPlugin false) =
    ({| isOnDesktop := false; aiIsActivated := true;
        remoteInferencer := Some
          {| api_url := Str "https://a"; completion_url := Str "https://c" |};
        isInferencing := false; chatRequestBuffer := None |},
     [Did (Listen Remote "onInference"); Did (Listen Remote "onInferenceDone")],
     Fulfilled (Prim (Bool true))).
Proof. by apply initialize_browser_spec. Defined.

Lemma initialize_desktop_spec_witness :
  exec (λ _, inr (Prim (Bool false)))
       (initialize Null Null Null (Bool false)) (new_RemixAIPlugin true) =
    (set_aiIsActivated true (new_RemixAIPlugin true),
     [Did (ConsoleLog "initialize on desktop");
      Asked (DesktopCall "initializeModelBackend" [Prim (Bool false); Prim Null; Prim Null])]
       ++ [],
     inr (Prim (Bool true))).
Proof. by apply (initialize_desktop_spec _ _ _ _ _ _ (Bool false)). Defined.
