(* ===== verification/Slot.v ===== *)
(** * The pending request slot

    [chatPipe] stages a request in [chatRequestBuffer],
    [ProcessChatRequestBuffer] flushes it and [isChatRequestPending] tells
    whether one is staged.  The specification describes the slot as a machine
    with two states, EMPTY and OCCUPIED; [slot_step] is that machine, and the
    main theorem of this file is that the plugin simulates it, as long as the
    staged name is a method of the class.  The file also states what the
    three methods do on each branch, what happens to a staged name that is
    not a method (the slot stays occupied for ever), to a staged
    [ProcessChatRequestBuffer] (the call stack is exhausted), and to a staged
    [solidity_answer] (it receives the stored context as its [params]); and
    that a stage of an operation followed by a flush is the call of that
    operation, after which the plugin is as it was before the stage. *)

From S2P Require Import Prelude JsValue Proc Plugin Gate Lifecycle.

(** ** The methods *)

Section methods.
Context `{RemixAICore}.

(** The diagnostic of [chatPipe], in both of its occurrences. *)
Definition buffer_not_empty : string :=
  "chatRequestBuffer is not empty. First process the last request.".

Definition chatPipe (fn prompt context pipeMessage : value) : M value :=
  s ← get;
  match chatRequestBuffer s with
  | None =>
      modify (set_chatRequestBuffer
        (Some {| fn_name := fn; prompt := prompt; context := context |}));;
      (if truthy pipeMessage then emit (ComposerSend pipeMessage)
       else if strict_eq_str fn "code_explaining" then
         emit (ComposerSend (Str "Explain the current code"))
       else if strict_eq_str fn "error_explaining" then
         emit (ComposerSend (Str "Explain the error"))
       else if strict_eq_str fn "solidity_answer" then
         emit (ComposerSend (Str "Answer the following question"))
       else emit (ConsoleLog buffer_not_empty));;
      mret (Prim Undefined)
  | Some _ =>
      emit (ConsoleLog buffer_not_empty);;
      mret (Prim Undefined)
  end.

(** [call name args] is [this[name](...args)]: the synchronous part of the
    call, returning what the call evaluates to (for an async method, the rest
    of its execution). *)
Definition ProcessChatRequestBuffer (call : value → list value → M (M value))
    (params : value) : M value :=
  let params := default_param GenerationParams params in
  s ← get;
  match chatRequestBuffer s with
  | Some b =>
      result ← call (fn_name b) [prompt b; context b; params];
      modify (set_chatRequestBuffer None);;
      result
  | None =>
      emit (ConsoleLog "chatRequestBuffer is empty.");;
      mret (Prim (Str ""))
  end.

Definition isChatRequestPending : M value :=
  s ← get;
  mret (Prim (Bool (bool_decide (chatRequestBuffer s ≠ None)))).

(** ** Dynamic dispatch *)

(** The body of a method applied to the arguments of a call, a missing
    argument being [undefined]. *)
Definition method_body (call : value → list value → M (M value)) (m : method)
    (args : list value) : M value :=
  match m with
  | m_onActivation => onActivation
  | m_setRemixAIOnSidePannel => setRemixAIOnSidePannel (arg 0 args)
  | m_initialize => initialize (arg 0 args) (arg 1 args) (arg 2 args) (arg 3 args)
  | m_code_generation => code_generation (arg 0 args)
  | m_code_completion => code_completion (arg 0 args)
  | m_solidity_answer => solidity_answer (arg 0 args) (arg 1 args)
  | m_code_explaining => code_explaining (arg 0 args) (arg 1 args) (arg 2 args)
  | m_error_explaining => error_explaining (arg 0 args) (arg 1 args) (arg 2 args)
  | m_code_insertion => code_insertion (arg 0 args) (arg 1 args)
  | m_chatPipe => chatPipe (arg 0 args) (arg 1 args) (arg 2 args) (arg 3 args)
  | m_ProcessChatRequestBuffer => ProcessChatRequestBuffer call (arg 0 args)
  | m_isChatRequestPending => isChatRequestPending
  | m_render => render
  end.

(** The call of a method that is not async: it runs to its end inside the
    caller, and an exception it throws is the caller's. *)
Definition sync_call (t : M value) : M (M value) := v ← t; mret (Ret v).

(** [this[name](...args)] with [depth] free frames on the call stack.  A
    name that is not a method of the class evaluates to something that is not
    callable. *)
Fixpoint call_method (depth : nat) (name : value) (args : list value) : M (M value) :=
  match depth with
  | 0 => throw RangeError
  | S depth' =>
      match method_of_value name with
      | None => throw TypeError
      | Some m =>
          (if is_async m then spawn else sync_call)
            (method_body (call_method depth') m args)
      end
  end.

(** A method called from outside the class, by the plugin engine or by the
    chat view. *)
Definition invoke (depth : nat) (m : method) (args : list value) : M value :=
  method_body (call_method depth) m args.

End methods.

(** ** The machine of the specification *)

(** The calls of the slot's interface. *)
Inductive slot_label : Type :=
| Stage (fn prompt context pipeMessage : value)
| Flush (params : value)
| Query.

(** The descriptor that a [Stage] would store. *)
Definition descriptor (fn prompt context : value) : chatRequestBufferT :=
  {| fn_name := fn; prompt := prompt; context := context |}.

(** EMPTY is [None], OCCUPIED is [Some] of the descriptor.  [Stage] moves
    from EMPTY to OCCUPIED and is a no-op on OCCUPIED; [Flush] moves from
    OCCUPIED to EMPTY and is a no-op on EMPTY; there is no other
    transition. *)
Inductive slot_step : option chatRequestBufferT → slot_label →
    option chatRequestBufferT → Prop :=
| slot_stage fn p c msg :
    slot_step None (Stage fn p c msg) (Some (descriptor fn p c))
| slot_stage_occupied d fn p c msg :
    slot_step (Some d) (Stage fn p c msg) (Some d)
| slot_flush d params :
    slot_step (Some d) (Flush params) None
| slot_flush_empty params :
    slot_step None (Flush params) None
| slot_query sl :
    slot_step sl Query sl.

(** The message that the composer receives when a request is staged: the
    caller's when it is truthy, else the one of the staged name, if it has
    one. *)
Definition notification (fn pipeMessage : value) : option value :=
  if truthy pipeMessage then Some pipeMessage
  else if strict_eq_str fn "code_explaining" then Some (Prim (Str "Explain the current code"))
  else if strict_eq_str fn "error_explaining" then Some (Prim (Str "Explain the error"))
  else if strict_eq_str fn "solidity_answer" then
    Some (Prim (Str "Answer the following question"))
  else None.

(** The staged request of the scenarios of the specification, and the
    desktop plugin that holds it. *)
Definition mapping_question : chatRequestBufferT :=
  descriptor (Str "solidity_answer") (Str "What is a mapping?") Null.

Definition occupied : RemixAIPlugin :=
  set_chatRequestBuffer (Some mapping_question) (new_RemixAIPlugin true).

(** ** The plugin as a slot *)

Section slot.
Context `{RemixAICore}.
Implicit Types (s : RemixAIPlugin) (m : method) (args : list value) (depth : nat)
  (b d : chatRequestBufferT) (sl : option chatRequestBufferT).

(** The method behind each call, with [depth] frames for dynamic calls. *)
Definition slot_call depth (l : slot_label) : M value :=
  match l with
  | Stage fn p c msg => chatPipe fn p c msg
  | Flush params => ProcessChatRequestBuffer (call_method depth) params
  | Query => isChatRequestPending
  end.

(** A call whose staged name can be called: [fn] is a method of the class.
    The specification supposes it ("one of a fixed enum of supported
    operations"); the code does not check it. *)
Definition callable (l : slot_label) : Prop :=
  match l with
  | Stage fn _ _ _ => is_Some (method_of_value fn)
  | _ => True
  end.

(** One call of the interface, from the state before it to the state at
    the end of its first segment.  [plugin_step] is the relation for callable
    names and a stack that holds at least one frame, [plugin_step_any] the
    relation for all calls. *)
Definition plugin_step_any depth s (l : slot_label) s' : Prop :=
  (run (slot_call depth l) s).1.1 = s'.

Definition plugin_step depth s (l : slot_label) s' : Prop :=
  callable l ∧ plugin_step_any (S depth) s l s'.

(** The simulation relation: the slot is the buffer, and what is staged
    can be called. *)
Definition slot_of s sl : Prop :=
  chatRequestBuffer s = sl ∧ ∀ b, sl = Some b → is_Some (method_of_value (fn_name b)).

(** The flag of [Stage] labels. *)
Definition is_stage (l : slot_label) : bool :=
  match l with
  | Stage _ _ _ _ => true
  | _ => false
  end.

(** The first segments of a sequence of calls, one after the other, with
    the events they emit. *)
Fixpoint run_calls depth (ls : list slot_label) s : RemixAIPlugin * trace :=
  match ls with
  | [] => (s, [])
  | l :: ls' =>
      let '(s1, t1, _) := run (slot_call depth l) s in
      let '(s2, t2) := run_calls depth ls' s1 in (s2, t1 ++ t2)
  end.

(** ** Runs of the three methods *)

Lemma run_chatPipe_occupied fn p c msg s b :
  chatRequestBuffer s = Some b →
  run (chatPipe fn p c msg) s =
    (s, [Did (ConsoleLog buffer_not_empty)], Fulfilled (Prim Undefined)).
Proof. intros Hb. by eval_run. Qed.

Lemma run_chatPipe_empty fn p c msg s :
  chatRequestBuffer s = None →
  run (chatPipe fn p c msg) s =
    (set_chatRequestBuffer (Some (descriptor fn p c)) s,
     [Did (match notification fn msg with
           | Some text => ComposerSend text
           | None => ConsoleLog buffer_not_empty
           end)],
     Fulfilled (Prim Undefined)).
Proof. intros Hb. unfold notification. eval_run. by repeat case_match. Qed.

Lemma run_isChatRequestPending s :
  run isChatRequestPending s =
    (s, [], Fulfilled (Prim (Bool (bool_decide (is_Some (chatRequestBuffer s)))))).
Proof. simpl. by destruct (chatRequestBuffer s). Qed.

Lemma run_flush_empty call params s :
  chatRequestBuffer s = None →
  run (ProcessChatRequestBuffer call params) s =
    (s, [Did (ConsoleLog "chatRequestBuffer is empty.")], Fulfilled (Prim (Str ""))).
Proof. intros Hb. by eval_run. Qed.

(** A method that is not async settles inside its caller. *)
Lemma run_sync_method call m args s :
  is_async m = false → ∃ s' l v, run (method_body call m args) s = (s', l, Fulfilled v).
Proof.
  intros Hm. destruct m; try done; unfold method_body.
  - rewrite run_onActivation. destruct (isOnDesktop s); eauto.
  - rewrite run_setRemixAIOnSidePannel. eauto.
  - destruct (chatRequestBuffer s) eqn:Hb.
    + erewrite run_chatPipe_occupied by done. eauto.
    + rewrite run_chatPipe_empty by done. eauto.
  - eauto.
  - eauto.
Qed.

Lemma run_sync_call (t : M value) s s' l v :
  run t s = (s', l, Fulfilled v) → run (sync_call t) s = (s', l, Fulfilled (Ret v)).
Proof. intros Ht. unfold sync_call. rewrite run_bind, Ht. simpl. by rewrite app_nil_r. Qed.

(** [this[name](...args)], for the name of a method: the first segment of
    the method runs, and the call evaluates to the rest of it. *)
Lemma run_call_method depth name m args s :
  method_of_value name = Some m →
  run (call_method (S depth) name args) s =
    (let '(s1, l1, o1) := run (method_body (call_method depth) m args) s in
     (s1, l1, Fulfilled (residual o1))).
Proof.
  intros Hm. simpl. rewrite Hm. destruct (is_async m) eqn:Hasync; [apply run_spawn|].
  destruct (run_sync_method (call_method depth) m args s Hasync) as (s' & l & v & Hrun).
  rewrite Hrun. by apply run_sync_call.
Qed.

Lemma run_call_method_None depth name args s :
  method_of_value name = None →
  run (call_method depth name args) s =
    (s, [], Rejected (if depth is 0 then RangeError else TypeError)).
Proof. intros Hm. destruct depth; simpl; by rewrite ?Hm. Qed.

(** The flush of an occupied slot: the staged method is called with the
    stored prompt and context and with the flush's [params]; at the end of
    its first segment the slot is emptied; the flush ends as the method
    does. *)
Lemma run_flush depth params s b m :
  chatRequestBuffer s = Some b → method_of_value (fn_name b) = Some m →
  run (ProcessChatRequestBuffer (call_method (S depth)) params) s =
    (let '(s1, l1, o1) :=
       run (method_body (call_method depth) m
              [prompt b; context b; default_param GenerationParams params]) s in
     (set_chatRequestBuffer None s1, l1, o1)).
Proof.
  intros Hb Hm. unfold ProcessChatRequestBuffer.
  cbn [run mbind proc_bind bind get]. rewrite Hb.
  change (bind ?t ?f) with (t ≫= f).
  rewrite run_bind, (run_call_method _ _ m) by done.
  destruct (run (method_body _ _ _) s) as [[s1 l1] o1].
  simpl. destruct o1; simpl; by rewrite app_nil_r.
Qed.

(** The body of the method of an operation is the operation. *)
Lemma method_body_perform call op args :
  method_body call (operation_method op) args = perform op args.
Proof. by destruct op. Qed.

(** The flush of a slot whose staged name cannot be called: the call
    throws before the slot is emptied. *)
Lemma run_flush_not_callable depth params s b :
  chatRequestBuffer s = Some b → method_of_value (fn_name b) = None →
  run (ProcessChatRequestBuffer (call_method depth) params) s =
    (s, [], Rejected (if depth is 0 then RangeError else TypeError)).
Proof.
  intros Hb Hm. unfold ProcessChatRequestBuffer.
  cbn [run mbind proc_bind bind get]. rewrite Hb.
  change (bind ?t ?f) with (t ≫= f).
  by rewrite run_bind, run_call_method_None.
Qed.

(** ** The machine is simulated *)

Lemma plugin_simulates_slot depth : simulates (plugin_step depth) slot_step slot_of.
Proof.
  intros s l s' sl [Hsl Hcall] [Hl Hstep]. unfold plugin_step_any in Hstep.
  destruct l as [fn p c msg|params|]; cbn [slot_call] in Hstep.
  - destruct sl as [b|].
    + rewrite (run_chatPipe_occupied _ _ _ _ _ b) in Hstep by done. subst s'.
      exists (Some b). split; [constructor|done].
    + rewrite run_chatPipe_empty in Hstep by done. subst s'.
      exists (Some (descriptor fn p c)). split; [constructor|].
      split; [done|]. by intros ? [= <-].
  - destruct sl as [b|].
    + destruct (Hcall b eq_refl) as [m Hm].
      rewrite (run_flush _ _ _ b m) in Hstep by done.
      destruct (run (method_body _ _ _) s) as [[s1 l1] o1]. subst s'.
      exists None. split; [constructor|done].
    + rewrite run_flush_empty in Hstep by done. subst s'.
      exists None. split; [constructor|done].
  - subst s'. exists sl. split; [constructor|done].
Qed.

(** ** Facts of the machine *)

Lemma slot_step_deterministic sl l sl1 sl2 :
  slot_step sl l sl1 → slot_step sl l sl2 → sl1 = sl2.
Proof. intros H1 H2. by inv H1; inv H2. Qed.

(** While nothing is flushed an occupied slot keeps its descriptor. *)
Lemma slot_stages_keep d ls sl :
  Forall (λ l, is_stage l = true) ls → steps slot_step (Some d) ls sl → sl = Some d.
Proof.
  intros Hls Hsteps. remember (Some d) as sl0 eqn:Hsl0.
  induction Hsteps as [|sl0 l sl1 ls sl2 Hstep _ IH]; [done|]. subst sl0.
  apply Forall_cons in Hls as [Hl Hls]. inv Hstep; try done. by apply IH.
Qed.

(** ** Sequences of calls *)

Lemma steps_run_calls depth ls s :
  steps (plugin_step_any depth) s ls (run_calls depth ls s).1.
Proof.
  revert s. induction ls as [|l ls IH]; intros s; simpl; [constructor|].
  destruct (run (slot_call depth l) s) as [[s1 t1] o1] eqn:Hrun.
  specialize (IH s1). destruct (run_calls depth ls s1) as [s2 t2].
  econstructor; [|done]. unfold plugin_step_any. by rewrite Hrun.
Qed.

(** Stages on an occupied slot change nothing and only log. *)
Lemma run_calls_stages_occupied depth ls s b :
  chatRequestBuffer s = Some b → Forall (λ l, is_stage l = true) ls →
  run_calls depth ls s = (s, replicate (length ls) (Did (ConsoleLog buffer_not_empty))).
Proof.
  intros Hb. induction 1 as [|l ls Hl _ IH]; [done|].
  destruct l as [fn p c msg| |]; try done.
  cbn [run_calls slot_call length replicate].
  by rewrite (run_chatPipe_occupied _ _ _ _ _ b), IH.
Qed.

(** No call of the interface frees a slot whose staged name cannot be
    called. *)
Lemma plugin_step_any_stuck depth b :
  method_of_value (fn_name b) = None →
  preserved (plugin_step_any depth) (λ s, chatRequestBuffer s = Some b).
Proof.
  intros Hfn s l s' Hb <-. destruct l as [fn p c msg|params|]; cbn [slot_call].
  - by rewrite (run_chatPipe_occupied _ _ _ _ _ b).
  - by rewrite (run_flush_not_callable _ _ _ b).
  - done.
Qed.

(** ** Theorems *)

(** C2: the plugin refines the slot machine of the specification.  From an
    empty buffer, every sequence of [chatPipe], [ProcessChatRequestBuffer] and
    [isChatRequestPending] calls that stage names of methods of the class
    drives [chatRequestBuffer] along the transitions of the machine: EMPTY to
    OCCUPIED by a stage, OCCUPIED to EMPTY by a flush, and no other move. *)
Theorem plugin_refines_slot depth s ls s' :
  chatRequestBuffer s = None → steps (plugin_step depth) s ls s' →
  steps slot_step None ls (chatRequestBuffer s').
Proof.
  intros Hb Hsteps.
  destruct (simulates_steps _ _ _ s ls s' None (plugin_simulates_slot depth))
    as (sl' & Hsl & <- & _); [by split|done|done].
Qed.

(** C3: a flush empties the slot.  Whatever method is staged, whatever it
    does in its first segment and however it ends, [chatRequestBuffer] is
    [null] when the first segment of [ProcessChatRequestBuffer] is over: the
    slot is free before the backend has answered. *)
Theorem flush_empties_slot depth params s b :
  chatRequestBuffer s = Some b → is_Some (method_of_value (fn_name b)) →
  chatRequestBuffer (run (ProcessChatRequestBuffer (call_method (S depth)) params) s).1.1
    = None.
Proof.
  intros Hb [m Hm]. rewrite (run_flush _ _ _ b m) by done.
  by destruct (run (method_body _ _ _) s) as [[s1 l1] o1].
Qed.

(** C4: of a sequence of stages on an empty slot only the first is
    retained.  The first stores its descriptor and notifies the composer
    once; each of the others leaves the state as it is and only logs the
    diagnostic, so no second message reaches the composer. *)
Theorem stage_first_wins depth fn p c msg ls s :
  chatRequestBuffer s = None → Forall (λ l, is_stage l = true) ls →
  run_calls depth (Stage fn p c msg :: ls) s =
    (set_chatRequestBuffer (Some (descriptor fn p c)) s,
     Did (match notification fn msg with
          | Some text => ComposerSend text
          | None => ConsoleLog buffer_not_empty
          end) :: replicate (length ls) (Did (ConsoleLog buffer_not_empty))).
Proof.
  intros Hb Hls. cbn [run_calls slot_call]. rewrite run_chatPipe_empty by done.
  by rewrite (run_calls_stages_occupied _ _ _ (descriptor fn p c)).
Qed.

(** C38: a flush of the empty slot logs the diagnostic, returns the empty
    string and changes nothing; it does not throw, whatever the depth of the
    stack. *)
Theorem flush_empty_returns_empty_string depth params s :
  chatRequestBuffer s = None →
  run (ProcessChatRequestBuffer (call_method depth) params) s =
    (s, [Did (ConsoleLog "chatRequestBuffer is empty.")], Fulfilled (Prim (Str ""))).
Proof. apply run_flush_empty. Qed.

(** C15: a staged name that is not a method of the class blocks the slot
    for ever.  [chatPipe] stores any value as [fn_name]; the flush then throws
    a [TypeError] at the call, before the statement that empties the buffer,
    so the buffer keeps the descriptor; every later stage is refused and
    every later flush throws again.  (Names are resolved among the methods
    that the class declares: this is the case of a name that the object does
    not have, such as a misspelt one; what a name inherited from the plugin
    library would do is outside the sources.) *)
Theorem flush_not_callable_stuck depth s b ls s' :
  chatRequestBuffer s = Some b → method_of_value (fn_name b) = None →
  steps (plugin_step_any (S depth)) s ls s' →
  chatRequestBuffer s' = Some b ∧
  ∀ params, (run (ProcessChatRequestBuffer (call_method (S depth)) params) s').2
            = Rejected TypeError.
Proof.
  intros Hb Hfn Hsteps.
  assert (chatRequestBuffer s' = Some b) as Hb'.
  { by eapply (preserved_steps _ _ s ls s' (plugin_step_any_stuck (S depth) b Hfn)). }
  split; [done|]. intros params. by rewrite (run_flush_not_callable _ _ _ b).
Qed.

(** [isChatRequestPending] returns [true] exactly when the slot is
    occupied, and has no effect. *)
Theorem isChatRequestPending_spec s :
  run isChatRequestPending s =
    (s, [], Fulfilled (Prim (Bool (bool_decide (is_Some (chatRequestBuffer s)))))).
Proof. apply run_isChatRequestPending. Qed.

(** C16: the flush passes the stored context where [solidity_answer]
    expects its [params].  A staged [solidity_answer] runs as
    [solidity_answer(prompt, context)]: the [params] of the flush never reach
    it, and the stored context decides whether the answer is echoed. *)
Theorem flush_solidity_answer_params depth params s p c :
  chatRequestBuffer s = Some (descriptor (Str "solidity_answer") p c) →
  run (ProcessChatRequestBuffer (call_method (S depth)) params) s =
    (let '(s1, l1, o1) := run (solidity_answer p c) s in
     (set_chatRequestBuffer None s1, l1, o1)).
Proof. intros Hb. by rewrite (run_flush _ _ _ _ m_solidity_answer Hb). Qed.

(** C30: a staged [ProcessChatRequestBuffer] calls itself until the call
    stack is exhausted.  For every depth of the stack the flush terminates,
    rejected with a [RangeError]; the slot is emptied by the innermost call
    that returns, that is, as soon as the stack holds one frame. *)
Theorem flush_self_exhausts_stack depth params s b :
  chatRequestBuffer s = Some b → fn_name b = Str "ProcessChatRequestBuffer" →
  run (ProcessChatRequestBuffer (call_method depth) params) s =
    (if depth is 0 then s else set_chatRequestBuffer None s, [], Rejected RangeError).
Proof.
  intros Hb Hfn. revert params. induction depth as [|depth IH]; intros params.
  - unfold ProcessChatRequestBuffer. by eval_run.
  - rewrite (run_flush _ _ _ b m_ProcessChatRequestBuffer) by (done || by rewrite Hfn).
    cbn [method_body]. rewrite IH. by destruct depth, s.
Qed.

(** C37: [isChatRequestPending] follows the slot with no state in between.
    On an empty slot, the query that follows a stage returns [true], and the
    query that follows the flush of that stage returns [false], whatever the
    staged method does and however it ends. *)
Theorem query_follows_stage_and_flush depth fn p c msg params s :
  chatRequestBuffer s = None → is_Some (method_of_value fn) →
  let s1 := (run (chatPipe fn p c msg) s).1.1 in
  let s2 := (run (ProcessChatRequestBuffer (call_method (S depth)) params) s1).1.1 in
  (run isChatRequestPending s1).2 = Fulfilled (Prim (Bool true)) ∧
  (run isChatRequestPending s2).2 = Fulfilled (Prim (Bool false)).
Proof.
  intros Hb [m Hm]. cbv zeta. rewrite run_chatPipe_empty by done.
  rewrite !run_isChatRequestPending. cbn [fst snd].
  rewrite (run_flush _ _ _ (descriptor fn p c) m) by done.
  by destruct (run (method_body _ _ _) _) as [[s1 l1] o1].
Qed.

(** C13: what is staged is what is called, and the plugin is as before.  A
    stage of one of the six operations on an empty slot followed by a flush
    runs as the call of that operation on the plugin before the stage, with
    the staged prompt, the staged context and the [params] of the flush as
    its three arguments: the same events, the same request, the same rest of
    the method; and the first segment of the flush ends in the state in which
    the stage began. *)
Theorem stage_flush_roundtrip depth op p c msg params s :
  chatRequestBuffer s = None →
  let s1 := (run (chatPipe (Str (operation_name op)) p c msg) s).1.1 in
  chatRequestBuffer s1 = Some (descriptor (Str (operation_name op)) p c) ∧
  run (ProcessChatRequestBuffer (call_method (S depth)) params) s1 =
    run (perform op [p; c; default_param GenerationParams params]) s ∧
  (run (ProcessChatRequestBuffer (call_method (S depth)) params) s1).1.1 = s.
Proof.
  intros Hb. cbv zeta. rewrite run_chatPipe_empty by done. cbn [fst snd].
  split; [done|].
  rewrite (run_flush _ _ _ (descriptor (Str (operation_name op)) p c) (operation_method op))
    by (done || apply method_of_string_name).
  rewrite method_body_perform. cbn [prompt context descriptor]. rewrite run_perform_frame.
  pose proof (run_perform_state op [p; c; default_param GenerationParams params] s) as Hs.
  destruct (run (perform op _) s) as [[s1 l1] o1]. simpl in *. subst s1.
  destruct s; simpl in *. by subst.
Qed.

(** C22: a flush while the gate is closed drops the staged request.  When a
    guarded operation is staged and [isInferencing] is set, the flush calls
    the operation, which refuses; the flush empties the slot all the same, and
    returns [undefined] after the warning: no request is issued, and the
    prompt and the context that were staged are gone. *)
Theorem flush_while_busy_drops_request depth op p c params s :
  chatRequestBuffer s = Some (descriptor (Str (operation_name op)) p c) →
  guarded op = true → isInferencing s = true →
  run (ProcessChatRequestBuffer (call_method (S depth)) params) s =
    (set_chatRequestBuffer None s, [busy_entry], Fulfilled (Prim Undefined)).
Proof.
  intros Hb Hg Hbusy.
  rewrite (run_flush _ _ _ _ (operation_method op) Hb) by apply method_of_string_name.
  by rewrite method_body_perform, run_guarded_busy.
Qed.

(** C39: a stage without a message of its own notifies the composer for
    three names only.  For any other name, the names of the other three
    operations included, [chatPipe] stores the request, sends nothing to the
    composer, and logs that the buffer is not empty, which it was. *)
Theorem stage_unlisted_name_is_silent (fn : value) p c msg s :
  chatRequestBuffer s = None → truthy msg = false →
  fn ≠ Str "code_explaining" → fn ≠ Str "error_explaining" → fn ≠ Str "solidity_answer" →
  run (chatPipe fn p c msg) s =
    (set_chatRequestBuffer (Some (descriptor fn p c)) s,
     [Did (ConsoleLog buffer_not_empty)], Fulfilled (Prim Undefined)).
Proof.
  intros Hb Hmsg H1 H2 H3. rewrite run_chatPipe_empty by done.
  unfold notification. rewrite Hmsg.
  by rewrite !strict_eq_str_false.
Qed.

End slot.

(** ** Witnesses and scenarios *)

#[local] Existing Instance remix_ai_core.

Lemma plugin_refines_slot_witness :
  steps slot_step None
    [Stage (Str "solidity_answer") (Str "What is a mapping?") Null Undefined;
     Stage (Str "code_explaining") (Str "x") Undefined Undefined;
     Flush Undefined; Query] None.
Proof.
  apply (plugin_refines_slot 0 (new_RemixAIPlugin true) _
           (set_isInferencing false (new_RemixAIPlugin true))); [done|].
  repeat (econstructor; [split; [simpl; eauto|reflexivity]|]). constructor.
Defined.

Lemma flush_empties_slot_witness :
  chatRequestBuffer
    (run (ProcessChatRequestBuffer (call_method 1) Undefined) occupied).1.1 = None.
Proof. apply (flush_empties_slot 0 _ _ mapping_question); [done|by eexists]. Defined.

Lemma stage_first_wins_witness :
  run_calls 1 [Stage (Str "solidity_answer") (Str "What is a mapping?") Null Undefined;
               Stage (Str "code_explaining") (Str "x") Undefined Undefined]
            (new_RemixAIPlugin true) =
    (occupied,
     [Did (ComposerSend (Str "Answer the following question"));
      Did (ConsoleLog buffer_not_empty)]).
Proof. apply (stage_first_wins 1); [done|by repeat constructor]. Defined.

Lemma flush_empty_returns_empty_string_witness :
  run (ProcessChatRequestBuffer (call_method 1) Undefined) (new_RemixAIPlugin false) =
    (new_RemixAIPlugin false, [Did (ConsoleLog "chatRequestBuffer is empty.")],
     Fulfilled (Prim (Str ""))).
Proof. by apply flush_empty_returns_empty_string. Defined.

Lemma flush_not_callable_stuck_witness :
  let s := set_chatRequestBuffer (Some (descriptor (Str "explain") Null Null))
             (new_RemixAIPlugin true) in
  chatRequestBuffer (run_calls 1 [Flush Undefined; Stage Null Null Null Null;
                                  Flush Undefined] s).1
    = Some (descriptor (Str "explain") Null Null) ∧
  ∀ params,
    (run (ProcessChatRequestBuffer (call_method 1) params)
         (run_calls 1 [Flush Undefined; Stage Null Null Null Null; Flush Undefined] s).1).2
    = Rejected TypeError.
Proof.
  intros s. apply (flush_not_callable_stuck 0 s (descriptor (Str "explain") Null Null)
    [Flush Undefined; Stage Null Null Null Null; Flush Undefined]); [done|done|].
  apply steps_run_calls.
Defined.

Lemma flush_solidity_answer_params_witness :
  run (ProcessChatRequestBuffer (call_method 1)
         (Obj [("terminal_output", Bool true)])) occupied =
    (let '(s1, l1, o1) := run (solidity_answer (Str "What is a mapping?") Null) occupied in
     (set_chatRequestBuffer None s1, l1, o1)).
Proof. by apply flush_solidity_answer_params. Defined.

Lemma query_follows_stage_and_flush_witness :
  let s1 := (run (chatPipe (Str "solidity_answer") (Str "What is a mapping?") Null Undefined)
               (new_RemixAIPlugin true)).1.1 in
  let s2 := (run (ProcessChatRequestBuffer (call_method 1) Undefined) s1).1.1 in
  (run isChatRequestPending s1).2 = Fulfilled (Prim (Bool true)) ∧
  (run isChatRequestPending s2).2 = Fulfilled (Prim (Bool false)).
Proof.
  apply (query_follows_stage_and_flush 0 (Str "solidity_answer")); [done|by eexists].
Defined.

Lemma stage_flush_roundtrip_witness :
  let s1 := (run (chatPipe (Str (operation_name op_code_explaining)) (Str "contract C {}")
                    (Str "C.sol") Undefined) (new_RemixAIPlugin true)).1.1 in
  chatRequestBuffer s1 =
    Some (descriptor (Str (operation_name op_code_explaining)) (Str "contract C {}")
            (Str "C.sol")) ∧
  run (ProcessChatRequestBuffer (call_method 1) Undefined) s1 =
    run (perform op_code_explaining
           [Prim (Str "contract C {}"); Prim (Str "C.sol");
            default_param GenerationParams Undefined]) (new_RemixAIPlugin true) ∧
  (run (ProcessChatRequestBuffer (call_method 1) Undefined) s1).1.1 = new_RemixAIPlugin true.
Proof. by apply (stage_flush_roundtrip 0 op_code_explaining). Defined.

Lemma flush_while_busy_drops_request_witness :
  run (ProcessChatRequestBuffer (call_method 1) Undefined) (set_isInferencing true occupied) =
    (set_chatRequestBuffer None (set_isInferencing true occupied), [busy_entry],
     Fulfilled (Prim Undefined)).
Proof.
  by apply (flush_while_busy_drops_request 0 op_solidity_answer (Str "What is a mapping?") Null).
Defined.

Lemma stage_unlisted_name_is_silent_witness :
  run (chatPipe (Str "code_generation") (Str "a counter") Undefined Undefined)
      (new_RemixAIPlugin true) =
    (set_chatRequestBuffer
       (Some (descriptor (Str "code_generation") (Str "a counter") Undefined))
       (new_RemixAIPlugin true),
     [Did (ConsoleLog buffer_not_empty)], Fulfilled (Prim Undefined)).
Proof. by apply stage_unlisted_name_is_silent. Defined.

Lemma flush_self_exhausts_stack_witness :
  run (ProcessChatRequestBuffer (call_method 3) Undefined)
      (set_chatRequestBuffer (Some (descriptor (Str "ProcessChatRequestBuffer") Null Null))
         (new_RemixAIPlugin true)) =
    (new_RemixAIPlugin true, [], Rejected RangeError).
Proof.
  exact (flush_self_exhausts_stack 3 Undefined
    (set_chatRequestBuffer (Some (descriptor (Str "ProcessChatRequestBuffer") Null Null))
       (new_RemixAIPlugin true))
    (descriptor (Str "ProcessChatRequestBuffer") Null Null) eq_refl eq_refl).
Defined.
