(* ===== verification/Settle.v ===== *)
(** * Every method settles

    No method of [RemixAIPlugin] loops, and none awaits more than two
    requests: [solidity_answer] awaits the agent and then the backend, the
    other forwarding methods and [initialize] await once, the rest not at
    all.  A flush awaits what the staged method awaits.  The bound holds for
    every depth of the call stack, by induction on the depth through the
    dynamic call of [ProcessChatRequestBuffer]. *)

From S2P Require Import Prelude JsValue Proc Plugin Gate Lifecycle Slot.

(** ** Definitions *)

(** A dynamic call that returns to its caller at once, with a promise that
    suspends at most twice. *)
Definition bounded_call (call : value → list value → M (M value)) : Prop :=
  ∀ name args, awaits 0 (call name args) ∧ returns (awaits 2) (call name args).

(** The number of requests that a method awaits, at most. *)
Definition await_bound (m : method) : nat :=
  match m with
  | m_solidity_answer | m_ProcessChatRequestBuffer => 2
  | m_initialize | m_code_generation | m_code_completion | m_code_explaining
  | m_error_explaining | m_code_insertion => 1
  | _ => 0
  end.

(** A computation that is settled by [n] answers, whatever they are and
    whatever the state in which it starts. *)
Definition settles_within `{RemixAICore} (n : nat) (t : M value) : Prop :=
  ∀ s answers, n ≤ length answers → settled (drive answers t s).2 = true.

(** [awaits_tac] proves a bound on a computation that is written out, by
    cases on every test of the computation. *)
Ltac awaits_tac :=
  repeat first
    [ progress (simpl; intros)
    | case_match
    | progress unfold lift, echo, setRemixAIOnSidePannel ];
  auto.

Section settle.
Context `{RemixAICore}.
Implicit Types (s : RemixAIPlugin) (m : method) (args : list value) (depth : nat).

(** ** The bound of each method *)

Lemma awaits_direct call m args :
  m ≠ m_ProcessChatRequestBuffer → awaits (await_bound m) (method_body call m args).
Proof. intros Hm. destruct m; try done; unfold method_body; awaits_tac. Qed.

Lemma awaits_sync call m args : is_async m = false → awaits 0 (method_body call m args).
Proof. intros Hm. destruct m; try done; unfold method_body; awaits_tac. Qed.

Lemma await_bound_le m : await_bound m ≤ 2.
Proof. destruct m; simpl; lia. Qed.

Lemma awaits_flush call params :
  bounded_call call → awaits 2 (ProcessChatRequestBuffer call params).
Proof.
  intros Hcall. unfold ProcessChatRequestBuffer. simpl. intros s.
  destruct (chatRequestBuffer s) as [b|]; [|done].
  change (bind ?t ?f) with (t ≫= f).
  destruct (Hcall (fn_name b) [prompt b; context b; default_param GenerationParams params])
    as [H0 H2].
  apply (awaits_bind_returns 0 2); [done|].
  eapply returns_mono; [|done]. intros result Hres. simpl. auto.
Qed.

Lemma awaits_method_body call m args :
  bounded_call call → awaits 2 (method_body call m args).
Proof.
  intros Hcall. destruct (decide (m = m_ProcessChatRequestBuffer)) as [->|];
    [by apply awaits_flush|].
  eapply awaits_mono; [apply await_bound_le|by apply awaits_direct].
Qed.

(** Dynamic calls are bounded, whatever the depth of the stack. *)
Lemma bounded_call_method depth : bounded_call (call_method depth).
Proof.
  induction depth as [|depth IH]; intros name args; [done|]. simpl.
  destruct (method_of_value name) as [m|]; [|done].
  destruct (is_async m) eqn:Hm.
  - split; [apply awaits_spawn|]. by apply returns_spawn, awaits_method_body.
  - unfold sync_call. split.
    + apply (awaits_bind 0 0); [by apply awaits_sync|done].
    + eapply returns_bind; [apply returns_True|]. by intros.
Qed.

Lemma awaits_invoke depth m args : awaits 2 (invoke depth m args).
Proof. apply awaits_method_body, bounded_call_method. Qed.

(** ** Theorems *)

(** C28: every method settles after at most two answers.  Whatever the
    method, its arguments, the state, the depth of the call stack and the
    answers of the environment, the promise of a call is fulfilled or
    rejected once two requests have been answered; no method is left pending
    by an environment that answers. *)
Theorem methods_settle depth m args : settles_within 2 (invoke depth m args).
Proof. intros s answers Hn. eapply awaits_drive; [apply awaits_invoke|done]. Qed.

(** C33: a method other than a flush awaits no more requests than
    [await_bound] says, and the methods that are not async await none: they
    have returned when the call returns. *)
Theorem method_await_bound depth m args :
  m ≠ m_ProcessChatRequestBuffer →
  awaits (await_bound m) (invoke depth m args) ∧
  (is_async m = false → awaits 0 (invoke depth m args)).
Proof. intros Hm. split; [by apply awaits_direct|apply awaits_sync]. Qed.

(** The bound of [solidity_answer] is reached: on the desktop, with the
    gate open, one answer leaves the method suspended on the backend. *)
Lemma solidity_answer_two_segments prompt params s answer :
  isInferencing s = false → isOnDesktop s = true →
  settled (drive [inr answer] (solidity_answer prompt params) s).2 = false.
Proof. intros Hb Hd. unfold drive. by eval_run. Qed.

End settle.

(** ** Witnesses *)

#[local] Existing Instance remix_ai_core.

Lemma method_await_bound_witness :
  awaits 1 (invoke 1 m_code_generation []) ∧
  (is_async m_code_generation = false → awaits 0 (invoke 1 m_code_generation [])).
Proof. by apply (method_await_bound 1 m_code_generation []). Defined.
