(* ===== verification/EventLoop.v ===== *)
(** * The event loop

    The methods of [RemixAIPlugin] run on one thread, one segment at a time;
    between two segments of a method anything else may run: another call, the
    resumption of another suspended method, or a callback that an emitter
    fires.  A [world] is the plugin together with the methods that are
    suspended, the callbacks that are registered and the events emitted so
    far; [world_step] is one turn of the loop, and [step] computes it.

    The file then gives the means to prove invariants of all interleavings: a
    [protocol] (see [Proc.wp]) that every method and every callback follows
    is kept by every turn of the loop ([world_step_ok]).  The class
    [followed] is the interface between the two: the loop is proved against
    it, and each protocol of the plugin is an instance of it ([Invariants],
    [Routing]).

    The facts of the loop itself are proved here: the computed run is the
    relation; an environment that answers the outstanding requests settles
    every call; the busy gate admits any number of overlapping calls of a
    guarded method as long as the backend has not signalled the start of an
    inference; and the scenario of the specification runs as the
    specification says. *)

From S2P Require Import Prelude JsValue Proc Plugin Gate Lifecycle Slot Settle.

(** ** Worlds *)

(** A suspended method: the request that it awaits, and what it does with
    the answer. *)
Record task : Type := {
  awaited : request;
  continuation : value → M value
}.

(** The plugin ([this]), the suspended methods, oldest first, the events
    for which the plugin has registered a callback ([this.on] and
    [remoteInferencer.event.on]), and everything emitted so far. *)
Record world : Type := {
  plugin : RemixAIPlugin;
  tasks : list task;
  listeners : list (emitter * string);
  history : trace
}.

(** What the loop runs next: a call of a method, by the plugin engine or by
    the chat view; the answer to the request of the [i]-th suspended method; an
    event of an emitter. *)
Inductive label : Type :=
| Call (m : method) (args : list value)
| Answer (i : nat) (a : error + value)
| Notify (src : emitter) (ev : string) (payload : value).

(** The world that [new RemixAIPlugin(inDesktop)] creates. *)
Definition init_world (inDesktop : bool) : world :=
  {| plugin := new_RemixAIPlugin inDesktop; tasks := []; listeners := []; history := [] |}.

(** The callbacks that a segment registers. *)
Definition registered (evs : trace) : list (emitter * string) :=
  omap (λ e, match e with
             | Did (Listen src ev) => Some (src, ev)
             | _ => None
             end) evs.

(** The method that a segment leaves suspended, if it does. *)
Definition suspended (o : outcome RemixAIPlugin effect request value) : list task :=
  match o with
  | Pending r k => [{| awaited := r; continuation := k |}]
  | _ => []
  end.

(** The world after a segment that ends in the state [s], leaves [ts]
    suspended and has emitted [evs]. *)
Definition next (w : world) (ts : list task) (s : RemixAIPlugin) (evs : trace) : world :=
  {| plugin := s; tasks := ts; listeners := listeners w ++ registered evs;
     history := history w ++ evs |}.

(** The events that a turn from [w] to [w'] has emitted. *)
Definition emitted (w w' : world) : trace := drop (length (history w)) (history w').

Section step.
Context `{RemixAICore} (depth : nat).

(** One turn of the loop.  An event for which no callback is registered is
    lost; an answer to a request that is not outstanding is not a turn. *)
Definition step (w : world) (l : label) : option world :=
  match l with
  | Call m args =>
      let '(s, evs, o) := run (invoke depth m args) (plugin w) in
      Some (next w (tasks w ++ suspended o) s evs)
  | Answer i a =>
      t ← tasks w !! i;
      let '(s, evs, o) := resume (continuation t) a (plugin w) in
      Some (next w (delete i (tasks w) ++ suspended o) s evs)
  | Notify src ev payload =>
      if bool_decide ((src, ev) ∈ listeners w) then
        match handler src ev payload with
        | Some cb => let '(s, evs, _) := run cb (plugin w) in Some (next w (tasks w) s evs)
        | None => Some w
        end
      else Some w
  end.

Inductive world_step : world → label → world → Prop :=
| step_call w m args s evs o :
    run (invoke depth m args) (plugin w) = (s, evs, o) →
    world_step w (Call m args) (next w (tasks w ++ suspended o) s evs)
| step_answer w i t a s evs o :
    tasks w !! i = Some t →
    resume (continuation t) a (plugin w) = (s, evs, o) →
    world_step w (Answer i a) (next w (delete i (tasks w) ++ suspended o) s evs)
| step_notify w src ev payload cb s evs o :
    (src, ev) ∈ listeners w → handler src ev payload = Some cb →
    run cb (plugin w) = (s, evs, o) →
    world_step w (Notify src ev payload) (next w (tasks w) s evs)
| step_unheard w src ev payload :
    (src, ev) ∉ listeners w ∨ handler src ev payload = None →
    world_step w (Notify src ev payload) w.

(** A run of the loop, computed. *)
Fixpoint steps_of (ls : list label) (w : world) : option world :=
  match ls with
  | [] => Some w
  | l :: ls' => step w l ≫= steps_of ls'
  end.

(** The world after the turns [ls] of a new plugin. *)
Definition world_after (inDesktop : bool) (ls : list label) : world :=
  default (init_world inDesktop) (steps_of ls (init_world inDesktop)).

(** The environment answers the oldest outstanding request, once per
    answer of the list, as long as a request is outstanding. *)
Fixpoint drain (answers : list (error + value)) (w : world) : world :=
  match answers with
  | [] => w
  | a :: answers' =>
      match step w (Answer 0 a) with
      | Some w' => drain answers' w'
      | None => w
      end
  end.

End step.

(** ** Protocols of the plugin *)

Abbreviation Protocol := (protocol RemixAIPlugin effect request).

(** A suspended method that follows the protocol [Π] when it resumes. *)
Definition task_ok (Π : Protocol) (t : task) : Prop :=
  ∀ v s, invariant Π s → respects Π (continuation t v) s.

(** A world in which the invariant of [Π] holds, every suspended method
    follows [Π], and only permitted events have been emitted. *)
Definition world_ok (Π : Protocol) (w : world) : Prop :=
  invariant Π (plugin w) ∧ Forall (task_ok Π) (tasks w) ∧ Forall (permitted Π) (history w).

(** A dynamic call [this[name](...)] that follows [Π], and whose promise
    does. *)
Definition call_ok (Π : Protocol) (call : value → list value → M (M value)) : Prop :=
  ∀ name args s, invariant Π s →
    wp Π (λ u s', is_residual u ∧ respects Π u s') (call name args) s.

(** What [ProcessChatRequestBuffer] needs of a protocol: the statement
    [this.chatRequestBuffer = null] is within it, and so is the diagnostic of
    the empty slot. *)
Class flush_compatible (Π : Protocol) : Prop := {
  flush_invariant s : invariant Π s → invariant Π (set_chatRequestBuffer None s);
  flush_guarantee s : guarantee Π s (set_chatRequestBuffer None s);
  flush_permitted : permitted Π (Did (ConsoleLog "chatRequestBuffer is empty."))
}.

(** A protocol that the class follows: this is what a protocol owes to the
    loop.  Every method but the flush follows it, whatever the dynamic call
    that it is given, and the statements of the flush are within it; that
    the flush follows it, at every depth of the stack, is derived
    ([respects_invoke]). *)
Class followed `{RemixAICore} (Π : Protocol) : Prop := {
  followed_flush :: flush_compatible Π;
  followed_direct call m args s :
    m ≠ m_ProcessChatRequestBuffer → invariant Π s →
    respects Π (method_body call m args) s
}.

(** A suspended method that suspends at most [n] more times. *)
Definition task_bound (n : nat) (t : task) : Prop := ∀ v, awaits n (continuation t v).

(** [protocol_tac Π] proves that a method that is written out follows the
    protocol [Π], by cases on every test of the method. *)
Ltac protocol_leaf :=
  repeat match goal with H : ?x = _ |- context [?x] => rewrite H end;
  first [ done | congruence | by eauto
        | match goal with H : _ |- _ => by (apply H; (done || congruence)) end ].

Ltac protocol_tac Π :=
  unfold respects, method_body;
  repeat first
    [ assumption
    | progress (simpl; intros)
    | progress unfold lift, echo, setRemixAIOnSidePannel
    | case_match
    | split ];
  unfold Π in *; simpl in *; destruct_and?; split_and?; intros; try protocol_leaf.

(** ** The computed step is the relation *)

Section executable.
Context `{RemixAICore} (depth : nat).
Implicit Types (w : world) (l : label).

Lemma step_world_step w l w' : step depth w l = Some w' ↔ world_step depth w l w'.
Proof.
  split.
  - destruct l as [m args|i a|src ev payload]; simpl.
    + destruct (run _ _) as [[s evs] o] eqn:Hrun. intros [= <-]. by constructor.
    + destruct (tasks w !! i) as [t|] eqn:Ht; simpl; [|done].
      destruct (resume _ _ _) as [[s evs] o] eqn:Hrun. intros [= <-]. by econstructor.
    + case_bool_decide as Hin; [|intros [= <-]; constructor; auto].
      destruct (handler src ev payload) as [cb|] eqn:Hcb; [|intros [= <-]; constructor; auto].
      destruct (run cb _) as [[s evs] o] eqn:Hrun. intros [= <-]. by econstructor.
  - intros Hstep. destruct Hstep as [w m args s evs o Hrun|w i t a s evs o Ht Hrun
      |w src ev payload cb s evs o Hin Hcb Hrun|w src ev payload Hno]; simpl.
    + by rewrite Hrun.
    + by rewrite Ht; simpl; rewrite Hrun.
    + by rewrite bool_decide_true, Hcb, Hrun.
    + case_bool_decide; [|done]. by destruct Hno as [?| ->].
Qed.

(** Every call and every event is a turn: the loop is stuck on no label but
    an answer to a request that is not outstanding. *)
Lemma step_is_Some w l :
  is_Some (step depth w l) ↔
    match l with
    | Answer i _ => i < length (tasks w)
    | _ => True
    end.
Proof.
  destruct l as [m args|i a|src ev payload]; simpl.
  - by destruct (run _ _) as [[??]?].
  - rewrite <-lookup_lt_is_Some. destruct (tasks w !! i) as [t|]; simpl.
    + by destruct (resume _ _ _) as [[??]?].
    + split; by intros [??].
  - case_bool_decide; [|done]. destruct (handler _ _ _); [|done].
    by destruct (run _ _) as [[??]?].
Qed.

(** The history grows by the events of the turn. *)
Lemma emitted_next w ts s evs : emitted w (next w ts s evs) = evs.
Proof. unfold emitted. simpl. by rewrite drop_app_length. Qed.

Lemma emitted_refl w : emitted w w = [].
Proof. apply drop_all. Qed.

Lemma world_step_history w l w' :
  world_step depth w l w' → history w' = history w ++ emitted w w'.
Proof. inversion 1; subst; by rewrite ?emitted_next, ?emitted_refl, ?app_nil_r. Qed.

Lemma steps_of_sound ls w w' :
  steps_of depth ls w = Some w' → steps (world_step depth) w ls w'.
Proof.
  revert w. induction ls as [|l ls IH]; intros w; simpl; [intros [= <-]; constructor|].
  destruct (step depth w l) as [w1|] eqn:Hstep; [|done]. simpl. intros Hrest.
  econstructor; [by apply step_world_step|by apply IH].
Qed.

Lemma world_after_reachable b ls :
  reachable (world_step depth) (λ w, w = init_world b) (world_after depth b ls).
Proof.
  unfold world_after. destruct (steps_of depth ls (init_world b)) as [w|] eqn:Hls;
    [|by apply reachable_init].
  exists (init_world b), ls. eauto using steps_of_sound.
Qed.

End executable.

(** ** Every turn keeps a protocol that the methods follow *)

Section flush.
Context `{RemixAICore} (Π : Protocol) `{!flush_compatible Π}.

(** The flush follows the protocol when the call it makes does: what the
    staged method leaves is kept across the statement that empties the
    slot. *)
Lemma respects_flush_call call params s :
  (∀ b, chatRequestBuffer s = Some b →
     wp Π (λ u s', is_residual u ∧ respects Π u s')
       (call (fn_name b) [prompt b; context b; default_param GenerationParams params]) s) →
  invariant Π s → respects Π (ProcessChatRequestBuffer call params) s.
Proof.
  intros Hcall Hs. unfold respects, ProcessChatRequestBuffer.
  cbn [wp mbind proc_bind bind get]. destruct (chatRequestBuffer s) as [b|].
  - change (bind ?t ?f) with (t ≫= f). apply wp_bind.
    eapply wp_mono; [|by apply Hcall]. intros u s' [Hres Hu]. simpl.
    split; [apply flush_guarantee|].
    eapply wp_residual_stable; [done| | |exact Hu]; eauto using flush_invariant.
  - simpl. split; [apply flush_permitted|done].
Qed.

End flush.

Section protocol.
Context `{RemixAICore} (Π : Protocol) `{!followed Π}.
Implicit Types (w : world) (s : RemixAIPlugin).

Lemma respects_flush call params s :
  call_ok Π call → invariant Π s → respects Π (ProcessChatRequestBuffer call params) s.
Proof. intros Hcall Hs. apply (respects_flush_call Π call params s); auto. Qed.

Lemma respects_method_body call m args s :
  call_ok Π call → invariant Π s → respects Π (method_body call m args) s.
Proof.
  intros Hcall Hs. destruct (decide (m = m_ProcessChatRequestBuffer)) as [->|];
    [by apply respects_flush|by apply followed_direct].
Qed.

(** A dynamic call follows the protocol when the method that it reaches
    does: the promise of an async method is what the method leaves, a method
    that is not async has returned. *)
Lemma wp_call_method depth name m args s :
  method_of_value name = Some m →
  respects Π (method_body (call_method depth) m args) s →
  wp Π (λ u s', is_residual u ∧ respects Π u s') (call_method (S depth) name args) s.
Proof.
  intros Hm Hr. simpl. rewrite Hm. destruct (is_async m); [by apply wp_spawn|].
  unfold sync_call. apply wp_bind. eapply wp_mono; [|done]. by intros.
Qed.

(** Dynamic calls follow the protocol, whatever the depth of the stack. *)
Lemma call_ok_call_method depth : call_ok Π (call_method depth).
Proof.
  induction depth as [|depth IH]; intros name args s Hs; [done|].
  destruct (method_of_value name) as [m|] eqn:Hm;
    [by eapply wp_call_method, respects_method_body|].
  simpl. by rewrite Hm.
Qed.

Lemma respects_invoke depth m args s : invariant Π s → respects Π (invoke depth m args) s.
Proof. apply respects_method_body, call_ok_call_method. Qed.

Lemma task_ok_suspended o s : respects Π (residual o) s → Forall (task_ok Π) (suspended o).
Proof.
  destruct o as [| |r k]; simpl; [done|done|]. intros [_ Hk].
  constructor; [|done]. intros v s' Hs'. by apply Hk.
Qed.

Lemma world_ok_next w ts s evs :
  Forall (permitted Π) (history w) → invariant Π s → Forall (task_ok Π) ts →
  Forall (permitted Π) evs → world_ok Π (next w ts s evs).
Proof. intros. split_and!; simpl; [done|done|by apply Forall_app]. Qed.

Lemma world_ok_init b : invariant Π (new_RemixAIPlugin b) → world_ok Π (init_world b).
Proof. intros. split; [done|by split]. Qed.

(** A call of a method that follows the protocol in the state of the world
    keeps the protocol. *)
Lemma world_step_call_respects depth w m args w' :
  respects Π (invoke depth m args) (plugin w) →
  world_step depth w (Call m args) w' → world_ok Π w →
  world_ok Π w' ∧ rtc (guarantee Π) (plugin w) (plugin w').
Proof.
  intros Hm Hstep (Hs & Hts & Hh).
  inversion Hstep as [? ? ? s evs o Hrun| | |]; subst.
  destruct (wp_run Π _ _ _ Hm) as (Hg & Hevs & Ho).
  rewrite Hrun in Hg, Hevs, Ho. simpl in *. split; [|done].
  apply world_ok_next; eauto using respects_residual.
  apply Forall_app. eauto using task_ok_suspended.
Qed.

Lemma world_step_call_ok depth w m args w' :
  world_step depth w (Call m args) w' → world_ok Π w →
  world_ok Π w' ∧ rtc (guarantee Π) (plugin w) (plugin w').
Proof.
  intros Hstep Hw. apply (world_step_call_respects depth w m args); [|done..].
  apply respects_invoke, Hw.
Qed.

Lemma world_step_answer_ok depth w i a w' :
  world_step depth w (Answer i a) w' → world_ok Π w →
  world_ok Π w' ∧ rtc (guarantee Π) (plugin w) (plugin w').
Proof.
  intros Hstep (Hs & Hts & Hh).
  inversion Hstep as [|? ? t ? s evs o Hi Hrun| |]; subst.
  assert (task_ok Π t) as Ht by (eapply Forall_lookup_1; eauto).
  assert (respects Π (Wait (awaited t) (continuation t)) (plugin w)) as Hw.
  { split; [done|]. intros v s' Hs'. by apply Ht. }
  destruct (wp_resume Π _ (awaited t) (continuation t) a (plugin w) (plugin w) Hw Hs)
    as (Hg & Hevs & Ho).
  rewrite Hrun in Hg, Hevs, Ho. simpl in *. split; [|done].
  apply world_ok_next; eauto using respects_residual.
  apply Forall_app. split; [by apply Forall_delete|eauto using task_ok_suspended].
Qed.

Lemma world_step_notify_ok depth w src ev payload w' :
  (∀ cb s, handler src ev payload = Some cb → invariant Π s → respects Π cb s) →
  world_step depth w (Notify src ev payload) w' → world_ok Π w →
  world_ok Π w' ∧ rtc (guarantee Π) (plugin w) (plugin w').
Proof.
  intros Hcb Hstep (Hs & Hts & Hh).
  inversion Hstep as [| |? ? ? ? cb s evs o Hin Hh' Hrun|]; subst; [|done].
  destruct (wp_run Π _ _ _ (Hcb _ _ Hh' Hs)) as (Hg & Hevs & Ho).
  rewrite Hrun in Hg, Hevs, Ho. simpl in *. split; [|done].
  apply world_ok_next; eauto using respects_residual.
Qed.

(** A turn of the loop keeps the protocol, if the callback that it runs,
    when it runs one, follows the protocol. *)
Lemma world_step_ok depth w l w' :
  (∀ src ev payload cb s, l = Notify src ev payload → handler src ev payload = Some cb →
     invariant Π s → respects Π cb s) →
  world_step depth w l w' → world_ok Π w →
  world_ok Π w' ∧ rtc (guarantee Π) (plugin w) (plugin w').
Proof.
  intros Hcb. destruct l;
    eauto using world_step_call_ok, world_step_answer_ok, world_step_notify_ok.
Qed.

End protocol.

(** ** Suspended methods settle *)

Section settle.
Context `{RemixAICore} (depth : nat).
Implicit Types (w : world) (t : task) (s : RemixAIPlugin).

Lemma task_bound_mono n m t : n ≤ m → task_bound n t → task_bound m t.
Proof. intros Hnm Ht v. eapply awaits_mono; [done|apply Ht]. Qed.

Lemma task_bound_suspended n o :
  awaits (S n) (residual o) → Forall (task_bound n) (suspended o).
Proof. destruct o as [| |r k]; simpl; [done|done|]. intros Hk. by constructor. Qed.

(** An answer uses up one of the suspensions that a method has left. *)
Lemma task_bound_resume n t a s :
  task_bound n t →
  ∃ ns, Forall2 task_bound ns (suspended (resume (continuation t) a s).2) ∧
        sum_list ns + length ns ≤ n.
Proof.
  intros Ht. destruct a as [e|v]; simpl; [exists []; split; [constructor|simpl; lia]|].
  pose proof (awaits_residual_run n _ s (Ht v)) as Ho.
  destruct (run (continuation t v) s) as [[s1 l1] [| |r k]]; simpl in *;
    [exists []; split; [constructor|simpl; lia]..|].
  destruct n as [|n]; [done|]. exists [n]. split; [by repeat constructor|simpl; lia].
Qed.

Lemma task_bound_resume_Forall n t a s :
  task_bound (S n) t → Forall (task_bound n) (suspended (resume (continuation t) a s).2).
Proof.
  intros Ht. destruct a as [e|v]; simpl; [done|].
  apply task_bound_suspended, awaits_residual_run, Ht.
Qed.

(** In every world a suspended method has one suspension left, at most. *)
Lemma task_bound_step w l w' :
  world_step depth w l w' → Forall (task_bound 1) (tasks w) → Forall (task_bound 1) (tasks w').
Proof.
  intros Hstep Hts.
  inversion Hstep as [? m args s evs o Hrun|? i t a s evs o Hi Hrun| |]; subst; simpl;
    try done.
  - apply Forall_app. split; [done|]. apply task_bound_suspended.
    pose proof (awaits_residual_run 2 _ (plugin w) (awaits_invoke depth m args)) as Ho.
    by rewrite Hrun in Ho.
  - apply Forall_app. split; [by apply Forall_delete|].
    pose proof (task_bound_resume_Forall 0 t a (plugin w)) as Ho.
    rewrite Hrun in Ho. eapply Forall_impl; [apply Ho; by eapply Forall_lookup_1|].
    intros t'. apply task_bound_mono. lia.
Qed.

(** The suspensions left and the number of suspended methods, added up,
    decrease with every answer. *)
Lemma drain_settles ns answers w :
  Forall2 task_bound ns (tasks w) → sum_list ns + length ns ≤ length answers →
  tasks (drain depth answers w) = [].
Proof.
  revert ns w. induction answers as [|a answers IH]; intros ns [s ts ls h] Hns Hlen;
    simpl in *.
  - destruct Hns; simpl in *; [done|lia].
  - destruct Hns as [|n t ns' ts Ht Hns']; simpl in *; [done|].
    destruct (task_bound_resume n t a s Ht) as (ns1 & Hns1 & Hsum).
    destruct (resume (continuation t) a s) as [[s1 evs1] o1]. simpl in *.
    apply (IH (ns' ++ ns1)); simpl.
    + by apply Forall2_app.
    + rewrite sum_list_with_app, length_app. lia.
Qed.

Lemma Forall2_replicate_bound n ts :
  Forall (task_bound n) ts → Forall2 task_bound (replicate (length ts) n) ts.
Proof. induction 1; simpl; by constructor. Qed.

(** ** Theorems *)

(** The computed run is the relation.  [steps_of] returns a world
    exactly when the loop can make the turns of the list one after the other,
    and then returns the world in which they end: the relation [world_step]
    is deterministic and is computed by [step]. *)
Theorem steps_of_spec ls w w' :
  steps_of depth ls w = Some w' ↔ steps (world_step depth) w ls w'.
Proof.
  split; [apply steps_of_sound|]. induction 1 as [|w1 l w2 ls w3 Hstep _ IH]; [done|].
  apply step_world_step in Hstep. simpl. by rewrite Hstep.
Qed.

(** C14: every outstanding call settles when the environment answers.  In
    a world that the plugin can reach, with [n] methods suspended, [2 n]
    answers to the oldest outstanding request, whatever they are, leave no
    method suspended: no call of the plugin waits for ever on an environment
    that answers. *)
Theorem outstanding_calls_settle b w answers :
  reachable (world_step depth) (λ w0, w0 = init_world b) w →
  2 * length (tasks w) ≤ length answers →
  tasks (drain depth answers w) = [].
Proof.
  intros Hw Hlen.
  assert (Forall (task_bound 1) (tasks w)) as Hts.
  { clear Hlen. revert w Hw. apply preserved_reachable; [by intros ? ->|].
    intros w1 l w2 Hw1 Hstep. by eapply task_bound_step. }
  apply (drain_settles (replicate (length (tasks w)) 1)).
  - by apply Forall2_replicate_bound.
  - rewrite length_replicate, sum_list_replicate. lia.
Qed.

(** C21: the gate does not serialise the calls of a guarded method.  The
    flag is set by the backend's notification, not by the call: on the
    desktop, with the flag clear, any number of calls of [code_generation]
    made before the notification arrives each reach the backend, and all of
    them are outstanding at once. *)
Theorem gate_admits_concurrent_calls w prompts :
  isOnDesktop (plugin w) = true → isInferencing (plugin w) = false →
  ∃ w', steps (world_step depth) w (map (λ p, Call m_code_generation [p]) prompts) w' ∧
        plugin w' = plugin w ∧
        awaited <$> tasks w' =
          (awaited <$> tasks w) ++ map (λ p, DesktopCall "code_generation" [p]) prompts.
Proof.
  revert w. induction prompts as [|p prompts IH]; intros w Hd Hb; simpl.
  - exists w. split; [constructor|]. by rewrite app_nil_r.
  - assert (∃ k, run (invoke depth m_code_generation [p]) (plugin w) =
      (plugin w, [Asked (DesktopCall "code_generation" [p])],
       Pending (DesktopCall "code_generation" [p]) k)) as [k Hrun].
    { eexists. unfold invoke, method_body. by eval_run. }
    destruct (IH (next w (tasks w ++ suspended (Pending (DesktopCall "code_generation" [p]) k))
                       (plugin w) [Asked (DesktopCall "code_generation" [p])]))
      as (w' & Hsteps & Hp & Hts); [done..|].
    exists w'. split; [|split; [done|]].
    + econstructor; [|done]. by constructor.
    + rewrite Hts. simpl. by rewrite fmap_app, <-app_assoc.
Qed.

(** The scenario of the specification, in the loop.  A new plugin on
    the desktop is asked to stage [solidity_answer], then to stage a second
    request, then to flush, then whether a request is pending.  The composer
    receives "Answer the following question" and nothing else; the second
    stage only logs; the flush asks the agent to rewrite the stored prompt and
    leaves the slot empty and one method suspended on the agent's answer. *)
Theorem specification_scenario prompt context fn' prompt' :
  let w := world_after (S depth) true
    [Call m_chatPipe [Prim (Str "solidity_answer"); prompt; context];
     Call m_chatPipe [fn'; prompt'];
     Call m_ProcessChatRequestBuffer [];
     Call m_isChatRequestPending []] in
  history w =
    [Did (ComposerSend (Str "Answer the following question"));
     Did (ConsoleLog buffer_not_empty);
     Asked (ChatCommand prompt)] ∧
  chatRequestBuffer (plugin w) = None ∧
  awaited <$> tasks w = [ChatCommand prompt].
Proof. done. Qed.

End settle.

(** ** Witnesses *)

#[local] Existing Instance remix_ai_core.

Lemma outstanding_calls_settle_witness :
  tasks (drain 1 [inr (Prim (Str "rewritten")); inr (Prim (Str "answer"))]
           (world_after 1 true [Call m_solidity_answer [Prim (Str "What is a mapping?")]]))
    = [].
Proof.
  apply (outstanding_calls_settle 1 true); [apply world_after_reachable|].
  vm_compute. lia.
Defined.

Lemma gate_admits_concurrent_calls_witness :
  ∃ w', steps (world_step 1) (init_world true)
          (map (λ p, Call m_code_generation [p]) [Prim (Str "a"); Prim (Str "b")]) w' ∧
        plugin w' = plugin (init_world true) ∧
        awaited <$> tasks w' =
          (awaited <$> tasks (init_world true)) ++
          map (λ p, DesktopCall "code_generation" [p]) [Prim (Str "a"); Prim (Str "b")].
Proof. by apply gate_admits_concurrent_calls. Defined.
