(* ===== verification/Invariants.v ===== *)
(** * Invariants of all interleavings

    Two protocols that every method of [RemixAIPlugin] follows, and what
    they give in every world that the plugin can reach, whatever the calls,
    the answers and the events, and in whatever order.

    - [mode_protocol]: the mode flag [isOnDesktop] is the one of the
      constructor; the desktop plugin never holds a remote inferencer; in
      the browser an activated plugin holds one; activation is never
      undone; and every request goes to the backend of the mode.
    - [gate_protocol]: no method writes [isInferencing].  The callbacks of
      [onInference] and [onInferenceDone] are the only code that does, so
      the flag is what the last notification made it, and a flag that is
      set means that a callback has been registered.  That a flag that is
      set stays set until [onInferenceDone] is delivered is shown in
      [GateLoop], where the delivered signals of a run are defined. *)

From S2P Require Import Prelude JsValue Proc Plugin Gate Lifecycle Slot Settle EventLoop.

(** ** Definitions *)

(** The requests that a plugin of mode [b] may issue: to the desktop plugin
    on the desktop, to the remote inferencer in the browser, and to the agent
    in both. *)
Definition mode_event (b : bool) (e : event effect request) : Prop :=
  match e with
  | Asked (DesktopCall _ _) => b = true
  | Asked (RemoteCall _ _ _) => b = false
  | _ => True
  end.

Definition mode_protocol (b : bool) : Protocol :=
  {| invariant s :=
       isOnDesktop s = b ∧ (b = true → remoteInferencer s = None) ∧
       (b = false → aiIsActivated s = true → is_Some (remoteInferencer s));
     guarantee s s' :=
       (aiIsActivated s = true → aiIsActivated s' = true) ∧
       (is_Some (remoteInferencer s) → is_Some (remoteInferencer s'));
     permitted := mode_event b |}.

Definition gate_protocol : Protocol :=
  {| invariant _ := True;
     guarantee s s' := isInferencing s' = isInferencing s;
     permitted _ := True |}.

Arguments mode_protocol : simpl never.
Arguments gate_protocol : simpl never.

(** The turns that run a callback of the busy flag. *)
Definition is_lifecycle (l : label) : bool :=
  match l with
  | Notify _ ev _ => String.eqb ev "onInference" || String.eqb ev "onInferenceDone"
  | _ => false
  end.

(** The turns that deliver the end of an inference. *)
Definition is_done (l : label) : bool :=
  match l with
  | Notify _ ev _ => String.eqb ev "onInferenceDone"
  | _ => false
  end.

(** The worlds that a plugin constructed with [inDesktop] can reach. *)
Definition live `{RemixAICore} (depth : nat) (inDesktop : bool) : world → Prop :=
  reachable (world_step depth) (λ w, w = init_world inDesktop).

(** A browser session, for the witnesses: activation, a question to the
    assistant, the start of the inference, and the agent's answer. *)
Definition browser_session : list label :=
  [Call m_onActivation [];
   Call m_solidity_answer [Prim (Str "What is a mapping?")];
   Notify Remote "onInference" Undefined;
   Answer 0 (inr (Prim (Str "Explain mappings.")))].

#[export] Instance gate_guarantee_preorder : PreOrder (guarantee gate_protocol).
Proof. split; [done|]. intros s1 s2 s3; simpl; congruence. Qed.

#[export] Instance mode_guarantee_preorder b : PreOrder (guarantee (mode_protocol b)).
Proof. split; [done|]. intros s1 s2 s3 [??] [??]; split; auto. Qed.

(** ** The methods follow the protocols *)

Section methods.
Context `{RemixAICore}.
Implicit Types (s : RemixAIPlugin) (m : method) (b : bool).

Lemma mode_direct b call m args s :
  m ≠ m_ProcessChatRequestBuffer → invariant (mode_protocol b) s →
  respects (mode_protocol b) (method_body call m args) s.
Proof. intros Hm Hs. destruct m; try done; protocol_tac mode_protocol. Qed.

Lemma gate_direct call m args s :
  m ≠ m_ProcessChatRequestBuffer → invariant gate_protocol s →
  respects gate_protocol (method_body call m args) s.
Proof. intros Hm Hs. destruct m; try done; protocol_tac gate_protocol. Qed.

#[export] Instance mode_followed b : followed (mode_protocol b).
Proof. split; [by split|apply mode_direct]. Qed.

#[export] Instance gate_followed : followed gate_protocol.
Proof. split; [by split|apply gate_direct]. Qed.

Lemma mode_handler b src ev payload cb s :
  handler src ev payload = Some cb → invariant (mode_protocol b) s →
  respects (mode_protocol b) cb s.
Proof.
  unfold handler. intros Hcb Hs. repeat case_match; simplify_eq; protocol_tac mode_protocol.
Qed.

(** The callbacks other than those of the busy flag do not write it. *)
Lemma gate_handler src ev payload cb s :
  is_lifecycle (Notify src ev payload) = false →
  handler src ev payload = Some cb → respects gate_protocol cb s.
Proof.
  unfold handler, is_lifecycle. intros [-> ->]%orb_false_iff Hcb.
  repeat case_match; simplify_eq; protocol_tac gate_protocol.
Qed.

End methods.

(** ** The worlds keep the protocols *)

Section worlds.
Context `{RemixAICore} (depth : nat).
Implicit Types (w : world) (l : label) (b : bool).

Lemma world_step_notify_tasks w src ev payload w' :
  world_step depth w (Notify src ev payload) w' → tasks w' = tasks w.
Proof. by inversion 1. Qed.

Lemma world_step_listeners w l w' : world_step depth w l w' → listeners w ⊆ listeners w'.
Proof. inversion 1; simpl; set_solver. Qed.

(** The callbacks of a world are those that the events of its history
    registered, in their order. *)
Lemma world_step_registered w l w' :
  world_step depth w l w' → listeners w = registered (history w) →
  listeners w' = registered (history w').
Proof.
  inversion 1; simpl; [..|done]; intros ->; unfold registered; by rewrite omap_app.
Qed.

Lemma live_registered b w : live depth b w → listeners w = registered (history w).
Proof.
  apply (preserved_reachable _ _ (λ w0, listeners w0 = registered (history w0)));
    [by intros ? ->|].
  intros w1 l w2 Hw1 Hstep. by eapply world_step_registered.
Qed.

Lemma mode_step b w l w' :
  world_step depth w l w' → world_ok (mode_protocol b) w →
  world_ok (mode_protocol b) w' ∧ guarantee (mode_protocol b) (plugin w) (plugin w').
Proof.
  intros Hstep Hw.
  destruct (world_step_ok (mode_protocol b) depth w l w')
    as [Hw' Hg]; [eauto using mode_handler|done|done|].
  split; [done|]. by apply (rtc_preorder _).
Qed.

Lemma mode_live b w : live depth b w → world_ok (mode_protocol b) w.
Proof.
  apply preserved_reachable.
  - intros ? ->. apply world_ok_init. by destruct b.
  - intros w1 l w2 Hw1 Hstep. by apply (mode_step b w1 l w2).
Qed.

(** A turn that is not a notification of the busy flag leaves the flag as
    it is. *)
Lemma gate_step w l w' :
  is_lifecycle l = false → world_step depth w l w' → world_ok gate_protocol w →
  world_ok gate_protocol w' ∧ isInferencing (plugin w') = isInferencing (plugin w).
Proof.
  intros Hl Hstep Hw.
  destruct (world_step_ok gate_protocol depth w l w')
    as [Hw' Hg]; [|done|done|].
  { intros src ev payload cb s -> Hcb _. by eapply gate_handler. }
  split; [done|]. by apply (rtc_preorder _) in Hg.
Qed.

Lemma gate_tasks_step w l w' :
  world_step depth w l w' → world_ok gate_protocol w → world_ok gate_protocol w'.
Proof.
  intros Hstep Hw. destruct (is_lifecycle l) eqn:Hl; [|by eapply gate_step].
  destruct l as [| |src ev payload]; try done.
  destruct Hw as (_ & Hts & _). split_and!; [done| |by apply Forall_true].
  by rewrite (world_step_notify_tasks _ _ _ _ _ Hstep).
Qed.

Lemma gate_live b w : live depth b w → world_ok gate_protocol w.
Proof.
  apply preserved_reachable.
  - intros ? ->. by apply world_ok_init.
  - intros w1 l w2 Hw1 Hstep. by eapply gate_tasks_step.
Qed.

(** A notification of the busy flag other than [onInferenceDone] leaves a
    flag that is set as it is. *)
Lemma notify_keeps_busy w l w' :
  is_lifecycle l = true → is_done l = false → world_step depth w l w' →
  isInferencing (plugin w) = true → isInferencing (plugin w') = true.
Proof.
  destruct l as [| |src ev payload]; try done. unfold is_lifecycle, is_done.
  intros Hl Hd Hstep Hb. rewrite Hd, orb_false_r in Hl.
  inversion Hstep as [| |? ? ? ? cb s evs o Hin Hcb Hrun|]; subst; [|done].
  unfold handler in Hcb. rewrite Hl in Hcb. by simplify_eq/=.
Qed.

(** The flag is set by a registered callback of [onInference] only. *)
Lemma busy_listener_step w l w' :
  world_step depth w l w' → world_ok gate_protocol w →
  (isInferencing (plugin w) = true → ∃ src, (src, "onInference") ∈ listeners w) →
  isInferencing (plugin w') = true → ∃ src, (src, "onInference") ∈ listeners w'.
Proof.
  intros Hstep Hw Hb Hb'. destruct (is_lifecycle l) eqn:Hlife.
  - destruct l as [| |src ev payload]; try done.
    inversion Hstep as [| |? ? ? ? cb s evs o Hin Hcb Hrun|]; subst; [|by auto].
    unfold is_lifecycle in Hlife. unfold handler in Hcb.
    destruct (String.eqb ev "onInference") eqn:Hev.
    + apply String.eqb_eq in Hev as ->. exists src. simpl. set_solver.
    + simpl in Hlife. rewrite Hlife in Hcb. by simplify_eq/=.
  - destruct (gate_step w l w') as [_ Heq]; [done..|].
    destruct Hb as [src Hsrc]; [congruence|]. exists src.
    by eapply world_step_listeners.
Qed.

(** In every world that the plugin can reach with the flag set, a callback
    of [onInference] is registered. *)
Lemma busy_listener_live b w :
  live depth b w → isInferencing (plugin w) = true →
  ∃ src, (src, "onInference") ∈ listeners w.
Proof.
  intros Hw.
  cut (world_ok gate_protocol w ∧
       (isInferencing (plugin w) = true → ∃ src, (src, "onInference") ∈ listeners w));
    [by intros [_ ?]|].
  revert w Hw. apply preserved_reachable.
  - intros ? ->. split; [by apply world_ok_init|done].
  - intros w1 l w2 [Hw1 Hb1] Hstep.
    split; [by eapply gate_tasks_step|by eapply busy_listener_step].
Qed.

(** ** Theorems *)

(** C9: the two backends are mutually exclusive.  In every world that a
    plugin constructed with [inDesktop = b] can reach, [isOnDesktop] is [b],
    a desktop plugin holds no remote inferencer, and every request emitted so
    far went to the backend that [b] selects or to the agent: no interleaving
    of calls, answers and events makes the plugin use both backends. *)
Theorem backends_exclusive b w :
  live depth b w →
  isOnDesktop (plugin w) = b ∧ (b = true → remoteInferencer (plugin w) = None) ∧
  Forall (mode_event b) (history w).
Proof. intros ((? & ? & _) & _ & ?)%mode_live. done. Qed.

(** C29: in the browser an activated plugin can serve.  In every reachable
    world in which [aiIsActivated] is set the remote inferencer has been
    constructed, so that [code_generation], [code_completion] and
    [code_insertion] issue their request to it instead of throwing a
    [TypeError] on [null]. *)
Theorem activated_browser_forwards w op args env :
  live depth false w → aiIsActivated (plugin w) = true →
  is_relay op = true → (guarded op = true → isInferencing (plugin w) = false) →
  ∃ inf, remoteInferencer (plugin w) = Some inf ∧
    exec env (perform op args) (plugin w) =
      (plugin w, [Asked (RemoteCall inf (operation_name op) (forwarded_args op args).2)],
       env (RemoteCall inf (operation_name op) (forwarded_args op args).2)).
Proof.
  intros ((Hd & _ & Hinf) & _)%mode_live Ha Hop Hg.
  destruct (Hinf eq_refl Ha) as [inf Hsome]. exists inf. split; [done|].
  rewrite exec_relay by done. unfold backend_request. simpl in Hd. by rewrite Hd, Hsome.
Qed.

(** Activation is permanent.  No call, answer or event resets
    [aiIsActivated] once it is set. *)
Theorem activation_is_permanent b w ls w' :
  live depth b w → steps (world_step depth) w ls w' →
  aiIsActivated (plugin w) = true → aiIsActivated (plugin w') = true.
Proof.
  intros Hw%mode_live Hsteps Ha.
  cut (world_ok (mode_protocol b) w' ∧ aiIsActivated (plugin w') = true); [by intros [_ ?]|].
  eapply (preserved_steps (world_step depth)
            (λ w0, world_ok (mode_protocol b) w0 ∧ aiIsActivated (plugin w0) = true));
    [|done|done].
  intros w1 l w2 [Hw1 Ha1] Hstep. destruct (mode_step b w1 l w2) as (? & Hg & _); auto.
Qed.

(** C10: the busy flag is written by the backend's notifications only.
    Along any run without an event [onInference] or [onInferenceDone] of an
    emitter, heard or not, whatever the methods called and the answers
    received,
    [isInferencing] keeps its value: no caller sets or clears the gate. *)
Theorem gate_written_by_notifications_only b w ls w' :
  live depth b w → steps (world_step depth) w ls w' →
  Forall (λ l, is_lifecycle l = false) ls →
  isInferencing (plugin w') = isInferencing (plugin w).
Proof.
  intros Hw%gate_live Hsteps Hls.
  cut (world_ok gate_protocol w' ∧ isInferencing (plugin w') = isInferencing (plugin w));
    [by intros [_ ?]|].
  eapply (preserved_steps_allowed (world_step depth) (λ l, is_lifecycle l = false)
            (λ w0, world_ok gate_protocol w0 ∧
                   isInferencing (plugin w0) = isInferencing (plugin w)));
    [|done|done|done].
  intros w1 l w2 Hl [Hw1 Hb1] Hstep.
  destruct (gate_step w1 l w2) as [? Hb2]; [done..|]. split; [done|congruence].
Qed.

(** C32: the gate closes only for a plugin that listens.  In every
    reachable world in which [isInferencing] is set, a callback for
    [onInference] has been registered: a plugin whose [initialize] registered
    no listener, as on the desktop when [initializeModelBackend] answers a
    falsy value, never refuses a call. *)
Theorem busy_needs_listener b w :
  live depth b w → isInferencing (plugin w) = true →
  ∃ src, (src, "onInference") ∈ listeners w.
Proof. apply busy_listener_live. Qed.

End worlds.

(** ** Witnesses *)

#[local] Existing Instance remix_ai_core.

Lemma backends_exclusive_witness :
  isOnDesktop (plugin (world_after 1 false browser_session)) = false ∧
  (false = true → remoteInferencer (plugin (world_after 1 false browser_session)) = None) ∧
  Forall (mode_event false) (history (world_after 1 false browser_session)).
Proof. apply (backends_exclusive 1 false), world_after_reachable. Defined.

Lemma activated_browser_forwards_witness :
  ∃ inf, remoteInferencer (plugin (world_after 1 false [Call m_onActivation []])) = Some inf ∧
    exec (λ _, inr (Prim (Str "}"))) (perform op_code_completion [Prim (Str "contract C {")])
         (plugin (world_after 1 false [Call m_onActivation []])) =
      (plugin (world_after 1 false [Call m_onActivation []]),
       [Asked (RemoteCall inf (operation_name op_code_completion)
                 (forwarded_args op_code_completion [Prim (Str "contract C {")]).2)],
       inr (Prim (Str "}"))).
Proof.
  apply (activated_browser_forwards 1 (world_after 1 false [Call m_onActivation []])
           op_code_completion [Prim (Str "contract C {")] (λ _, inr (Prim (Str "}"))));
    [apply world_after_reachable|done..].
Defined.

Lemma activation_is_permanent_witness :
  aiIsActivated (plugin (world_after 1 false browser_session)) = true.
Proof.
  apply (activation_is_permanent 1 false (world_after 1 false [Call m_onActivation []])
           (tail browser_session));
    [apply world_after_reachable|by apply steps_of_sound|done].
Defined.

Lemma gate_written_by_notifications_only_witness :
  isInferencing (plugin (world_after 1 true
    [Call m_code_generation [Prim (Str "a")]; Answer 0 (inr (Prim (Str "b")))]))
  = isInferencing (plugin (init_world true)).
Proof.
  apply (gate_written_by_notifications_only 1 true (init_world true)
           [Call m_code_generation [Prim (Str "a")]; Answer 0 (inr (Prim (Str "b")))]);
    [by apply reachable_init|by apply steps_of_sound|by repeat constructor].
Defined.

Lemma busy_needs_listener_witness :
  ∃ src, (src, "onInference") ∈ listeners (world_after 1 false browser_session).
Proof. apply (busy_needs_listener 1 false); [apply world_after_reachable|done]. Defined.

(** [initialize] can be called again: in the browser every call builds an
    inferencer and registers the two callbacks on it.  The plugin holds the
    last inferencer, and the callbacks of the first are still registered. *)
Example reinitialize_registers_again :
  let w := world_after 1 false
    [Call m_initialize [Prim Undefined; Prim Undefined; Obj [("apiUrl", Str "https://a")]];
     Call m_initialize [Prim Undefined; Prim Undefined; Obj [("apiUrl", Str "https://b")]]] in
  remoteInferencer (plugin w) =
    Some {| api_url := Str "https://b"; completion_url := Undefined |} ∧
  listeners w = [(Remote, "onInference"); (Remote, "onInferenceDone");
                 (Remote, "onInference"); (Remote, "onInferenceDone")].
Proof. done. Qed.
