(* ===== verification/Signals.v ===== *)
(** * The callbacks of the two signals

    A backend announces the start of an inference with [onInference] and its
    end with [onInferenceDone]; the plugin closes the busy gate in the
    callback of the first and opens it in the callback of the second.
    [initialize] registers the two callbacks one after the other, in the
    browser on the remote inferencer and on the desktop, after the backend
    has answered, on the desktop plugin.  No other method registers either.

    This file shows that the two are registered together in every world that
    the plugin can reach: whatever is called, flushed, answered or signalled,
    a plugin that hears the start of an inference of an emitter hears its end
    ([paired_live]).  The property is one of the trace of a whole segment,
    whose two registrations are two events, so it is proved with
    [Proc.segmented] and not with a protocol, which constrains one event at a
    time. *)

From stdpp Require Import finite.
From S2P Require Import Prelude JsValue Proc Plugin Gate Lifecycle Slot Settle EventLoop.
From S2P Require Import Invariants.

(** ** Definitions *)

#[export] Instance emitter_eq_dec : EqDecision emitter.
Proof. solve_decision. Defined.

#[export, refine] Instance emitter_finite : Finite emitter := {| enum := [Desktop; Remote] |}.
Proof.
  - by repeat constructor; set_solver.
  - intros []; set_solver.
Defined.

(** The callbacks of [onInference] and of [onInferenceDone] are registered
    with the same emitters. *)
Definition signals_paired (ls : list (emitter * string)) : Prop :=
  ∀ src, (src, "onInference") ∈ ls ↔ (src, "onInferenceDone") ∈ ls.

#[export] Instance signals_paired_dec ls : Decision (signals_paired ls).
Proof. unfold signals_paired. apply _. Defined.

(** A segment that registers the two callbacks together, or neither. *)
Definition paired (evs : trace) : Prop := signals_paired (registered evs).

#[export] Instance paired_dec evs : Decision (paired evs).
Proof. unfold paired. apply _. Defined.

Arguments paired : simpl never.

(** A dynamic call whose segments, and those of the promise that it returns,
    register the two callbacks together. *)
Definition call_paired (call : value → list value → M (M value)) : Prop :=
  ∀ name args,
    segmented paired [] (call name args) ∧ returns (segmented paired []) (call name args).

(** A suspended method whose segments register the two callbacks together. *)
Definition task_paired (t : task) : Prop := ∀ v, segmented paired [] (continuation t v).

(** [paired_tac] proves that a computation that is written out registers
    the two callbacks together, in every segment. *)
Ltac paired_tac :=
  repeat match goal with
         | |- paired _ => solve_by_compute
         | |- _ ∧ _ => split
         | |- ∀ _, _ => intros ?
         | _ => progress unfold lift, echo, setRemixAIOnSidePannel
         | _ => case_match
         | _ => progress simpl
         end.

(** ** Traces *)

Lemma registered_app evs evs' : registered (evs ++ evs') = registered evs ++ registered evs'.
Proof. apply omap_app. Qed.

Lemma signals_paired_app ls ls' :
  signals_paired ls → signals_paired ls' → signals_paired (ls ++ ls').
Proof. intros Hl Hl' src. rewrite !elem_of_app, (Hl src), (Hl' src). done. Qed.

#[export] Instance paired_composable : Composable paired.
Proof.
  split; [solve_by_compute|]. intros evs evs'. unfold paired.
  rewrite registered_app. apply signals_paired_app.
Qed.

(** ** Every method registers the two callbacks together *)

Section methods.
Context `{RemixAICore}.

Lemma paired_direct call m args :
  m ≠ m_ProcessChatRequestBuffer → segmented paired [] (method_body call m args).
Proof. intros Hm. destruct m; try done; unfold method_body; paired_tac. Qed.

Lemma paired_flush call params :
  call_paired call → segmented paired [] (ProcessChatRequestBuffer call params).
Proof.
  intros Hcall. unfold ProcessChatRequestBuffer. simpl. intros s.
  destruct (chatRequestBuffer s) as [b|]; [|by paired_tac].
  change (bind ?t ?f) with (t ≫= f).
  destruct (Hcall (fn_name b) [prompt b; context b; default_param GenerationParams params])
    as [Hseg Hret].
  apply (segmented_bind_returns paired (segmented paired [])); [done|done|].
  intros u Hu. simpl. by intros.
Qed.

Lemma paired_method_body call m args :
  call_paired call → segmented paired [] (method_body call m args).
Proof.
  intros Hcall. destruct (decide (m = m_ProcessChatRequestBuffer)) as [->|];
    [by apply paired_flush|by apply paired_direct].
Qed.

Lemma call_paired_call_method depth : call_paired (call_method depth).
Proof.
  assert (∀ e, segmented paired [] (throw e : M (M value)) ∧
               returns (segmented paired []) (throw e : M (M value))) as Hthrow.
  { split; [apply composable_nil|done]. }
  induction depth as [|depth IH]; intros name args; [apply Hthrow|]. simpl.
  destruct (method_of_value name) as [m|]; [|apply Hthrow].
  pose proof (paired_method_body (call_method depth) m args IH) as Hm.
  destruct (is_async m); [by apply (segmented_spawn paired)|].
  unfold sync_call. split.
  - apply (segmented_bind paired); [done|]. intros v. apply composable_nil.
  - eapply returns_bind; [apply returns_True|]. intros v _. apply composable_nil.
Qed.

Lemma paired_invoke depth m args : segmented paired [] (invoke depth m args).
Proof. apply paired_method_body, call_paired_call_method. Qed.

Lemma paired_handler src ev payload cb :
  handler src ev payload = Some cb → segmented paired [] cb.
Proof. unfold handler. intros Hcb. repeat case_match; simplify_eq; paired_tac. Qed.

End methods.

(** ** Every world registers the two callbacks together *)

Section worlds.
Context `{RemixAICore} (depth : nat).
Implicit Types (w : world) (l : label).

(** What a segment that registers the two together emits and leaves
    suspended. *)
Lemma paired_run (t : M value) s :
  segmented paired [] t →
  paired (run t s).1.2 ∧ Forall task_paired (suspended (run t s).2).
Proof.
  intros [Hevs Ho]%(segmented_run paired [] t s). split; [done|].
  destruct (run t s).2 as [| |r k]; simpl in *; [done|done|].
  constructor; [|done]. by destruct Ho.
Qed.

Lemma paired_next w ts s evs :
  signals_paired (listeners w) → paired evs → signals_paired (listeners (next w ts s evs)).
Proof. apply signals_paired_app. Qed.

Lemma paired_step w l w' :
  world_step depth w l w' →
  signals_paired (listeners w) ∧ Forall task_paired (tasks w) →
  signals_paired (listeners w') ∧ Forall task_paired (tasks w').
Proof.
  intros Hstep [Hl Hts].
  inversion Hstep as [? m args s evs o Hrun|? i t a s evs o Hi Hrun
                     |? src ev payload cb s evs o Hin Hcb Hrun|]; subst; [| | |done].
  - destruct (paired_run _ (plugin w) (paired_invoke depth m args)) as [Hevs Ho].
    rewrite Hrun in Hevs, Ho. split; [by apply paired_next|by apply Forall_app].
  - assert (task_paired t) as Ht by (eapply Forall_lookup_1; eauto).
    destruct a as [e|v]; simpl in Hrun; simplify_eq.
    { split; [by apply paired_next, composable_nil|].
      rewrite app_nil_r. by apply Forall_delete. }
    destruct (paired_run _ (plugin w) (Ht v)) as [Hevs Ho].
    rewrite Hrun in Hevs, Ho. split; [by apply paired_next|].
    apply Forall_app. split; [by apply Forall_delete|done].
  - destruct (segmented_run paired [] _ (plugin w) (paired_handler src ev payload cb Hcb))
      as [Hevs _].
    rewrite Hrun in Hevs. split; [by apply paired_next|done].
Qed.

(** In every world that the plugin can reach, the plugin hears the end of
    an inference of every emitter of which it hears the start, and the start
    of every one of which it hears the end. *)
Lemma paired_live b w : live depth b w → signals_paired (listeners w).
Proof.
  intros Hw.
  cut (signals_paired (listeners w) ∧ Forall task_paired (tasks w)); [by intros [? _]|].
  revert w Hw. apply preserved_reachable.
  - intros ? ->. split; [solve_by_compute|constructor].
  - intros w1 l w2 Hw1 Hstep. by apply (paired_step w1 l w2).
Qed.

End worlds.
