(* ===== verification/Resumption.v ===== *)
(** * What a method does after it has been suspended

    A method of [RemixAIPlugin] runs to its first [await] in the turn of its
    call, and the rest of it runs in later turns, between whatever else the
    loop has done meanwhile.  The protocols of [EventLoop] speak of a whole
    method.  This file speaks of the part after the first suspension
    ([Proc.later]), which obeys more than the whole: the first segment of a
    flush writes the slot and the first segment of a guarded method asks a
    backend, and no resumption does either.

    The first part is generic.  A property of computations is
    [suspended_with] when what is left of every method that is written out
    has it after the first suspension; what is left of a flush then has it
    too, through the dynamic call at every depth of the stack
    ([later_invoke]).  A protocol is [resumed] when following it is such a
    property; every suspended method of every world that the plugin can
    reach then follows it ([tasks_ok_reachable]).  [SlotLoop] instantiates
    the class with the protocol of the slot, [Noninterference] the property
    with the computations that do not read the busy flag.

    The second part is the frame of a resumption, [resumption_protocol]: the
    only field that a resumed method writes is [aiIsActivated], which it
    sets; the only request that it issues is the one of [solidity_answer];
    and the only callbacks that it registers are those of the desktop
    plugin. *)

From S2P Require Import Prelude JsValue Proc Plugin Gate Lifecycle Slot Settle EventLoop.
From S2P Require Import Invariants.

(** ** Definitions *)

(** A computation that follows [Π] in every state in which the invariant
    holds. *)
Definition obeys (Π : Protocol) (u : M value) : Prop :=
  ∀ s, invariant Π s → respects Π u s.

(** A dynamic call that returns at once, with a promise that has [P] once
    it has been suspended. *)
Definition call_later (P : M value → Prop) (call : value → list value → M (M value)) : Prop :=
  ∀ name args, awaits 0 (call name args) ∧ returns (later P) (call name args).

(** A property that what is left of every method but the flush has after
    the first suspension. *)
Class suspended_with `{RemixAICore} (P : M value → Prop) : Prop :=
  later_direct call m args :
    m ≠ m_ProcessChatRequestBuffer → later P (method_body call m args).

(** A protocol of resumptions: one that every method but the flush follows
    after its first suspension, and that constrains writes and events, not
    states. *)
Class resumed `{RemixAICore} (Π : Protocol) : Prop := {
  resumed_invariant s : invariant Π s;
  resumed_obeys :: suspended_with (obeys Π)
}.

(** [later_tac Π] proves that a method that is written out follows [Π] after
    its first suspension. *)
Ltac later_tac Π :=
  unfold method_body, obeys;
  repeat first [ progress (simpl; intros)
               | progress unfold lift, echo, setRemixAIOnSidePannel
               | case_match ];
  try done; protocol_tac Π.

(** The method that a request asks of a backend. *)
Definition request_method (e : event effect request) : option string :=
  match e with
  | Asked (DesktopCall name _) | Asked (RemoteCall _ name _) => Some name
  | _ => None
  end.

(** The events of a resumed method: the request of [solidity_answer], to
    the backend of the mode, and the callbacks of the desktop plugin. *)
Definition resumed_event (e : event effect request) : Prop :=
  match e with
  | Asked (DesktopCall name _) | Asked (RemoteCall _ name _) => name = "solidity_answer"
  | Asked (ChatCommand _) => False
  | Did (TerminalLog type _) => type = "aitypewriterwarning"
  | Did (Listen src _) => src = Desktop
  | Did _ => False
  end.

(** The frame of a resumption: it writes [aiIsActivated] or nothing. *)
Definition resumption_protocol : Protocol :=
  {| invariant _ := True;
     guarantee s s' := s' = s ∨ s' = set_aiIsActivated true s;
     permitted := resumed_event |}.

Arguments resumption_protocol : simpl never.

#[export] Instance resumption_guarantee_preorder : PreOrder (guarantee resumption_protocol).
Proof.
  split; [by left|].
  intros s1 s2 s3 [->| ->] [->| ->]; [by left|by right|by right|right; by destruct s1].
Qed.

(** ** A suspended method that is resumed *)

Section task.
Context `{RemixAICore} (Π : Protocol).

Lemma resume_task_ok t a s :
  task_ok Π t → invariant Π s →
  rtc (guarantee Π) s (resume (continuation t) a s).1.1 ∧
  Forall (permitted Π) (resume (continuation t) a s).1.2 ∧
  invariant Π (resume (continuation t) a s).1.1 ∧
  Forall (task_ok Π) (suspended (resume (continuation t) a s).2).
Proof.
  intros Ht Hs.
  assert (respects Π (Wait (awaited t) (continuation t)) s) as Hw.
  { split; [done|]. intros v s' Hs'. by apply Ht. }
  destruct (wp_resume Π _ (awaited t) (continuation t) a s s Hw Hs) as (Hg & Hevs & Ho).
  eauto 6 using task_ok_suspended, respects_residual.
Qed.

End task.

(** ** What is left of a call, at every depth of the stack *)

Section later.
Context `{RemixAICore} (P : M value → Prop) `{!suspended_with P}.

Lemma later_flush call params :
  call_later P call → later P (ProcessChatRequestBuffer call params).
Proof.
  intros Hcall. unfold ProcessChatRequestBuffer. simpl. intros s.
  destruct (chatRequestBuffer s) as [b|]; [|done].
  change (bind ?t ?f) with (t ≫= f).
  destruct (Hcall (fn_name b) [prompt b; context b; default_param GenerationParams params])
    as [H0 Hret].
  apply later_bind; [by apply awaits_0_later|].
  eapply returns_mono; [|done]. intros u Hu. simpl. auto.
Qed.

Lemma later_method_body call m args :
  call_later P call → later P (method_body call m args).
Proof.
  intros Hcall. destruct (decide (m = m_ProcessChatRequestBuffer)) as [->|];
    [by apply later_flush|by apply later_direct].
Qed.

Lemma call_later_call_method depth : call_later P (call_method depth).
Proof.
  induction depth as [|depth IH]; intros name args; [done|]. simpl.
  destruct (method_of_value name) as [m|]; [|done].
  destruct (is_async m) eqn:Hm.
  - split; [apply awaits_spawn|]. by apply returns_spawn_later, later_method_body.
  - unfold sync_call. split.
    + apply (awaits_bind 0 0); [by apply awaits_sync|done].
    + eapply returns_bind; [apply returns_True|]. by intros.
Qed.

Lemma later_invoke depth m args : later P (invoke depth m args).
Proof. apply later_method_body, call_later_call_method. Qed.

End later.

(** ** Every method follows a protocol of resumptions once suspended *)

Section resumed.
Context `{RemixAICore} (Π : Protocol) `{!resumed Π}.
Implicit Types (w : world) (l : label).

Lemma task_ok_later o :
  later (obeys Π) (residual o) → Forall (task_ok Π) (suspended o).
Proof.
  destruct o as [| |r k]; simpl; [done|done|]. intros Hk.
  constructor; [|done]. intros v s Hs. by apply Hk.
Qed.

(** Every turn leaves the suspended methods within the protocol, and a
    resumption is within it. *)
Lemma tasks_ok_step depth w l w' :
  world_step depth w l w' → Forall (task_ok Π) (tasks w) →
  Forall (task_ok Π) (tasks w') ∧
  (is_Some (match l with Answer i _ => Some i | _ => None end) →
   rtc (guarantee Π) (plugin w) (plugin w') ∧ Forall (permitted Π) (emitted w w')).
Proof.
  intros Hstep Hts.
  inversion Hstep as [? m args s evs o Hrun|? i t a s evs o Hi Hrun| |]; subst;
    [|  |by split; [|intros []]..].
  - split; [|by intros []]. apply Forall_app. split; [done|]. apply task_ok_later.
    pose proof (later_residual_run (obeys Π) _ (plugin w)
                  (later_invoke (obeys Π) depth m args)) as Ho.
    by rewrite Hrun in Ho.
  - assert (task_ok Π t) as Ht by (eapply Forall_lookup_1; eauto).
    destruct (resume_task_ok Π t a (plugin w) Ht (resumed_invariant _)) as (Hg & Hevs & _ & Ho).
    rewrite Hrun in Hg, Hevs, Ho. rewrite emitted_next. simpl in *. split; [|done].
    apply Forall_app. split; [by apply Forall_delete|done].
Qed.

Lemma tasks_ok_reachable depth b w : live depth b w → Forall (task_ok Π) (tasks w).
Proof.
  apply (preserved_reachable _ _ (λ w0, Forall (task_ok Π) (tasks w0))).
  - by intros ? ->.
  - intros w1 l w2 Hw1 Hstep. by apply (tasks_ok_step depth w1 l w2).
Qed.

End resumed.

(** ** The frame of a resumption *)

Section resumption.
Context `{RemixAICore} (depth : nat).
Implicit Types (w : world) (b : bool).

#[export] Instance resumption_resumed : resumed resumption_protocol.
Proof.
  split; [done|]. intros call m args Hm. destruct m; try done; later_tac resumption_protocol.
Qed.

Lemma world_step_resumption b w i a w' :
  live depth b w → world_step depth w (Answer i a) w' →
  (plugin w' = plugin w ∨ plugin w' = set_aiIsActivated true (plugin w)) ∧
  Forall resumed_event (emitted w w').
Proof.
  intros Hw Hstep.
  destruct (tasks_ok_step resumption_protocol depth w (Answer i a) w' Hstep) as [_ Hres];
    [by apply (tasks_ok_reachable resumption_protocol depth b)|].
  destruct Hres as [Hg Hevs]; [done|]. split; [|done]. by apply (rtc_preorder _) in Hg.
Qed.

(** ** Theorems *)

(** C11: the frame of a resumption.  In every world that the plugin can
    reach, the turn that hands an answer or a rejection to a suspended
    method, whichever method it is and however deep in a flush it was
    called, leaves every field of the plugin as it was but [aiIsActivated],
    which it may set and never clears: the slot, the busy flag, the mode and
    the inferencer are those of before the turn.  What the turn emits is a
    request of [solidity_answer], an entry of type [aitypewriterwarning] of
    the terminal (the echo of an answer), or the registration of a callback
    of the desktop plugin: no resumed method asks the agent, writes to the
    composer or the console, or pins the view. *)
Theorem resumption_frame b w i a w' :
  live depth b w → world_step depth w (Answer i a) w' →
  (plugin w' = plugin w ∨ plugin w' = set_aiIsActivated true (plugin w)) ∧
  Forall resumed_event (emitted w w').
Proof. apply world_step_resumption. Qed.

End resumption.

(** ** Witnesses *)

#[local] Existing Instance remix_ai_core.

Lemma resumption_frame_witness :
  (plugin (world_after 1 false browser_session) =
     plugin (world_after 1 false (take 3 browser_session)) ∨
   plugin (world_after 1 false browser_session) =
     set_aiIsActivated true (plugin (world_after 1 false (take 3 browser_session)))) ∧
  Forall resumed_event
    (emitted (world_after 1 false (take 3 browser_session))
       (world_after 1 false browser_session)).
Proof.
  apply (resumption_frame 1 false _ 0 (inr (Prim (Str "Explain mappings.")))).
  - apply world_after_reachable.
  - by apply step_world_step.
Defined.

(** The answer of the agent resumes [solidity_answer], which asks the remote
    inferencer; the answer of the desktop backend resumes [initialize], which
    marks the plugin activated and registers the callbacks of the stream. *)
Example resumption_sessions :
  omap request_method
    (emitted (world_after 1 false (take 3 browser_session))
       (world_after 1 false browser_session)) = ["solidity_answer"] ∧
  aiIsActivated (plugin (world_after 1 true
    [Call m_initialize []; Answer 0 (inr (Prim (Bool true)))])) = true ∧
  registered (history (world_after 1 true
    [Call m_initialize []; Answer 0 (inr (Prim (Bool true)))])) =
    [(Desktop, "onStreamResult"); (Desktop, "onInference"); (Desktop, "onInferenceDone")].
Proof. done. Qed.
