(* ===== verification/Activation.v ===== *)
(** * The desktop plugin is dormant until its backend is asked

    On the desktop [initialize] is the only code that sets [aiIsActivated]
    and that registers the callbacks of the backend's stream, and it does so
    after it has asked the desktop plugin for [initializeModelBackend] and
    the request was answered.  The file proves the consequence for every
    interleaving of the loop of [EventLoop]: as long as the history of a
    desktop world holds no such request the plugin is not activated, its
    gate is open and the only callback it has registered is the one of
    [activated].

    The proof keeps a protocol, [dormant_protocol], that every method but
    [initialize] follows.  A flush follows it as well unless the slot names
    [initialize], in which case the request is emitted in the segment of the
    flush: a call either follows the protocol or asks the backend at once
    ([dormant_or_asks]), which is what a turn of the loop needs. *)

From S2P Require Import Prelude JsValue Proc Plugin Gate Lifecycle Slot Settle EventLoop.
From S2P Require Import Invariants.

(** ** Definitions *)

(** The request [initializeModelBackend] to the desktop plugin. *)
Definition asks_backend (e : event effect request) : bool :=
  match e with
  | Asked (DesktopCall name _) => String.eqb name "initializeModelBackend"
  | _ => false
  end.

(** A trace in which the backend has been asked to initialise. *)
Definition backend_asked (evs : trace) : Prop := Exists asks_backend evs.

(** The events of a plugin that has not asked: no request to initialise the
    backend, and no callback but that of [activated]. *)
Definition dormant_event (e : event effect request) : Prop :=
  asks_backend e = false ∧
  match e with
  | Did (Listen src ev) => (src, ev) = (Desktop, "activated")
  | _ => True
  end.

Definition dormant_protocol : Protocol :=
  {| invariant s :=
       isOnDesktop s = true ∧ aiIsActivated s = false ∧ isInferencing s = false;
     guarantee _ _ := True;
     permitted := dormant_event |}.

Arguments dormant_protocol : simpl never.

(** A world whose plugin has not started: it is not activated, its gate is
    open, and it listens to nothing but [activated]. *)
Definition dormant (w : world) : Prop :=
  aiIsActivated (plugin w) = false ∧ isInferencing (plugin w) = false ∧
  listeners w ⊆ [(Desktop, "activated")].

(** A desktop session, for the witnesses: activation, the event of the
    desktop plugin, the engine's call of [initialize], and the answer of the
    backend. *)
Definition desktop_session : list label :=
  [Call m_onActivation [];
   Notify Desktop "activated" Undefined;
   Call m_initialize [Prim Null; Prim Null; Prim Null; Prim (Bool false)];
   Answer 0 (inr (Prim (Bool true)))].

#[export] Instance backend_asked_dec evs : Decision (backend_asked evs).
Proof. unfold backend_asked. apply _. Defined.

(** ** The methods *)

Section methods.
Context `{RemixAICore}.
Implicit Types (s : RemixAIPlugin) (m : method) (args : list value).

Lemma dormant_direct call m args s :
  m ≠ m_ProcessChatRequestBuffer → m ≠ m_initialize → invariant dormant_protocol s →
  respects dormant_protocol (method_body call m args) s.
Proof. intros Hf Hi Hs. destruct m; try done; protocol_tac dormant_protocol. Qed.

#[export] Instance dormant_flush : flush_compatible dormant_protocol.
Proof. by split. Qed.

Lemma dormant_handler payload cb s :
  handler Desktop "activated" payload = Some cb → invariant dormant_protocol s →
  respects dormant_protocol cb s.
Proof. intros [= <-] Hs. by protocol_tac dormant_protocol. Qed.

(** No operation reads [aiIsActivated]: the relays of a plugin that has not
    started forward to the desktop plugin all the same. *)
Lemma dormant_forwards op args env s :
  invariant dormant_protocol s → is_relay op = true →
  exec env (perform op args) s =
    (s, [Asked (DesktopCall (operation_name op) (forwarded_args op args).1)],
     env (DesktopCall (operation_name op) (forwarded_args op args).1)).
Proof.
  intros (Hd & _ & Hb) Hop. rewrite exec_relay by done.
  unfold backend_request. by rewrite Hd.
Qed.

(** On the desktop [initialize] asks the backend in its first segment. *)
Lemma initialize_asks call args s :
  isOnDesktop s = true → backend_asked (run (method_body call m_initialize args) s).1.2.
Proof.
  intros Hd. unfold method_body, initialize. simpl. rewrite Hd. simpl.
  by apply Exists_cons_tl, Exists_cons_hd.
Qed.

(** A call either follows the protocol or asks the backend in its first
    segment: a flush does the latter when the slot names [initialize]. *)
Lemma dormant_or_asks depth m args s :
  invariant dormant_protocol s →
  respects dormant_protocol (invoke depth m args) s ∨
  backend_asked (run (invoke depth m args) s).1.2.
Proof.
  revert m args s. induction depth as [|depth IH]; intros m args s Hs.
  all: destruct (decide (m = m_initialize)) as [->|Hi];
    [right; apply initialize_asks, Hs|].
  all: destruct (decide (m = m_ProcessChatRequestBuffer)) as [->|Hf];
    [|left; by apply dormant_direct].
  { left. by apply (respects_flush_call dormant_protocol). }
  unfold invoke, method_body.
  destruct (chatRequestBuffer s) as [b|] eqn:Hb;
    [|left; apply (respects_flush_call dormant_protocol); [congruence|done]].
  destruct (method_of_value (fn_name b)) as [m'|] eqn:Hm'.
  - destruct (IH m' [prompt b; context b; default_param GenerationParams (arg 0 args)] s Hs)
      as [Hr|Ha].
    + left. apply (respects_flush_call dormant_protocol); [|done].
      intros b' Hb'. assert (b' = b) as -> by congruence. by eapply wp_call_method.
    + right. rewrite (run_flush _ _ _ b m') by done. unfold invoke in Ha.
      by destruct (run (method_body _ _ _) s) as [[??]?].
  - left. apply (respects_flush_call dormant_protocol); [|done].
    intros b' Hb'. assert (b' = b) as -> by congruence. simpl. by rewrite Hm'.
Qed.

End methods.

(** ** The worlds *)

Section worlds.
Context `{RemixAICore} (depth : nat).
Implicit Types (w : world) (l : label).

Lemma backend_asked_step w l w' :
  world_step depth w l w' → backend_asked (history w) → backend_asked (history w').
Proof. unfold backend_asked. inversion 1; simpl; rewrite ?Exists_app; auto. Qed.

(** A world that keeps the protocol listens to [activated] only. *)
Lemma dormant_listeners w :
  listeners w = registered (history w) → world_ok dormant_protocol w →
  listeners w ⊆ [(Desktop, "activated")].
Proof.
  intros -> (_ & _ & Hh) [src ev] (e & He & Hev)%list_elem_of_omap.
  rewrite Forall_forall in Hh. destruct (Hh e He) as [_ Hl].
  destruct e as [[]|]; simplify_eq/=. set_solver.
Qed.

Lemma dormant_step w l w' :
  listeners w = registered (history w) →
  world_step depth w l w' → world_ok dormant_protocol w →
  backend_asked (history w') ∨ world_ok dormant_protocol w'.
Proof.
  intros Hreg Hstep Hw. destruct l as [m args|i a|src ev payload].
  - destruct (dormant_or_asks depth m args (plugin w)) as [Hm|Ha]; [apply Hw| |].
    + right. by eapply (world_step_call_respects dormant_protocol).
    + left. inversion Hstep as [? ? ? s evs o Hrun| | |]; subst. simpl.
      rewrite Hrun in Ha. by apply Exists_app; right.
  - right. by eapply (world_step_answer_ok dormant_protocol).
  - right. destruct (decide ((src, ev) ∈ listeners w)) as [Hin|Hin].
    + apply (dormant_listeners w Hreg Hw), list_elem_of_singleton in Hin as [= -> ->].
      eapply (world_step_notify_ok dormant_protocol); [|done..].
      intros cb s. apply dormant_handler.
    + by inversion Hstep; subst.
Qed.

(** A desktop world keeps the protocol until the backend is asked. *)
Lemma dormant_live w :
  live depth true w → backend_asked (history w) ∨ world_ok dormant_protocol w.
Proof.
  intros Hw. cut (listeners w = registered (history w) ∧
    (backend_asked (history w) ∨ world_ok dormant_protocol w)); [by intros [_ ?]|].
  revert w Hw. apply preserved_reachable.
  - intros ? ->. split; [done|]. right. by apply world_ok_init.
  - intros w1 l w2 [Hreg [Ha|Hok]] Hstep;
      (split; [by eapply world_step_registered|]);
      eauto using backend_asked_step, dormant_step.
Qed.

(** ** Theorems *)

Lemma dormant_world w : live depth true w → world_ok dormant_protocol w → dormant w.
Proof.
  intros Hw Hok. destruct (Hok) as ((_ & ? & ?) & _). split_and!; [done..|].
  eauto using dormant_listeners, live_registered.
Qed.

(** C19: on the desktop nothing starts before the backend is asked, and the
    operations do not wait for it.  In every world that a desktop plugin can
    reach, whatever the calls, the answers and the events and in whatever
    order, either the request [initializeModelBackend] is in the history, or
    the plugin is not activated, its gate is open and the only callback it
    has registered is the one of [activated]: [aiIsActivated] and the
    callbacks of the stream are the work of an [initialize] that has reached
    the backend.  In the second case [code_generation], [code_completion]
    and [code_insertion] still forward their request to the desktop plugin,
    whose backend nobody has asked to initialise: no method reads
    [aiIsActivated]. *)
Theorem desktop_dormant_until_asked w :
  live depth true w →
  backend_asked (history w) ∨
  (dormant w ∧
   ∀ op args env, is_relay op = true →
     exec env (perform op args) (plugin w) =
       (plugin w, [Asked (DesktopCall (operation_name op) (forwarded_args op args).1)],
        env (DesktopCall (operation_name op) (forwarded_args op args).1))).
Proof.
  intros Hw. destruct (dormant_live w Hw) as [?|Hok]; [by left|right].
  split; [by apply dormant_world|]. intros op args env. apply dormant_forwards, Hok.
Qed.

(** The busy flag of a desktop plugin is set only after the backend was
    asked to initialise. *)
Lemma desktop_busy_after_asked w :
  live depth true w → isInferencing (plugin w) = true → backend_asked (history w).
Proof.
  intros Hw Hb. destruct (dormant_live w Hw) as [?|((_ & _ & ?) & _)]; [done|congruence].
Qed.

End worlds.

(** ** Witnesses *)

#[local] Existing Instance remix_ai_core.

Lemma desktop_dormant_until_asked_witness :
  backend_asked (history (world_after 1 true desktop_session)) ∨
  (dormant (world_after 1 true desktop_session) ∧
   ∀ op args env, is_relay op = true →
     exec env (perform op args) (plugin (world_after 1 true desktop_session)) =
       (plugin (world_after 1 true desktop_session),
        [Asked (DesktopCall (operation_name op) (forwarded_args op args).1)],
        env (DesktopCall (operation_name op) (forwarded_args op args).1))).
Proof. apply (desktop_dormant_until_asked 1), world_after_reachable. Defined.

(** After the event and before the call of [initialize] the plugin is
    dormant; the request is in the history as soon as [initialize] is called,
    and the plugin is activated by the answer. *)
Example desktop_session_dormant :
  ¬ backend_asked (history (world_after 1 true (take 2 desktop_session))) ∧
  backend_asked (history (world_after 1 true (take 3 desktop_session))) ∧
  aiIsActivated (plugin (world_after 1 true (take 3 desktop_session))) = false ∧
  aiIsActivated (plugin (world_after 1 true desktop_session)) = true.
Proof.
  split_and!; [by apply (bool_decide_eq_false_1 _)|by apply (bool_decide_unpack _)|done..].
Qed.
