(* ===== verification/GateLoop.v ===== *)
(** * The busy gate in the event loop

    The specification describes the busy gate as a flag that the backend's
    signals set and clear and that a guarded operation tests before it
    starts.  This file writes that contract as a machine over a boolean,
    [busy_gate], and proves that every run of the event loop of [EventLoop],
    read through [gate_label_of], is a run of the machine that ends in the
    value of [isInferencing]: a delivered [onInference] is [Started], a
    delivered [onInferenceDone] is [Finished], a call of a guarded method is
    an [Attempt], refused exactly when the gate is closed, and so is the
    flush of a slot that holds a guarded method; every other turn, the
    resumption of a suspended method included, leaves the gate as it is.

    A resumption is not an attempt: a method that was admitted does not test
    the gate again, which is what [Gate.solidity_answer_gate_not_rechecked]
    shows of [solidity_answer].

    The second part is what the gate is for.  While the flag is set no turn
    of the loop sends a backend the request of [code_generation],
    [code_explaining] or [error_explaining] ([closed_gate_step]): a call is
    refused, by [closed_gate_protocol], and a resumption issues no such
    request, by the frame of [Resumption].  So once an inference has started,
    a guarded entry point starts another only after [onInferenceDone] has
    been delivered ([gated_requests_serialised]).  The requests of the
    unguarded methods and the one that a resumed [solidity_answer] issues
    pass a closed gate.

    The third part is the time between the two signals.  A signal is
    delivered when a callback is registered for it with the emitter of the
    event; an event that no callback hears is a turn that changes nothing.
    A closed gate stays closed along every run that delivers no
    [onInferenceDone] ([gate_stuck_without_completion]), and it can be
    reopened: by [Signals], the callback of [onInferenceDone] is registered
    wherever that of [onInference] is ([closed_gate_reopens]). *)

From S2P Require Import Prelude JsValue Proc Plugin Gate Lifecycle Slot Settle EventLoop.
From S2P Require Import Invariants Resumption Signals.

(** ** The gate of the specification *)

(** What the gate sees: the two signals of a backend, and the attempt of a
    guarded operation with its outcome. *)
Inductive gate_label : Type :=
| Started
| Finished
| Attempt (refused : bool).

(** The contract: a signal sets or clears the gate whatever its state, an
    attempt leaves it as it is and is refused exactly when it is closed. *)
Inductive busy_gate : bool → gate_label → bool → Prop :=
| gate_started b : busy_gate b Started true
| gate_finished b : busy_gate b Finished false
| gate_attempt b : busy_gate b (Attempt b) b.

#[export] Instance gate_label_eq_dec : EqDecision gate_label.
Proof. solve_decision. Defined.

(** The machine, computed. *)
Definition gate_next (b : bool) (a : gate_label) : option bool :=
  match a with
  | Started => Some true
  | Finished => Some false
  | Attempt refused => if decide (refused = b) then Some b else None
  end.

(** ** The gate of the plugin *)

(** The calls that test the gate: a call of a guarded method, and a flush of
    a slot that holds the name of one. *)
Definition attempted (s : RemixAIPlugin) (m : method) : bool :=
  match m with
  | m_ProcessChatRequestBuffer =>
      match chatRequestBuffer s with
      | Some b => from_option is_guarded false (method_of_value (fn_name b))
      | None => false
      end
  | _ => is_guarded m
  end.

(** A turn of the loop as the gate sees it.  An attempt was refused when the
    turn wrote the busy warning to the terminal; an event is a signal when
    its callback is registered. *)
Definition gate_label_of (w : world) (l : label) (w' : world) : option gate_label :=
  match l with
  | Call m _ =>
      if attempted (plugin w) m
      then Some (Attempt (bool_decide (busy_entry ∈ emitted w w'))) else None
  | Answer _ _ => None
  | Notify src ev _ =>
      if bool_decide ((src, ev) ∈ listeners w) then
        if String.eqb ev "onInference" then Some Started
        else if String.eqb ev "onInferenceDone" then Some Finished
        else None
      else None
  end.

(** The run of the loop as the gate sees it. *)
Fixpoint gate_trace `{RemixAICore} (depth : nat) (ls : list label) (w : world) :
    list gate_label :=
  match ls with
  | [] => []
  | l :: ls' =>
      match step depth w l with
      | Some w' => option_list (gate_label_of w l w') ++ gate_trace depth ls' w'
      | None => []
      end
  end.

(** The requests that the gate keeps back: those that the guarded methods
    issue in the segment that tests the gate. *)
Definition gated_request (e : event effect request) : bool :=
  match request_method e with
  | Some name => bool_decide (name ∈ ["code_generation"; "code_explaining"; "error_explaining"])
  | None => false
  end.

(** What the methods do while the gate is closed: they leave it closed and
    issue no request that it keeps back. *)
Definition closed_gate_protocol : Protocol :=
  {| invariant s := isInferencing s = true;
     guarantee s s' := isInferencing s' = isInferencing s;
     permitted e := gated_request e = false |}.

Arguments closed_gate_protocol : simpl never.

(** A session in the browser, for the witness: a question is staged, the
    plugin is activated, the inferencer signals an inference, a generation is
    attempted and the question is flushed while the gate is closed, the
    inference ends, and the generation is attempted again. *)
Definition busy_session : list label :=
  [Call m_chatPipe [Prim (Str "solidity_answer"); Prim (Str "What is a mapping?")];
   Call m_onActivation [];
   Notify Remote "onInference" Undefined;
   Call m_code_generation [Prim (Str "an ERC20 token")];
   Call m_ProcessChatRequestBuffer [];
   Notify Remote "onInferenceDone" Undefined;
   Call m_code_generation [Prim (Str "an ERC20 token")]].

(** A session on the desktop, for the witness: the plugin is initialised,
    the desktop backend signals an inference, and the remote inferencer, to
    which a desktop plugin does not listen, signals the end of one: an event
    that no callback hears. *)
Definition unheard_session : list label :=
  [Call m_initialize []; Answer 0 (inr (Prim (Bool true)));
   Notify Desktop "onInference" Undefined;
   Notify Remote "onInferenceDone" Undefined].

Section gate_loop.
Context `{RemixAICore}.
Implicit Types (w : world) (l : label) (s : RemixAIPlugin) (m : method)
  (args : list value) (b : bool).

(** ** The machine *)

Lemma gate_next_busy_gate b a b' : gate_next b a = Some b' ↔ busy_gate b a b'.
Proof.
  split.
  - destruct a as [| |r]; simpl; [by intros [= <-]; constructor..|].
    case_decide as Hr; [|done]. intros [= <-]. subst. constructor.
  - destruct 1; simpl; [done..|]. by case_decide.
Qed.

(** ** An attempt is refused exactly when the gate is closed *)

Lemma guarded_refused call m args s :
  is_guarded m = true →
  busy_entry ∈ (run (method_body call m args) s).1.2 ↔ isInferencing s = true.
Proof.
  intros Hm. destruct m; try done; unfold method_body;
    destruct (isInferencing s) eqn:Hb; perform_cases;
    rewrite ?Hb; simpl; repeat case_match; simpl;
    rewrite ?list_elem_of_singleton, ?elem_of_nil; split; (done || set_solver).
Qed.

Lemma attempt_refused depth m args s :
  attempted s m = true →
  busy_entry ∈ (run (invoke (S depth) m args) s).1.2 ↔ isInferencing s = true.
Proof.
  intros Hm. destruct (decide (m = m_ProcessChatRequestBuffer)) as [->|Hf].
  - simpl in Hm. destruct (chatRequestBuffer s) as [bf|] eqn:Hbf; [|done].
    destruct (method_of_value (fn_name bf)) as [m'|] eqn:Hm'; [|done].
    unfold invoke, method_body. rewrite (run_flush _ _ _ bf m') by done.
    rewrite <-(guarded_refused (call_method depth) m'
                 [prompt bf; context bf; default_param GenerationParams (arg 0 args)] s Hm).
    by destruct (run (method_body _ _ _) s) as [[??]?].
  - apply guarded_refused. by destruct m.
Qed.

(** ** The simulation *)

Lemma world_gate_step depth w l w' :
  world_ok gate_protocol w → world_step (S depth) w l w' →
  match gate_label_of w l w' with
  | Some a => busy_gate (isInferencing (plugin w)) a (isInferencing (plugin w'))
  | None => isInferencing (plugin w') = isInferencing (plugin w)
  end.
Proof.
  intros Hw Hstep. destruct (is_lifecycle l) eqn:Hl.
  - destruct l as [| |src ev payload]; try done. simpl.
    inversion Hstep as [| |? ? ? ? cb s evs o Hin Hcb Hrun|? ? ? ? Hno]; subst.
    + rewrite bool_decide_true by done. unfold handler in Hcb.
      repeat case_match; simplify_eq/=; constructor.
    + destruct Hno as [Hno|Hno]; [by rewrite bool_decide_false|].
      unfold handler in Hno. repeat case_match; simplify_eq/=; done.
  - destruct (gate_step (S depth) w l w' Hl Hstep Hw) as [_ Heq].
    destruct l as [m args|i a|src ev payload]; simpl in *; [|done|].
    + destruct (attempted (plugin w) m) eqn:Hm; [|done]. rewrite Heq.
      inversion Hstep as [? ? ? s evs o Hrun| | |]; subst. rewrite emitted_next.
      pose proof (attempt_refused depth m args (plugin w) Hm) as Hiff.
      rewrite Hrun in Hiff. simpl in Hiff.
      destruct (isInferencing (plugin w)) eqn:Hb.
      * rewrite bool_decide_true by (by apply Hiff). constructor.
      * rewrite bool_decide_false; [constructor|]. rewrite Hiff. done.
    + apply orb_false_iff in Hl as [-> ->]. by case_bool_decide.
Qed.

Lemma world_gate_steps depth w ls w' :
  world_ok gate_protocol w → steps (world_step (S depth)) w ls w' →
  steps busy_gate (isInferencing (plugin w)) (gate_trace (S depth) ls w)
    (isInferencing (plugin w')).
Proof.
  intros Hw Hsteps. induction Hsteps as [|w l w1 ls w2 Hstep _ IH]; [constructor|].
  cbn [gate_trace]. rewrite (proj2 (step_world_step (S depth) w l w1) Hstep).
  pose proof (world_gate_step depth w l w1 Hw Hstep) as Hone.
  specialize (IH (gate_tasks_step (S depth) w l w1 Hstep Hw)).
  destruct (gate_label_of w l w1) as [a|]; simpl; [by econstructor|by rewrite <-Hone].
Qed.

(** ** No gated request while the gate is closed *)

Lemma resumed_event_not_gated e : resumed_event e → gated_request e = false.
Proof. destruct e as [[]|[]]; simpl; try done; by intros ->. Qed.

Lemma closed_gate_direct call m args s :
  m ≠ m_ProcessChatRequestBuffer → invariant closed_gate_protocol s →
  respects closed_gate_protocol (method_body call m args) s.
Proof. intros Hm Hs. destruct m; try done; protocol_tac closed_gate_protocol. Qed.

#[export] Instance closed_gate_followed : followed closed_gate_protocol.
Proof. split; [by split|apply closed_gate_direct]. Qed.

Lemma closed_gate_invoke depth m args s :
  isInferencing s = true →
  Forall (λ e, gated_request e = false) (run (invoke depth m args) s).1.2.
Proof.
  intros Hb.
  by destruct (wp_run closed_gate_protocol _ _ s
                 (respects_invoke closed_gate_protocol depth m args s Hb)) as (_ & ? & _).
Qed.

Lemma closed_gate_handler src ev payload cb s :
  handler src ev payload = Some cb →
  Forall (λ e, gated_request e = false) (run cb s).1.2.
Proof.
  unfold handler. intros Hcb. repeat case_match; simplify_eq/=; by repeat constructor.
Qed.

(** While the gate is closed no turn issues a request that it keeps back:
    a call is refused, a resumption stays within its frame, and a callback
    issues no request. *)
Lemma closed_gate_step depth b w l w' :
  live depth b w → world_step depth w l w' → isInferencing (plugin w) = true →
  Forall (λ e, gated_request e = false) (emitted w w').
Proof.
  intros Hw Hstep Hb. destruct l as [m args|i a|src ev payload].
  - inversion Hstep as [? ? ? s evs o Hrun| | |]; subst. rewrite emitted_next.
    pose proof (closed_gate_invoke depth m args (plugin w) Hb) as Hevs. by rewrite Hrun in Hevs.
  - destruct (world_step_resumption depth b w i a w' Hw Hstep) as [_ Hevs].
    eapply Forall_impl; [done|]. apply resumed_event_not_gated.
  - inversion Hstep as [| |? ? ? ? cb s evs o Hin Hcb Hrun|]; subst;
      [|by rewrite emitted_refl].
    rewrite emitted_next.
    pose proof (closed_gate_handler src ev payload cb (plugin w) Hcb) as Hevs.
    by rewrite Hrun in Hevs.
Qed.

(** ** The gate stays closed until the end of the inference is delivered *)

(** A turn that is not a delivery of [onInferenceDone] leaves a closed gate
    closed: an event that no callback hears changes nothing. *)
Lemma closed_gate_stays depth w l w' :
  world_ok gate_protocol w → world_step depth w l w' →
  gate_label_of w l w' ≠ Some Finished →
  isInferencing (plugin w) = true → isInferencing (plugin w') = true.
Proof.
  intros Hw Hstep Hl Hb. destruct (is_done l) eqn:Hd.
  - destruct l as [| |src ev payload]; try done. apply String.eqb_eq in Hd as ->.
    inversion Hstep as [| |? ? ? ? cb s evs o Hin Hcb Hrun|]; subst; [|done].
    simpl in Hl. by rewrite bool_decide_true in Hl.
  - destruct (is_lifecycle l) eqn:Hlife; [by eapply notify_keeps_busy|].
    by destruct (gate_step depth w l w') as [_ ->].
Qed.

Lemma closed_gate_until_finished depth w ls w' :
  world_ok gate_protocol w → isInferencing (plugin w) = true →
  steps (world_step depth) w ls w' → Finished ∉ gate_trace depth ls w →
  isInferencing (plugin w') = true.
Proof.
  intros Hw Hb Hsteps. induction Hsteps as [|w l w1 ls w2 Hstep _ IH]; [done|].
  cbn [gate_trace]. rewrite (proj2 (step_world_step depth w l w1) Hstep).
  rewrite not_elem_of_app. intros [Hl Hls].
  apply IH; [by eapply gate_tasks_step| |done].
  eapply closed_gate_stays; [done..| |done]. intros Heq. rewrite Heq in Hl. set_solver.
Qed.

(** A delivered signal is an event of that name. *)
Lemma finished_is_done depth ls w :
  Finished ∈ gate_trace depth ls w → Exists (λ l, is_done l = true) ls.
Proof.
  revert w. induction ls as [|l ls IH]; intros w; simpl; [by intros ?%elem_of_nil|].
  destruct (step depth w l) as [w1|]; [|by intros ?%elem_of_nil].
  rewrite elem_of_app. intros [Hl|Hls]; [left|right; eauto].
  destruct l as [m args| |src ev payload]; simpl in *; repeat case_match; set_solver.
Qed.

(** ** The end of an inference is heard *)

(** The turn that delivers [onInferenceDone] to a plugin that listens. *)
Lemma finished_step depth w src payload :
  (src, "onInferenceDone") ∈ listeners w →
  ∃ w', world_step depth w (Notify src "onInferenceDone" payload) w' ∧
        gate_label_of w (Notify src "onInferenceDone" payload) w' = Some Finished ∧
        plugin w' = set_isInferencing false (plugin w) ∧ tasks w' = tasks w ∧
        emitted w w' = [].
Proof.
  intros Hin. eexists. split_and!.
  - by eapply (step_notify _ _ _ _ _ onInferenceDone).
  - simpl. by rewrite bool_decide_true.
  - done.
  - done.
  - apply emitted_next.
Qed.

(** A closed gate has an emitter whose two signals the plugin hears. *)
Lemma closed_gate_heard depth b w :
  live depth b w → isInferencing (plugin w) = true →
  ∃ src, (src, "onInference") ∈ listeners w ∧ (src, "onInferenceDone") ∈ listeners w.
Proof.
  intros Hw Hb. destruct (busy_listener_live depth b w Hw Hb) as [src Hsrc].
  exists src. split; [done|]. by apply (paired_live depth b w Hw).
Qed.

(** ** Theorems *)

(** C6: the running plugin refines the busy gate of the specification.  Take
    any run of the event loop from a world that the plugin can reach: calls
    of any methods, answers and rejections of outstanding requests in any
    order, events of the backends.  Its delivered signals and its attempts,
    in their order, are a run of the machine [busy_gate] from the value of
    [isInferencing] before the run to its value after it.  So the flag is what
    the last delivered signal made it, an attempt writes the busy warning
    exactly when the flag is set, and no other turn moves the gate. *)
Theorem world_refines_gate depth b w ls w' :
  live (S depth) b w → steps (world_step (S depth)) w ls w' →
  steps busy_gate (isInferencing (plugin w)) (gate_trace (S depth) ls w)
    (isInferencing (plugin w')).
Proof. intros Hw%gate_live. by apply world_gate_steps. Qed.

(** C7: the gate serialises the guarded requests.  Take a world that the
    plugin can reach in which [isInferencing] is set, a run of the loop from
    it (calls of any methods with any arguments, flushes of whatever the slot
    holds, resumptions of suspended methods, events) and one more turn.  If
    that turn sends a backend the request of [code_generation],
    [code_explaining] or [error_explaining], then the run has delivered
    [onInferenceDone] to its callback: [Finished] is among the signals of the
    run, which an event that no callback hears is not.  Between the start of
    an inference and its end no turn starts another through a guarded entry
    point.  The requests that do pass a closed gate are those of the
    unguarded [code_completion] and [code_insertion], and the one of
    [solidity_answer], which a resumption issues without testing the gate
    again. *)
Theorem gated_requests_serialised depth b w ls w1 l w2 :
  live depth b w → isInferencing (plugin w) = true →
  steps (world_step depth) w ls w1 → world_step depth w1 l w2 →
  Exists (λ e, gated_request e = true) (emitted w1 w2) →
  Finished ∈ gate_trace depth ls w ∧ Exists (λ l, is_done l = true) ls.
Proof.
  intros Hw Hb Hsteps Hstep Hsent.
  cut (Finished ∈ gate_trace depth ls w); [eauto using finished_is_done|].
  destruct (decide (Finished ∈ gate_trace depth ls w)) as [|Hno]; [done|exfalso].
  assert (isInferencing (plugin w1) = true) as Hb1.
  { eapply closed_gate_until_finished; eauto using gate_live. }
  pose proof (closed_gate_step depth b w1 l w2 (reachable_steps _ _ _ _ _ Hw Hsteps) Hstep Hb1)
    as Hnone.
  apply Exists_exists in Hsent as (e & He & Hgated).
  rewrite Forall_forall in Hnone. specialize (Hnone e He). congruence.
Qed.

(** C17: without the completion signal the gate stays closed.  Once
    [isInferencing] is set, along any run in which [onInferenceDone] is not
    delivered to its callback ([Finished] is not among the signals of the
    run; events of that name that no callback hears may occur) the flag stays
    set, and every guarded method still answers with the warning: there is no
    timeout and no other way to open the gate. *)
Theorem gate_stuck_without_completion depth b w ls w' op args :
  live depth b w → isInferencing (plugin w) = true →
  steps (world_step depth) w ls w' → Finished ∉ gate_trace depth ls w →
  guarded op = true →
  run (perform op args) (plugin w') = (plugin w', [busy_entry], Fulfilled (Prim Undefined)).
Proof.
  intros Hw Hb Hsteps Hls Hop. apply run_guarded_busy; [done|].
  eapply closed_gate_until_finished; eauto using gate_live.
Qed.

(** C18: a closed gate can be reopened.  In every world that the plugin can
    reach, the callbacks of [onInference] and of [onInferenceDone] are
    registered with the same emitters: whatever was called, flushed, answered
    or signalled, and however often [initialize] ran, a plugin that hears the
    start of an inference hears its end.  So when [isInferencing] is set there
    is an emitter whose [onInferenceDone], whatever its payload, is a turn of
    the loop that the gate sees as [Finished]: it clears the flag, writes no
    other field, emits nothing and resumes no method. *)
Theorem closed_gate_reopens depth b w :
  live depth b w →
  signals_paired (listeners w) ∧
  (isInferencing (plugin w) = true →
   ∃ src, (src, "onInference") ∈ listeners w ∧
     ∀ payload, ∃ w',
       world_step depth w (Notify src "onInferenceDone" payload) w' ∧
       gate_label_of w (Notify src "onInferenceDone" payload) w' = Some Finished ∧
       plugin w' = set_isInferencing false (plugin w) ∧ tasks w' = tasks w ∧
       emitted w w' = []).
Proof.
  intros Hw. split; [by apply (paired_live depth b)|]. intros Hb.
  destruct (closed_gate_heard depth b w Hw Hb) as (src & Hstart & Hend).
  exists src. split; [done|]. intros payload. by apply finished_step.
Qed.

End gate_loop.

(** ** Witness *)

#[local] Existing Instance remix_ai_core.

Lemma world_refines_gate_witness :
  steps busy_gate false (gate_trace 1 busy_session (init_world false))
    (isInferencing (plugin (world_after 1 false busy_session))).
Proof.
  apply (world_refines_gate 0 false (init_world false) busy_session).
  - by apply reachable_init.
  - by apply steps_of_sound.
Defined.

(** The session as the gate sees it: the generation and the flush of the
    staged question are refused while the inference runs, and the flush has
    emptied the slot all the same. *)
Example busy_session_trace :
  gate_trace 1 busy_session (init_world false) =
    [Started; Attempt true; Attempt true; Finished; Attempt false] ∧
  chatRequestBuffer (plugin (world_after 1 false busy_session)) = None.
Proof. done. Qed.

Lemma gated_requests_serialised_witness :
  Finished ∈ gate_trace 1 (take 3 (drop 3 busy_session))
               (world_after 1 false (take 3 busy_session)) ∧
  Exists (λ l, is_done l = true) (take 3 (drop 3 busy_session)).
Proof.
  apply (gated_requests_serialised 1 false (world_after 1 false (take 3 busy_session))
           (take 3 (drop 3 busy_session)) (world_after 1 false (take 6 busy_session))
           (Call m_code_generation [Prim (Str "an ERC20 token")])
           (world_after 1 false busy_session)).
  - apply world_after_reachable.
  - done.
  - by apply steps_of_sound.
  - by apply step_world_step.
  - by apply Exists_cons_hd.
Defined.

Lemma gate_stuck_without_completion_witness :
  run (perform op_code_generation [Prim (Str "again")])
      (plugin (world_after 1 true unheard_session)) =
    (plugin (world_after 1 true unheard_session), [busy_entry], Fulfilled (Prim Undefined)).
Proof.
  apply (gate_stuck_without_completion 1 true
           (world_after 1 true (take 3 unheard_session)) (drop 3 unheard_session));
    [apply world_after_reachable|done|by apply steps_of_sound|by vm_compute; set_solver|done].
Defined.

Lemma closed_gate_reopens_witness :
  signals_paired (listeners (world_after 1 false (take 3 busy_session))) ∧
  (isInferencing (plugin (world_after 1 false (take 3 busy_session))) = true →
   ∃ src, (src, "onInference") ∈ listeners (world_after 1 false (take 3 busy_session)) ∧
     ∀ payload, ∃ w',
       world_step 1 (world_after 1 false (take 3 busy_session))
         (Notify src "onInferenceDone" payload) w' ∧
       gate_label_of (world_after 1 false (take 3 busy_session))
         (Notify src "onInferenceDone" payload) w' = Some Finished ∧
       plugin w' = set_isInferencing false (plugin (world_after 1 false (take 3 busy_session))) ∧
       tasks w' = tasks (world_after 1 false (take 3 busy_session)) ∧
       emitted (world_after 1 false (take 3 busy_session)) w' = []).
Proof. apply (closed_gate_reopens 1 false). apply world_after_reachable. Defined.

(** In the session the generation and the flush that come while the gate is
    closed send nothing to the inferencer, and the generation that follows
    [onInferenceDone] sends its request. *)
Example busy_session_requests :
  omap request_method
    (emitted (world_after 1 false (take 3 busy_session))
       (world_after 1 false (take 5 busy_session))) = [] ∧
  omap request_method
    (emitted (world_after 1 false (take 6 busy_session))
       (world_after 1 false busy_session)) = ["code_generation"].
Proof. done. Qed.

(** What passes a closed gate in the session of [Invariants]: the question
    was admitted before the inference started, and its request to the
    inferencer is issued by the resumption, while the gate is closed. *)
Example browser_session_passes :
  isInferencing (plugin (world_after 1 false (take 3 browser_session))) = true ∧
  omap request_method
    (emitted (world_after 1 false (take 3 browser_session))
       (world_after 1 false browser_session)) = ["solidity_answer"].
Proof. done. Qed.
