(* ===== verification/Noninterference.v ===== *)
(** * What the plugin reads of its flags

    [GateLoop] says what the busy flag does to an attempt: a call of a
    guarded method, or a flush of a slot that holds one, is refused exactly
    when the flag is set.  This file says that the flag does nothing else,
    and that [aiIsActivated] does nothing at all.

    Take a world that the plugin can reach and the same world with another
    value of the field, and run the same turns from both, none of which
    reads the field in its first segment.  The two runs emit the same events
    and the same requests, register the same callbacks, leave the same
    requests outstanding, and end in plugins that differ in that field at
    most.  For [isInferencing] the turns that read the field are the
    attempts; every other call, every answer to a suspended method, the
    guarded ones among them, and every event is a turn that does not.  For
    [aiIsActivated] no turn reads the field.

    The proof relates two runs of one computation from two states
    ([Proc.sim]).  It is written once, against the class [hidden] of the
    fields that only the first segment of some methods reads: the methods
    that do not read the field are related to themselves ([hidden_direct]),
    what is left of every method after its first suspension is
    ([hidden_later], by [Resumption.suspended_with]), and so is the flush,
    through the dynamic call at every depth of the stack ([sim_invoke]). *)

From S2P Require Import Prelude JsValue Proc Plugin Gate Lifecycle Slot Settle EventLoop.
From S2P Require Import Invariants Resumption GateLoop.

(** ** Definitions *)

(** Two states that differ at most in the boolean field that [set]
    assigns. *)
Definition differ_in (set : bool → RemixAIPlugin → RemixAIPlugin) : relation RemixAIPlugin :=
  λ s1 s2, set false s1 = set false s2.

(** States that differ in [isInferencing] at most, and in [aiIsActivated]
    at most. *)
Definition flag_eq : relation RemixAIPlugin := differ_in set_isInferencing.
Definition activated_eq : relation RemixAIPlugin := differ_in set_aiIsActivated.

(** Two computations that run alike from states related by [Q]. *)
Definition alike {A} (Q : relation RemixAIPlugin) (t u : M A) : Prop :=
  ∀ s1 s2, Q s1 s2 → sim Q Q eq s1 s2 t u.

(** A computation that does not read what [Q] hides. *)
Definition blind (Q : relation RemixAIPlugin) (t : M value) : Prop := alike Q t t.

(** A suspended method that does not read it when it resumes. *)
Definition task_blind (Q : relation RemixAIPlugin) (t : task) : Prop :=
  ∀ v, blind Q (continuation t v).

(** Two suspended methods that await the same request and resume alike. *)
Definition task_sim (Q : relation RemixAIPlugin) (t1 t2 : task) : Prop :=
  awaited t1 = awaited t2 ∧ ∀ v, alike Q (continuation t1 v) (continuation t2 v).

(** Two worlds that an observer of the events, of the callbacks and of
    what [Q] does not hide cannot tell apart, now or later. *)
Definition world_sim (Q : relation RemixAIPlugin) (w1 w2 : world) : Prop :=
  Q (plugin w1) (plugin w2) ∧ Forall2 (task_sim Q) (tasks w1) (tasks w2) ∧
  listeners w1 = listeners w2 ∧ history w1 = history w2.

(** The world [w] around another plugin. *)
Definition with_plugin (s : RemixAIPlugin) (w : world) : world :=
  {| plugin := s; tasks := tasks w; listeners := listeners w; history := history w |}.

(** The turns whose first segment does not read the field, [reads s m]
    telling whether a call of [m] in the state [s] does. *)
Definition unread (reads : RemixAIPlugin → method → bool) (s : RemixAIPlugin) (l : label) :
    bool :=
  match l with
  | Call m _ => negb (reads s m)
  | _ => true
  end.

(** A turn of the loop that does not read the field. *)
Definition quiet_step `{RemixAICore} (reads : RemixAIPlugin → method → bool) (depth : nat)
    (w : world) (l : label) (w' : world) : Prop :=
  unread reads (plugin w) l = true ∧ world_step depth w l w'.

(** A run without such turns, decided. *)
Fixpoint quiet `{RemixAICore} (reads : RemixAIPlugin → method → bool) (depth : nat)
    (ls : list label) (w : world) : bool :=
  match ls with
  | [] => true
  | l :: ls' =>
      unread reads (plugin w) l &&
      match step depth w l with
      | Some w' => quiet reads depth ls' w'
      | None => false
      end
  end.

(** No method reads [aiIsActivated]. *)
Definition reads_activated (s : RemixAIPlugin) (m : method) : bool := false.

(** A field that is hidden from everything but the first segment of the
    calls that [reads] names: the other methods run alike whatever the
    field, every method does after its first suspension, the callbacks do,
    and the field is not the slot. *)
Class hidden `{RemixAICore} (Q : relation RemixAIPlugin)
    (reads : RemixAIPlugin → method → bool) : Prop := {
  hidden_equiv :: Equivalence Q;
  hidden_slot s1 s2 : Q s1 s2 → chatRequestBuffer s1 = chatRequestBuffer s2;
  hidden_reset s1 s2 :
    Q s1 s2 → Q (set_chatRequestBuffer None s1) (set_chatRequestBuffer None s2);
  hidden_reads s1 s2 m : Q s1 s2 → reads s1 m = reads s2 m;
  hidden_staged s bf :
    chatRequestBuffer s = Some bf → reads s m_ProcessChatRequestBuffer = false →
    from_option (reads s) false (method_of_value (fn_name bf)) = false;
  hidden_direct call m args s1 s2 :
    m ≠ m_ProcessChatRequestBuffer → reads s1 m = false → Q s1 s2 →
    sim Q Q eq s1 s2 (method_body call m args) (method_body call m args);
  hidden_later :: suspended_with (blind Q);
  hidden_handler src ev payload cb :
    handler src ev payload = Some cb → alike Q cb cb
}.

(** What follows the first three turns of the session of [Invariants], in
    which a question waits for the agent while the gate is closed: the
    agent answers, a completion is asked for, and the inference ends. *)
Definition quiet_session : list label :=
  [Answer 0 (inr (Prim (Str "Explain mappings.")));
   Call m_code_completion [Prim (Str "contract C {")];
   Notify Remote "onInferenceDone" Undefined].

#[export] Instance differ_in_equiv set : Equivalence (differ_in set).
Proof. unfold differ_in. split; [by intros ?|by intros ??|by intros ??? ->]. Qed.

(** ** Tactics *)

(** [differ_inj] replaces two states that differ in one field at most by
    their fields, the other fields being the same. *)
Ltac differ_inj :=
  match goal with
  | H : ?Q ?s1 ?s2 |- _ =>
      unfold flag_eq, activated_eq, differ_in in H;
      match type of H with ?set false s1 = ?set false s2 => idtac end;
      destruct s1, s2; simpl in H; simplify_eq H; clear H; intros; subst
  end.

(** [blind_tac] proves that a computation that is written out runs alike
    from two states that differ in one field, by cases on every test. *)
Ltac blind_tac :=
  repeat first
    [ differ_inj
    | apply sim_get_l | apply sim_get_r
    | progress (simpl; intros)
    | progress unfold lift, echo, setRemixAIOnSidePannel
    | case_match
    | apply sim_put; [by unfold flag_eq, activated_eq, differ_in|]
    | constructor
    | done ].

(** [methods_tac] writes the methods and callbacks out. *)
Ltac methods_tac :=
  unfold method_body;
  unfold onActivation, initialize, code_generation, code_completion, solidity_answer,
    code_explaining, error_explaining, code_insertion, chatPipe, isChatRequestPending,
    render, desktop, remote, onInference, onInferenceDone, on_activated, onStreamResult,
    blind, alike.

(** ** The two flags are hidden *)

Section flags.
Context `{RemixAICore}.
Implicit Types (s : RemixAIPlugin) (m : method) (args : list value).

Lemma differ_in_set set b s :
  (∀ b' s', set false (set b' s') = set false s') → differ_in set s (set b s).
Proof. intros Hset. unfold differ_in. by rewrite Hset. Qed.

#[export] Instance flag_hidden : hidden flag_eq attempted.
Proof.
  split; [apply _|..].
  - intros s1 s2 Hs. by differ_inj.
  - intros s1 s2 Hs. by differ_inj.
  - intros s1 s2 m Hs. destruct m; try done. simpl. by differ_inj.
  - intros s bf Hbf. simpl. rewrite Hbf.
    destruct (method_of_value (fn_name bf)) as [m'|] eqn:Hm'; [|done]. simpl.
    destruct m'; try done. simpl. by rewrite Hbf, Hm'.
  - intros call m args s1 s2 Hf Hm Hs. destruct m; try done; methods_tac; blind_tac.
  - intros call m args Hm. destruct m; try done; methods_tac; blind_tac.
  - unfold handler. intros src ev payload cb Hcb.
    repeat case_match; simplify_eq; methods_tac; blind_tac.
Qed.

#[export] Instance activated_hidden : hidden activated_eq reads_activated.
Proof.
  split; [apply _|..].
  - intros s1 s2 Hs. by differ_inj.
  - intros s1 s2 Hs. by differ_inj.
  - done.
  - intros s bf _ _. by destruct (method_of_value _).
  - intros call m args s1 s2 Hf _ Hs. destruct m; try done; methods_tac; blind_tac.
  - intros call m args Hm. destruct m; try done; methods_tac; blind_tac.
  - unfold handler. intros src ev payload cb Hcb.
    repeat case_match; simplify_eq; methods_tac; blind_tac.
Qed.

End flags.

(** ** The methods, for every hidden field *)

Section methods.
Context `{RemixAICore} (Q : relation RemixAIPlugin) (reads : RemixAIPlugin → method → bool).
Context `{!hidden Q reads}.
Implicit Types (s : RemixAIPlugin) (m : method) (args : list value).

(** A flush runs alike when the call that it makes does. *)
Lemma sim_flush call params s1 s2 :
  Q s1 s2 →
  (∀ bf, chatRequestBuffer s1 = Some bf →
     sim Q Q (promised Q Q eq) s1 s2
       (call (fn_name bf) [prompt bf; context bf; default_param GenerationParams params])
       (call (fn_name bf) [prompt bf; context bf; default_param GenerationParams params])) →
  sim Q Q eq s1 s2 (ProcessChatRequestBuffer call params) (ProcessChatRequestBuffer call params).
Proof.
  intros Hs Hcall. unfold ProcessChatRequestBuffer. simpl.
  apply sim_get_l, sim_get_r. rewrite <-(hidden_slot s1 s2 Hs).
  destruct (chatRequestBuffer s1) as [bf|]; [|by repeat constructor].
  change (bind ?t ?f) with (t ≫= f).
  eapply sim_bind; [done|done|by apply Hcall|].
  intros p q s1' s2' Hpq Hs'. simpl.
  apply sim_get_l, sim_get_r, sim_put; [by apply hidden_reset|done].
Qed.

Lemma sim_call_method depth name args s1 s2 :
  (∀ m args, reads s1 m = false →
     sim Q Q eq s1 s2 (invoke depth m args) (invoke depth m args)) →
  Q s1 s2 → from_option (reads s1) false (method_of_value name) = false →
  sim Q Q (promised Q Q eq) s1 s2
    (call_method (S depth) name args) (call_method (S depth) name args).
Proof.
  intros IH Hs Hm. simpl. destruct (method_of_value name) as [m|]; [|constructor].
  destruct (is_async m); [by apply sim_spawn, IH|].
  unfold sync_call. eapply (sim_bind _ _ eq); [done|done|by apply IH|].
  intros v ? ? ? <- ?. constructor. intros ??. by constructor.
Qed.

(** A call that does not read the field runs alike whatever the field, at
    every depth of the stack. *)
Lemma sim_invoke depth m args s1 s2 :
  Q s1 s2 → reads s1 m = false →
  sim Q Q eq s1 s2 (invoke depth m args) (invoke depth m args).
Proof.
  intros Hs. revert m args. induction depth as [|depth IH]; intros m args Hm.
  all: destruct (decide (m = m_ProcessChatRequestBuffer)) as [->|Hf];
    [|by apply hidden_direct].
  all: apply sim_flush; [done|]; intros bf Hbf.
  { constructor. }
  apply sim_call_method; [done..|]. by apply hidden_staged.
Qed.

End methods.

(** ** The worlds, for every hidden field *)

Section worlds.
Context `{RemixAICore} (Q : relation RemixAIPlugin) (reads : RemixAIPlugin → method → bool).
Context `{!hidden Q reads} (depth : nat).
Implicit Types (w : world) (l : label) (b : bool) (s : RemixAIPlugin).

Lemma unread_related s1 s2 l : Q s1 s2 → unread reads s1 l = unread reads s2 l.
Proof. intros Hs. destruct l as [m| |]; [|done..]. simpl. by rewrite (hidden_reads s1 s2). Qed.

Lemma suspended_sim o1 o2 :
  outcome_sim Q Q eq o1 o2 → Forall2 (task_sim Q) (suspended o1) (suspended o2).
Proof.
  destruct o1, o2; simpl; try done. intros [-> Hk].
  constructor; [|constructor]. split; [done|]. intros v s1 s2. apply Hk.
Qed.

Lemma world_sim_next w1 w2 ts1 ts2 s1 s2 evs :
  world_sim Q w1 w2 → Q s1 s2 → Forall2 (task_sim Q) ts1 ts2 →
  world_sim Q (next w1 ts1 s1 evs) (next w2 ts2 s2 evs).
Proof.
  intros (_ & _ & Hl & Hh) ??. split_and!; simpl; [done|done|by rewrite Hl|by rewrite Hh].
Qed.

(** The diagram: a turn that does not read the field can be taken from
    both worlds, and leaves them alike. *)
Lemma world_sim_step w1 w2 l w1' :
  world_sim Q w1 w2 → quiet_step reads depth w1 l w1' →
  ∃ w2', quiet_step reads depth w2 l w2' ∧ world_sim Q w1' w2'.
Proof.
  intros Hw [Hq Hstep]. destruct (Hw) as (Hs & Hts & Hl & Hh).
  assert (unread reads (plugin w2) l = true) as Hq2 by by rewrite <-(unread_related _ _ l Hs).
  inversion Hstep as [? m args s evs o Hrun|? i t a s evs o Hi Hrun
                     |? src ev payload cb s evs o Hin Hcb Hrun|? src ev payload Hno]; subst.
  - apply negb_true_iff in Hq.
    destruct (sim_run_inv Q Q eq _ _ _ _ _ _ _ Hs
                (sim_invoke Q reads depth m args _ _ Hs Hq) Hrun)
      as (s2 & o2 & Hrun2 & Hs' & Ho).
    eexists. split; [split; [done|by constructor]|].
    apply world_sim_next; [done..|]. apply Forall2_app; [done|by apply suspended_sim].
  - destruct (Forall2_lookup_l _ _ _ i t Hts Hi) as (t2 & Hi2 & [Hr Hk]).
    destruct (sim_resume_inv Q Q eq (continuation t) (continuation t2)
                a _ _ _ _ _ Hs (λ v, Hk v _ _ Hs) Hrun) as (s2 & o2 & Hrun2 & Hs' & Ho).
    eexists. split; [split; [done|by econstructor]|]. apply world_sim_next; [done..|].
    apply Forall2_app; [by apply Forall2_delete|by apply suspended_sim].
  - destruct (sim_run_inv Q Q eq _ _ _ _ _ _ _ Hs
                (hidden_handler src ev payload cb Hcb _ _ Hs) Hrun)
      as (s2 & o2 & Hrun2 & Hs' & Ho).
    eexists. split; [split; [done|]|by apply world_sim_next].
    eapply step_notify; [by rewrite <-Hl|done..].
  - exists w2. split; [split; [done|]|done]. apply step_unheard. by rewrite <-Hl.
Qed.

(** The suspended methods of a reachable world do not read the field. *)
Lemma live_tasks_blind b w : live depth b w → Forall (task_blind Q) (tasks w).
Proof.
  apply (preserved_reachable _ _ (λ w0, Forall (task_blind Q) (tasks w0)));
    [by intros ? ->|].
  intros w1 l w2 Hts Hstep.
  inversion Hstep as [? m args s evs o Hrun|? i t a s evs o Hi Hrun| |]; subst; simpl;
    [| |done..].
  - apply Forall_app. split; [done|].
    pose proof (later_residual_run (blind Q) _ (plugin w1)
                  (later_invoke (blind Q) depth m args)) as Ho.
    rewrite Hrun in Ho. destruct o; simpl in *; [done..|]. by constructor.
  - apply Forall_app. split; [by apply Forall_delete|].
    assert (task_blind Q t) as Hk by (eapply Forall_lookup_1; eauto).
    destruct (sim_resume_inv Q Q eq (continuation t) (continuation t) a
                _ _ _ _ _ (reflexivity (plugin w1)) (λ v, Hk v _ _ (reflexivity _)) Hrun)
      as (s' & o' & Hrun' & _ & Ho).
    assert (o' = o) as -> by congruence. destruct o; simpl in *; [done..|].
    constructor; [|done]. intros v s1 s2. apply Ho.
Qed.

(** A reachable world and the same world around a related plugin are
    alike. *)
Lemma live_world_sim b w s : live depth b w → Q (plugin w) s → world_sim Q w (with_plugin s w).
Proof.
  intros Hw Hs. split_and!; simpl; [done| |done..].
  apply Forall_Forall2_diag, (Forall_impl (task_blind Q)); [by apply (live_tasks_blind b)|].
  intros t Ht. by split.
Qed.

Lemma world_sim_awaited w1 w2 :
  world_sim Q w1 w2 → awaited <$> tasks w1 = awaited <$> tasks w2.
Proof.
  intros (_ & Hts & _). induction Hts as [|t1 t2 ts1 ts2 [Hr _] _ IH]; [done|].
  by rewrite !fmap_cons, Hr, IH.
Qed.

(** Noninterference, for every hidden field. *)
Lemma hidden_noninterference b w s ls w' :
  live depth b w → Q (plugin w) s → steps (quiet_step reads depth) w ls w' →
  ∃ w0, steps (quiet_step reads depth) (with_plugin s w) ls w0 ∧
        history w0 = history w' ∧ listeners w0 = listeners w' ∧
        awaited <$> tasks w0 = awaited <$> tasks w' ∧ Q (plugin w') (plugin w0).
Proof.
  intros Hw Hs Hsteps.
  destruct (simulates_steps (quiet_step reads depth) (quiet_step reads depth) (world_sim Q)
              w ls w' (with_plugin s w)) as (w0 & Hrun & Hsim);
    [by intros ????; apply world_sim_step|by eapply live_world_sim|done|].
  exists w0. pose proof (world_sim_awaited _ _ Hsim) as Hts.
  destruct Hsim as (? & _ & ? & ?). by split_and!.
Qed.

(** The decision of a run without reading turns is sound. *)
Lemma quiet_steps_sound ls w w' :
  steps_of depth ls w = Some w' → quiet reads depth ls w = true →
  steps (quiet_step reads depth) w ls w'.
Proof.
  revert w. induction ls as [|l ls IH]; intros w; simpl; [by intros [= <-]; constructor|].
  destruct (step depth w l) as [w1|] eqn:Hstep; simpl; [|done].
  intros Hls [Hq Hqs]%andb_true_iff.
  econstructor; [split; [done|by apply step_world_step]|by apply IH].
Qed.

End worlds.

(** ** Theorems *)

Section theorems.
Context `{RemixAICore} (depth : nat).
Implicit Types (w : world) (l : label) (b : bool).

(** Every run is a run without turns that read [aiIsActivated]. *)
Lemma steps_quiet_activated w ls w' :
  steps (world_step depth) w ls w' ↔ steps (quiet_step reads_activated depth) w ls w'.
Proof.
  split; induction 1 as [|w1 l w2 ls' w3 Hstep _ IH]; [constructor| |constructor|].
  - econstructor; [split; [by destruct l|done]|done].
  - econstructor; [apply Hstep|done].
Qed.

(** C8: the busy flag is read by attempts only.  Take a world that the
    plugin can reach, and a run of the loop from it in which no turn is an
    attempt, that is, a call of a guarded method or a flush of a slot that
    holds one; every other call with any arguments, every answer to a
    suspended method and every event may occur.  From the same world with
    any other value of [isInferencing] the same turns are a run, and the two
    runs cannot be told apart: they emit the same events and requests in the
    same order, register the same callbacks, leave the same requests
    outstanding, and end in plugins of which every field but the flag is the
    same.  So [code_completion] and [code_insertion] ask the backend while an
    inference runs, and a guarded method that was admitted goes on as if the
    gate had stayed open. *)
Theorem flag_read_by_attempts_only b b0 w ls w' :
  live depth b w → steps (quiet_step attempted depth) w ls w' →
  ∃ w0, steps (quiet_step attempted depth)
          (with_plugin (set_isInferencing b0 (plugin w)) w) ls w0 ∧
        history w0 = history w' ∧ listeners w0 = listeners w' ∧
        awaited <$> tasks w0 = awaited <$> tasks w' ∧ flag_eq (plugin w') (plugin w0).
Proof.
  intros Hw. apply (hidden_noninterference flag_eq attempted depth b); [done|].
  apply differ_in_set. by intros ? [].
Qed.

(** C20: [aiIsActivated] is written and never read.  Take a world that the
    plugin can reach and any run of the loop from it: calls of any methods,
    flushes, answers, events.  From the same world with the other value of
    [aiIsActivated] the same turns are a run, and the two runs emit the same
    events and requests in the same order, register the same callbacks, leave
    the same requests outstanding, and end in plugins of which every other
    field is the same: whether [initialize] has run changes nothing that the
    plugin does. *)
Theorem activated_never_read b b0 w ls w' :
  live depth b w → steps (world_step depth) w ls w' →
  ∃ w0, steps (world_step depth) (with_plugin (set_aiIsActivated b0 (plugin w)) w) ls w0 ∧
        history w0 = history w' ∧ listeners w0 = listeners w' ∧
        awaited <$> tasks w0 = awaited <$> tasks w' ∧ activated_eq (plugin w') (plugin w0).
Proof.
  intros Hw Hsteps%steps_quiet_activated.
  destruct (hidden_noninterference activated_eq reads_activated depth b w
              (set_aiIsActivated b0 (plugin w)) ls w' Hw) as (w0 & Hrun & Hobs); [|done|].
  { apply differ_in_set. by intros ? []. }
  exists w0. split; [by apply steps_quiet_activated|done].
Qed.

End theorems.

(** ** Witnesses *)

#[local] Existing Instance remix_ai_core.

Lemma flag_read_by_attempts_only_witness :
  ∃ w0, steps (quiet_step attempted 1)
          (with_plugin
             (set_isInferencing false (plugin (world_after 1 false (take 3 browser_session))))
             (world_after 1 false (take 3 browser_session)))
          quiet_session w0 ∧
        history w0 = history (world_after 1 false (take 3 browser_session ++ quiet_session)) ∧
        listeners w0 =
          listeners (world_after 1 false (take 3 browser_session ++ quiet_session)) ∧
        awaited <$> tasks w0 =
          awaited <$> tasks (world_after 1 false (take 3 browser_session ++ quiet_session)) ∧
        flag_eq (plugin (world_after 1 false (take 3 browser_session ++ quiet_session)))
          (plugin w0).
Proof.
  apply (flag_read_by_attempts_only 1 false false
           (world_after 1 false (take 3 browser_session)) quiet_session).
  - apply world_after_reachable.
  - by apply quiet_steps_sound.
Defined.

Lemma activated_never_read_witness :
  ∃ w0, steps (world_step 1)
          (with_plugin
             (set_aiIsActivated false (plugin (world_after 1 false (take 3 browser_session))))
             (world_after 1 false (take 3 browser_session)))
          (drop 3 browser_session) w0 ∧
        history w0 = history (world_after 1 false browser_session) ∧
        listeners w0 = listeners (world_after 1 false browser_session) ∧
        awaited <$> tasks w0 = awaited <$> tasks (world_after 1 false browser_session) ∧
        activated_eq (plugin (world_after 1 false browser_session)) (plugin w0).
Proof.
  apply (activated_never_read 1 false false
           (world_after 1 false (take 3 browser_session)) (drop 3 browser_session)).
  - apply world_after_reachable.
  - by apply steps_of_sound.
Defined.

(** An attempt does read the flag: from the world of the witness, in which
    the gate is closed, a generation is refused, and from the same world with
    the gate open it reaches the inferencer. *)
Example attempt_reads_flag :
  let w := world_after 1 false (take 3 browser_session) in
  let l := Call m_code_generation [Prim (Str "an ERC20 token")] in
  unread attempted (plugin w) l = false ∧
  omap request_method (emitted w (default w (step 1 w l))) = [] ∧
  omap request_method
    (emitted (with_plugin (set_isInferencing false (plugin w)) w)
       (default w (step 1 (with_plugin (set_isInferencing false (plugin w)) w) l))) =
    ["code_generation"].
Proof. done. Qed.
