(* ===== verification/SlotLoop.v ===== *)
(** * The slot in the event loop

    [Slot] proves that a sequence of calls of the slot's three methods
    follows the machine EMPTY/OCCUPIED of the specification.  In the running
    plugin those calls are interleaved with everything else: calls of the
    other methods, resumptions of suspended methods, the staged method among
    them, and callbacks.  This file proves that none of these touches the
    slot, and so that every run of the event loop, read through
    [slot_label_of], is a run of the machine: the calls of [chatPipe],
    [ProcessChatRequestBuffer] and [isChatRequestPending] are its
    transitions, and every other turn leaves it where it is.

    The proof needs more than a protocol: the first segment of a flush does
    write the slot.  What holds is that a method does not write it after its
    first suspension: the protocol of the slot is a protocol of resumptions
    ([Resumption.resumed]), which gives it for the dynamic call at every
    depth of the stack. *)

From S2P Require Import Prelude JsValue Proc Plugin Gate Lifecycle Slot Settle EventLoop.
From S2P Require Import Invariants Resumption.

(** ** Definitions *)

(** The protocol of the code that leaves the slot alone. *)
Definition slot_protocol : Protocol :=
  {| invariant _ := True;
     guarantee s s' := chatRequestBuffer s' = chatRequestBuffer s;
     permitted _ := True |}.

Arguments slot_protocol : simpl never.

(** The turns of the loop that are calls of the slot's interface, with the
    arguments of the call in the positions of the parameters. *)
Definition slot_label_of (l : label) : option slot_label :=
  match l with
  | Call m_chatPipe args => Some (Stage (arg 0 args) (arg 1 args) (arg 2 args) (arg 3 args))
  | Call m_ProcessChatRequestBuffer args => Some (Flush (arg 0 args))
  | Call m_isChatRequestPending _ => Some Query
  | _ => None
  end.

(** A turn that stages nothing but the name of a method. *)
Definition stages_methods (l : label) : Prop :=
  match slot_label_of l with
  | Some a => callable a
  | None => True
  end.

(** The relation of the simulation: the slot is the buffer, what is staged
    can be called, and no suspended method writes the slot. *)
Definition slot_world (w : world) (sl : option chatRequestBufferT) : Prop :=
  slot_of (plugin w) sl ∧ Forall (task_ok slot_protocol) (tasks w).

(** A session of the chat view on the desktop, for the witness: a question
    is staged, a completion runs meanwhile, the backend signals an inference,
    the question is flushed and the agent answers. *)
Definition chat_session : list label :=
  [Call m_chatPipe [Prim (Str "solidity_answer"); Prim (Str "What is a mapping?")];
   Call m_code_completion [Prim (Str "contract C {")];
   Notify Desktop "onInference" Undefined;
   Call m_ProcessChatRequestBuffer [];
   Answer 1 (inr (Prim (Str "Explain mappings.")));
   Call m_isChatRequestPending []].

#[export] Instance slot_guarantee_preorder : PreOrder (guarantee slot_protocol).
Proof. split; [done|]. intros s1 s2 s3; simpl; congruence. Qed.

Section slot_loop.
Context `{RemixAICore}.
Implicit Types (w : world) (l : label) (sl : option chatRequestBufferT)
  (m : method) (args : list value).

(** ** No method writes the slot after its first suspension *)

#[export] Instance slot_resumed : resumed slot_protocol.
Proof.
  split; [done|]. intros call m args Hm. destruct m; try done; later_tac slot_protocol.
Qed.

(** ** The turns that are not calls of the slot's interface *)

Lemma slot_handler src ev payload cb s :
  handler src ev payload = Some cb → respects slot_protocol cb s.
Proof.
  unfold handler. intros Hcb. repeat case_match; simplify_eq; protocol_tac slot_protocol.
Qed.

(** The methods other than the three of the slot do not write it. *)
Lemma call_keeps_buffer depth m args s :
  slot_label_of (Call m args) = None → respects slot_protocol (invoke depth m args) s.
Proof. intros Hm. destruct m; try done; unfold invoke; protocol_tac slot_protocol. Qed.

Lemma call_slot depth m args a :
  slot_label_of (Call m args) = Some a → invoke depth m args = slot_call depth a.
Proof. destruct m; try done; by intros [= <-]. Qed.

(** In every turn the suspended methods stay harmless to the slot, and a
    turn that is not a call of the slot's interface leaves the slot as it
    is. *)
Lemma slot_world_tasks depth w l w' :
  world_step depth w l w' → Forall (task_ok slot_protocol) (tasks w) →
  Forall (task_ok slot_protocol) (tasks w') ∧
  (slot_label_of l = None → chatRequestBuffer (plugin w') = chatRequestBuffer (plugin w)).
Proof.
  intros Hstep Hts.
  destruct (tasks_ok_step slot_protocol depth w l w' Hstep Hts) as [Hts' Hres].
  split; [done|]. intros Hl.
  cut (rtc (guarantee slot_protocol) (plugin w) (plugin w'));
    [intros Hg; apply (rtc_preorder _) in Hg; exact Hg|].
  destruct l as [m args|i a|src ev payload].
  - inversion Hstep as [? ? ? s evs o Hrun| | |]; subst. simpl.
    destruct (wp_run slot_protocol _ _ (plugin w) (call_keeps_buffer depth m args _ Hl))
      as (Hg & _). by rewrite Hrun in Hg.
  - by apply Hres.
  - by destruct (world_step_notify_ok slot_protocol depth w src ev payload w');
      [by eauto using slot_handler|done|split_and!; [done|done|by apply Forall_true]|].
Qed.

(** ** The simulation *)

Lemma world_slot_step depth w l w' sl :
  slot_world w sl → stages_methods l → world_step (S depth) w l w' →
  ∃ sl', slot_world w' sl' ∧
         match slot_label_of l with
         | Some a => slot_step sl a sl'
         | None => sl' = sl
         end.
Proof.
  intros [Hsl Hts] Hl Hstep.
  destruct (slot_world_tasks (S depth) w l w' Hstep Hts) as [Hts' Hbuf].
  unfold stages_methods in Hl. destruct (slot_label_of l) as [a|] eqn:Ha.
  - destruct l as [m args| |]; try done.
    inversion Hstep as [? ? ? s evs o Hrun| | |]; subst.
    destruct (plugin_simulates_slot depth (plugin w) a s sl) as (sl' & Hslot & Hsl'); [done| |].
    { split; [done|]. unfold plugin_step_any. by rewrite <-(call_slot _ m args), Hrun. }
    exists sl'. by split.
  - exists sl. split; [|done]. split; [|done].
    destruct Hsl as [<- Hcall]. split; [by apply Hbuf|done].
Qed.

Lemma world_slot_steps depth w ls w' sl :
  slot_world w sl → Forall stages_methods ls → steps (world_step (S depth)) w ls w' →
  ∃ sl', slot_world w' sl' ∧ steps slot_step sl (omap slot_label_of ls) sl'.
Proof.
  intros Hw Hls Hsteps. revert sl Hw Hls.
  induction Hsteps as [|w l w1 ls w2 Hstep _ IH]; intros sl Hw Hls.
  - exists sl. split; [done|constructor].
  - apply Forall_cons in Hls as [Hl Hls].
    destruct (world_slot_step depth w l w1 sl Hw Hl Hstep) as (sl1 & Hw1 & Hslot).
    destruct (IH sl1 Hw1 Hls) as (sl2 & Hw2 & Hslots). exists sl2. split; [done|].
    simpl. destruct (slot_label_of l) as [a|]; [by econstructor|by subst].
Qed.

(** ** Theorems *)

(** C1: the running plugin refines the slot machine of the specification.
    Take any run of the event loop of a new plugin: calls of any methods with
    any arguments, answers and rejections of outstanding requests in any
    order, events of the backends, in which the names that are staged are
    names of methods.  The calls of [chatPipe], [ProcessChatRequestBuffer]
    and [isChatRequestPending] of that run, in their order, are a run of the
    machine EMPTY/OCCUPIED that ends in the state of [chatRequestBuffer];
    every other turn of the loop, the resumption of the flushed method
    included, leaves the slot as it is. *)
Theorem world_refines_slot depth b ls w' :
  steps (world_step (S depth)) (init_world b) ls w' → Forall stages_methods ls →
  steps slot_step None (omap slot_label_of ls) (chatRequestBuffer (plugin w')).
Proof.
  intros Hsteps Hls.
  destruct (world_slot_steps depth (init_world b) ls w' None) as (sl' & [[<- _] _] & Hslots);
    [by split|done|done|done].
Qed.

End slot_loop.

(** ** Witness *)

#[local] Existing Instance remix_ai_core.

Lemma world_refines_slot_witness :
  steps slot_step None (omap slot_label_of chat_session)
    (chatRequestBuffer (plugin (world_after 1 true chat_session))).
Proof.
  apply (world_refines_slot 0 true chat_session).
  - by apply steps_of_sound.
  - repeat constructor. by eexists.
Defined.
