(* ===== verification/Routing.v ===== *)
(** * The plugin under the engine

    [RemixAIPlugin] calls itself through the plugin engine: the callback of
    the desktop plugin's [activated] event runs
    [this.call("remixAI", 'initialize', null, null, null, false)].  The
    engine accepts a call of a plugin's method when the profile of the plugin
    lists the method, and runs it in a later turn of the loop.  A [system] is
    a world of [EventLoop] together with the calls that the plugin has
    addressed to itself and that the engine has not yet delivered; a turn of
    the system is a turn of the loop that the environment chooses, or the
    delivery of the oldest call in flight.

    The engine is a model of this development, not code of the repository:
    a turn of the system is a turn of the loop or none by its definition, so
    a world that the plugin reaches under the engine is one that it reaches
    in the loop ([served_live]) and the invariants of [Invariants] hold of
    it.  What the file shows of the plugin is
    that the only call that it ever addresses to itself is
    [initialize(null, null, null, false)], which the profile exposes, so that
    the engine rejects none; that the calls in flight are all delivered by as
    many turns of the engine; and that on the desktop the event [activated],
    the delivery of the call and a truthy answer of the backend activate the
    plugin and register its three listeners. *)

From S2P Require Import Prelude JsValue Proc Plugin Gate Lifecycle Slot Settle.
From S2P Require Import EventLoop Invariants.

(** ** Systems *)

(** A call [this.call("remixAI", name, ...args)] in flight. *)
Definition message : Type := string * list value.

(** The method that the engine runs for a call of [name]: one that
    [profile.methods] lists.  A call of any other name is rejected. *)
Definition exposed `{PackageJson} (name : string) : option method :=
  if decide (name ∈ methods profile) then method_of_string name else None.

(** The calls that the events of a segment address to the plugin. *)
Definition routed (evs : trace) : list message :=
  omap (λ e, match e with
             | Did (CallSelf name args) => Some (name, args)
             | _ => None
             end) evs.

(** The loop and the calls in flight, oldest first. *)
Record system : Type := {
  loop : world;
  inbox : list message
}.

Definition init_system (inDesktop : bool) : system :=
  {| loop := init_world inDesktop; inbox := [] |}.

(** A turn that the environment chooses, or the delivery of the oldest call
    in flight. *)
Inductive turn : Type :=
| External (l : label)
| Deliver.

(** The system after a turn of the loop from [loop sys] to [w'], with the
    calls [rest] still in flight. *)
Definition after (sys : system) (rest : list message) (w' : world) : system :=
  {| loop := w'; inbox := rest ++ routed (emitted (loop sys) w') |}.

(** The only call that the plugin addresses to itself. *)
Definition initialize_call : message :=
  ("initialize", [Prim Null; Prim Null; Prim Null; Prim (Bool false)]).

(** The events that a protocol of self-calls permits: any event that is not
    a self-call, and the self-calls that satisfy [P]. *)
Definition self_calls (P : message → Prop) : Protocol :=
  {| invariant _ := True;
     guarantee _ _ := True;
     permitted e := match e with
                    | Did (CallSelf name args) => P (name, args)
                    | _ => True
                    end |}.

Arguments self_calls : simpl never.

Section engine.
Context `{RemixAICore} `{PackageJson} (depth : nat).

(** One turn of the system. *)
Definition system_step (sys : system) (t : turn) : option system :=
  match t with
  | External l => after sys (inbox sys) <$> step depth (loop sys) l
  | Deliver =>
      match inbox sys with
      | [] => None
      | (name, args) :: rest =>
          match exposed name with
          | Some m => after sys rest <$> step depth (loop sys) (Call m args)
          | None => Some {| loop := loop sys; inbox := rest |}
          end
      end
  end.

Inductive engine_step : system → turn → system → Prop :=
| engine_external sys l w' :
    world_step depth (loop sys) l w' →
    engine_step sys (External l) (after sys (inbox sys) w')
| engine_deliver sys name args rest m w' :
    inbox sys = (name, args) :: rest → exposed name = Some m →
    world_step depth (loop sys) (Call m args) w' →
    engine_step sys Deliver (after sys rest w')
| engine_reject sys name args rest :
    inbox sys = (name, args) :: rest → exposed name = None →
    engine_step sys Deliver {| loop := loop sys; inbox := rest |}.

(** A run of the system, computed. *)
Fixpoint system_steps (ts : list turn) (sys : system) : option system :=
  match ts with
  | [] => Some sys
  | t :: ts' => system_step sys t ≫= system_steps ts'
  end.

(** The system after the turns [ts] of a new plugin. *)
Definition system_after (inDesktop : bool) (ts : list turn) : system :=
  default (init_system inDesktop) (system_steps ts (init_system inDesktop)).

(** The systems that a plugin constructed with [inDesktop] can reach. *)
Definition served (inDesktop : bool) : system → Prop :=
  reachable engine_step (λ sys, sys = init_system inDesktop).

End engine.

(** The activation of a desktop plugin: the engine activates the plugin, the
    desktop plugin signals that it is ready, the engine delivers the call of
    [initialize], and the desktop plugin answers [res]. *)
Definition desktop_activation (payload res : value) : list turn :=
  [External (Call m_onActivation []);
   External (Notify Desktop "activated" payload);
   Deliver;
   External (Answer 0 (inr res))].

(** A suspended method whose next segment is its last, sets [aiIsActivated]
    and addresses no call to the plugin: what a call of [initialize] is on
    the desktop while it waits for the backend. *)
Definition activates (tk : task) : Prop :=
  ∀ v s, ∃ s' evs a, run (continuation tk v) s = (s', evs, Fulfilled a) ∧
    aiIsActivated s' = true ∧ routed evs = [].

Section theory.
Context `{RemixAICore} `{PackageJson} (depth : nat).
Implicit Types (sys : system) (w : world) (t : turn) (tk : task) (P : message → Prop).

(** ** The computed turn is the relation *)

Lemma system_step_engine_step sys t sys' :
  system_step depth sys t = Some sys' ↔ engine_step depth sys t sys'.
Proof.
  split.
  - destruct t as [l|]; simpl.
    + intros (w' & Hstep & ->)%fmap_Some. constructor. by apply step_world_step.
    + destruct (inbox sys) as [|[name args] rest] eqn:Hin; [done|].
      destruct (exposed name) as [m|] eqn:Hm; lazy beta iota;
        [|intros [= <-]; by eapply engine_reject].
      intros (w' & Hstep & ->)%fmap_Some.
      eapply engine_deliver; [done..|]. by apply step_world_step.
  - intros [sys0 l w' Hstep|sys0 name args rest m w' Hin Hm Hstep|sys0 name args rest Hin Hm];
      cbn [system_step]; rewrite ?Hin, ?Hm; try apply step_world_step in Hstep;
      by rewrite ?Hstep.
Qed.

Lemma system_steps_sound ts sys sys' :
  system_steps depth ts sys = Some sys' → steps (engine_step depth) sys ts sys'.
Proof.
  revert sys. induction ts as [|t ts IH]; intros sys; simpl; [intros [= <-]; constructor|].
  destruct (system_step depth sys t) as [sys1|] eqn:Hstep; [|done]. simpl. intros Hrest.
  econstructor; [by apply system_step_engine_step|by apply IH].
Qed.

Lemma system_after_served b ts : served depth b (system_after depth b ts).
Proof.
  unfold system_after. destruct (system_steps depth ts (init_system b)) as [sys|] eqn:Hts;
    [|by apply reachable_init].
  exists (init_system b), ts. eauto using system_steps_sound.
Qed.

(** ** A turn of the system is a turn of the loop, or none *)

Lemma engine_step_loop sys t sys' :
  engine_step depth sys t sys' →
  loop sys' = loop sys ∨ ∃ l, world_step depth (loop sys) l (loop sys').
Proof. intros [|?|]; eauto. Qed.

Lemma engine_steps_loop sys ts sys' :
  steps (engine_step depth) sys ts sys' →
  ∃ ls, steps (world_step depth) (loop sys) ls (loop sys') ∧ length ls ≤ length ts.
Proof.
  induction 1 as [sys|sys t sys1 ts sys2 Hstep _ (ls & Hls & Hlen)].
  - exists []. split; [constructor|done].
  - destruct (engine_step_loop _ _ _ Hstep) as [Heq|[l Hl]].
    + exists ls. rewrite <-Heq. split; [done|simpl; lia].
    + exists (l :: ls). split; [by econstructor|simpl; lia].
Qed.

Lemma served_live b sys : served depth b sys → live depth b (loop sys).
Proof.
  intros (sys0 & ts & -> & (ls & Hls & _)%engine_steps_loop). by exists (init_world b), ls.
Qed.

(** ** The calls that the plugin addresses to itself *)

Lemma self_calls_direct P call m args s :
  m ≠ m_ProcessChatRequestBuffer → invariant (self_calls P) s →
  respects (self_calls P) (method_body call m args) s.
Proof. intros Hm Hs. destruct m; try done; protocol_tac self_calls. Qed.

#[export] Instance self_calls_followed P : followed (self_calls P).
Proof. split; [by split|apply self_calls_direct]. Qed.

(** The callback of [activated] is the only code that emits a self-call. *)
Lemma self_calls_handler P src ev payload cb s :
  P initialize_call → handler src ev payload = Some cb → respects (self_calls P) cb s.
Proof.
  unfold handler. intros HP Hcb. repeat case_match; simplify_eq; protocol_tac self_calls.
Qed.

Lemma self_calls_live P b w : P initialize_call → live depth b w → world_ok (self_calls P) w.
Proof.
  intros HP. apply preserved_reachable.
  - intros ? ->. by apply world_ok_init.
  - intros w1 l w2 Hw1 Hstep.
    destruct (world_step_ok (self_calls P)
                depth w1 l w2) as [Hw2 _]; eauto using self_calls_handler.
Qed.

Lemma routed_permitted P evs : Forall (permitted (self_calls P)) evs → Forall P (routed evs).
Proof.
  induction 1 as [|e evs He _ IH]; [constructor|]. unfold routed. simpl.
  destruct e as [[]|]; try done. by constructor.
Qed.

Lemma routed_live P b w w' :
  P initialize_call → live depth b w' → Forall P (routed (emitted w w')).
Proof.
  intros HP (_ & _ & Hh)%(self_calls_live P); [|done].
  by apply routed_permitted, Forall_drop.
Qed.

(** A method addresses no call to the plugin. *)
Lemma routed_call w m args w' :
  world_step depth w (Call m args) w' → routed (emitted w w') = [].
Proof.
  inversion 1 as [? ? ? s evs o Hrun| | |]; subst. rewrite emitted_next.
  pose proof (wp_run (self_calls (λ _, False)) _ _ (plugin w)
    (respects_invoke (self_calls _) depth m args (plugin w) I))
    as (_ & Hevs & _).
  rewrite Hrun in Hevs. cbn [fst snd] in Hevs. apply routed_permitted in Hevs.
  destruct (routed evs); [done|]. by apply Forall_cons in Hevs as [[] _].
Qed.

(** Every call in flight is [initialize(null, null, null, false)]. *)
Lemma served_inbox b sys :
  served depth b sys → Forall (λ msg, msg = initialize_call) (inbox sys).
Proof.
  intros Hsys.
  cut (live depth b (loop sys) ∧ Forall (λ msg, msg = initialize_call) (inbox sys));
    [by intros [_ ?]|].
  revert sys Hsys. apply preserved_reachable.
  - intros ? ->. split; [by apply reachable_init|constructor].
  - intros sys1 t sys2 [Hlive Hin] Hstep.
    assert (live depth b (loop sys2)) as Hlive2.
    { destruct (engine_step_loop _ _ _ Hstep) as [->|[l Hl]]; [done|by eapply reachable_step]. }
    split; [done|].
    destruct Hstep as [sys1 l w' Hl|sys1 name args rest m w' Hrest Hm Hl
      |sys1 name args rest Hrest Hm]; simpl in *.
    + apply Forall_app. split; [done|]. by eapply routed_live.
    + rewrite Hrest in Hin. apply Forall_cons in Hin as [_ Hin].
      apply Forall_app. split; [done|]. by eapply routed_live.
    + rewrite Hrest in Hin. by apply Forall_cons in Hin as [_ Hin].
Qed.

(** The delivery of a call of [initialize] is a turn, and puts no call in
    flight. *)
Lemma deliver_initialize sys rest :
  inbox sys = initialize_call :: rest →
  ∃ sys', engine_step depth sys Deliver sys' ∧ inbox sys' = rest.
Proof.
  intros Hin. destruct (step_is_Some depth (loop sys) (Call m_initialize initialize_call.2))
    as [_ [w' Hw']]; [done|]. apply step_world_step in Hw'.
  exists (after sys rest w'). split; [by eapply engine_deliver|].
  simpl. by rewrite (routed_call _ _ _ _ Hw'), app_nil_r.
Qed.

Lemma inbox_drains_from msgs sys :
  inbox sys = msgs → Forall (λ msg, msg = initialize_call) msgs →
  ∃ sys', steps (engine_step depth) sys (replicate (length msgs) Deliver) sys' ∧
          inbox sys' = [].
Proof.
  revert sys. induction msgs as [|msg msgs IH]; intros sys Hin Hmsgs; simpl.
  - exists sys. split; [constructor|done].
  - apply Forall_cons in Hmsgs as [-> Hmsgs].
    destruct (deliver_initialize sys msgs Hin) as (sys1 & Hstep & Hin1).
    destruct (IH sys1 Hin1 Hmsgs) as (sys' & Hsteps & Hin').
    exists sys'. split; [by econstructor|done].
Qed.

(** ** Activation on the desktop *)

(** The event [activated], once its callback is registered, puts one call
    of [initialize] in flight and changes nothing else. *)
Lemma notify_activated sys payload :
  (Desktop, "activated") ∈ listeners (loop sys) →
  ∃ sys', engine_step depth sys (External (Notify Desktop "activated" payload)) sys' ∧
    inbox sys' = inbox sys ++ [initialize_call] ∧ plugin (loop sys') = plugin (loop sys) ∧
    tasks (loop sys') = tasks (loop sys).
Proof.
  intros Hin. eexists. split.
  - constructor. by eapply (step_notify _ _ _ _ _ on_activated).
  - simpl. by rewrite emitted_next.
Qed.

(** On the desktop the delivery of the call leaves [initialize] suspended on
    the backend. *)
Lemma deliver_initialize_desktop sys rest :
  inbox sys = initialize_call :: rest → isOnDesktop (plugin (loop sys)) = true →
  ∃ sys' tk, engine_step depth sys Deliver sys' ∧ inbox sys' = rest ∧
    plugin (loop sys') = plugin (loop sys) ∧ tasks (loop sys') = tasks (loop sys) ++ [tk] ∧
    activates tk.
Proof.
  intros Hin Hd.
  assert (∃ k, run (invoke depth m_initialize initialize_call.2) (plugin (loop sys)) =
    (plugin (loop sys), [Did (ConsoleLog "initialize on desktop");
       Asked (initializeModelBackend Null Null (Bool false))],
     Pending (initializeModelBackend Null Null (Bool false)) k) ∧
    activates {| awaited := initializeModelBackend Null Null (Bool false); continuation := k |})
    as (k & Hrun & Hk).
  { eexists. split; [unfold invoke, method_body; by eval_run|].
    intros v s. simpl. destruct (truthy v); simpl; eauto 10. }
  eexists _, _. split; [eapply engine_deliver; [done..|by constructor]|].
  simpl. rewrite emitted_next. simpl. by rewrite app_nil_r.
Qed.

Lemma deliveries_desktop msgs sys :
  inbox sys = msgs → Forall (λ msg, msg = initialize_call) msgs →
  isOnDesktop (plugin (loop sys)) = true →
  ∃ sys' tks, steps (engine_step depth) sys (replicate (length msgs) Deliver) sys' ∧
    inbox sys' = [] ∧ plugin (loop sys') = plugin (loop sys) ∧
    tasks (loop sys') = tasks (loop sys) ++ tks ∧ length tks = length msgs ∧
    Forall activates tks.
Proof.
  revert sys. induction msgs as [|msg msgs IH]; intros sys Hin Hmsgs Hd; simpl.
  - exists sys, []. rewrite app_nil_r. split_and!; eauto; constructor.
  - apply Forall_cons in Hmsgs as [-> Hmsgs].
    destruct (deliver_initialize_desktop sys msgs Hin Hd)
      as (sys1 & tk & Hstep & Hin1 & Hp1 & Hts1 & Ht).
    destruct (IH sys1 Hin1 Hmsgs) as (sys' & tks & Hsteps & Hin' & Hp' & Hts' & Hlen & Hact);
      [by rewrite Hp1|].
    exists sys', (tk :: tks).
    split_and!; [by econstructor|done|congruence| |simpl; lia|by constructor].
    by rewrite Hts', Hts1, <-app_assoc.
Qed.

Lemma answer_activates sys i tk res :
  tasks (loop sys) !! i = Some tk → activates tk →
  ∃ sys', engine_step depth sys (External (Answer i (inr res))) sys' ∧
          aiIsActivated (plugin (loop sys')) = true ∧ inbox sys' = inbox sys ++ [].
Proof.
  intros Hi Ht. destruct (Ht res (plugin (loop sys))) as (s' & evs & a & Hrun & Ha & Hevs).
  eexists. split_and!; [constructor; by eapply (step_answer _ _ _ tk)|done|].
  simpl. by rewrite emitted_next, Hevs.
Qed.

(** ** Theorems *)

(** C26: the plugin addresses one call to itself, and the engine accepts
    it.  In every system that the plugin can reach, every self-call emitted
    so far and every call in flight is [initialize(null, null, null, false)];
    [profile.methods] lists [initialize], so no delivery is rejected. *)
Theorem self_calls_exposed b sys :
  served depth b sys →
  Forall (λ msg, msg = initialize_call ∧ exposed msg.1 = Some m_initialize) (inbox sys) ∧
  Forall (λ msg, msg = initialize_call) (routed (history (loop sys))) ∧
  ∀ name args rest, inbox sys = (name, args) :: rest → exposed name ≠ None.
Proof.
  intros Hsys. pose proof (served_inbox b sys Hsys) as Hin. split_and!.
  - eapply Forall_impl; [done|]. by intros ? ->.
  - apply served_live, (self_calls_live (λ msg, msg = initialize_call)) in Hsys
      as (_ & _ & Hh); [|done].
    by apply routed_permitted.
  - intros name args rest Hrest. rewrite Hrest in Hin.
    by apply Forall_cons in Hin as [[= -> ->] _].
Qed.

(** The calls in flight are delivered.  From every system that the
    plugin can reach, as many deliveries as there are calls in flight are
    turns of the system, and leave no call in flight: a delivery puts no new
    call in flight, and none is refused. *)
Theorem inbox_drains b sys :
  served depth b sys →
  ∃ sys', steps (engine_step depth) sys (replicate (length (inbox sys)) Deliver) sys' ∧
          inbox sys' = [].
Proof. intros Hsys. by apply inbox_drains_from, (served_inbox b). Qed.

(** The activation of a desktop plugin.  [onActivation] registers the
    callback of [activated] and pins the view; the event makes the plugin
    call its own [initialize] through the engine; the delivered call asks the
    desktop plugin to initialise its backend with [useRemote = false] and no
    model; the answer, whatever it is, ends the call with [aiIsActivated]
    set; the three listeners are registered when the answer is truthy, and
    only then. *)
Theorem desktop_activation_chain payload res :
  let sys := system_after depth true (desktop_activation payload res) in
  aiIsActivated (plugin (loop sys)) = true ∧ inbox sys = [] ∧ tasks (loop sys) = [] ∧
  history (loop sys) =
    [Did (ConsoleLog "Activating RemixAIPlugin on desktop"); Did (Listen Desktop "activated");
     Did PinView; Did (CallSelf "initialize" initialize_call.2);
     Did (ConsoleLog "initialize on desktop");
     Asked (initializeModelBackend Null Null (Bool false))] ++
    (if truthy res then desktop_listeners else []) ∧
  listeners (loop sys) =
    (Desktop, "activated") :: registered (if truthy res then desktop_listeners else []).
Proof. by destruct res as [[| |[]|[]|[]]|]. Qed.

(** C25: a desktop plugin that listens is activated when the desktop plugin
    is.  In every system that a desktop plugin can reach after
    [onActivation], whatever is suspended and whatever is in flight: the
    event [activated], the delivery of the calls in flight and of the one that
    the event adds, and an answer of the backend to the last call of
    [initialize] are turns of the system, and end with [aiIsActivated] set and
    no call in flight. *)
Theorem activation_completes sys payload res :
  served depth true sys → (Desktop, "activated") ∈ listeners (loop sys) →
  ∃ sys', steps (engine_step depth) sys
            (External (Notify Desktop "activated" payload) ::
             replicate (S (length (inbox sys))) Deliver ++
             [External (Answer (length (tasks (loop sys)) + length (inbox sys)) (inr res))])
            sys' ∧
          aiIsActivated (plugin (loop sys')) = true ∧ inbox sys' = [].
Proof.
  intros Hsys Hl.
  assert (isOnDesktop (plugin (loop sys)) = true) as Hd.
  { by apply served_live, mode_live in Hsys as ((? & _) & _). }
  pose proof (served_inbox true sys Hsys) as Hin.
  destruct (notify_activated sys payload Hl) as (sys1 & Hstep1 & Hin1 & Hp1 & Hts1).
  destruct (deliveries_desktop (inbox sys ++ [initialize_call]) sys1 Hin1)
    as (sys2 & tks & Hsteps2 & Hin2 & Hp2 & Hts2 & Hlen & Hact);
    [apply Forall_app; split; [done|by repeat constructor]|congruence|].
  rewrite length_app, Nat.add_1_r in Hsteps2, Hlen.
  destruct (lookup_lt_is_Some_2 tks (length (inbox sys))) as [tk Ht]; [lia|].
  destruct (answer_activates sys2 (length (tasks (loop sys)) + length (inbox sys)) tk res)
    as (sys3 & Hstep3 & Ha & Hin3); [|by eapply Forall_lookup_1|].
  { by rewrite Hts2, Hts1, lookup_app_r, Nat.add_comm, Nat.add_sub by lia. }
  exists sys3. split; [|split; [done|by rewrite Hin3, Hin2]].
  econstructor; [done|]. eapply steps_app; [done|]. by apply steps_one.
Qed.

End theory.

(** ** Witnesses and scenarios *)

#[local] Existing Instance remix_ai_core.
#[local] Existing Instance package_json.

Lemma self_calls_exposed_witness :
  let sys := system_after 1 true (take 2 (desktop_activation Null Null)) in
  Forall (λ msg, msg = initialize_call ∧ exposed msg.1 = Some m_initialize) (inbox sys) ∧
  Forall (λ msg, msg = initialize_call) (routed (history (loop sys))) ∧
  ∀ name args rest, inbox sys = (name, args) :: rest → exposed name ≠ None.
Proof. apply (self_calls_exposed 1 true), system_after_served. Defined.

Lemma inbox_drains_witness :
  let sys := system_after 1 true
    [External (Call m_onActivation []); External (Notify Desktop "activated" Null);
     External (Notify Desktop "activated" Null)] in
  ∃ sys', steps (engine_step 1) sys (replicate (length (inbox sys)) Deliver) sys' ∧
          inbox sys' = [].
Proof. apply (inbox_drains 1 true), system_after_served. Defined.

Lemma activation_completes_witness :
  let sys := system_after 1 true
    [External (Call m_onActivation []); External (Call m_code_generation [Prim (Str "a")])] in
  ∃ sys', steps (engine_step 1) sys
            (External (Notify Desktop "activated" Null) ::
             replicate (S (length (inbox sys))) Deliver ++
             [External (Answer (length (tasks (loop sys)) + length (inbox sys))
                          (inr (Prim (Bool true))))])
            sys' ∧
          aiIsActivated (plugin (loop sys')) = true ∧ inbox sys' = [].
Proof.
  apply (activation_completes 1); [apply system_after_served|].
  apply (bool_decide_unpack _). vm_compute. reflexivity.
Defined.

(** An [activated] event that comes before [onActivation] is lost: the
    callback is not yet registered, and nothing calls [initialize] later. *)
Example activated_before_onActivation :
  let sys := system_after 1 true
    [External (Notify Desktop "activated" Null); External (Call m_onActivation [])] in
  aiIsActivated (plugin (loop sys)) = false ∧ inbox sys = [] ∧ tasks (loop sys) = [] ∧
  routed (history (loop sys)) = [].
Proof. done. Qed.

(** A call of a method that the profile does not list is rejected. *)
Example render_not_exposed : exposed "render" = None ∧ exposed "initialize" = Some m_initialize.
Proof. done. Qed.
