(* ===== verification/Dispatch.v ===== *)
(** * The dispatcher against a capability interface

    The specification asks (design notes) for two changes of structure that
    leave the behaviour as it is: one capability interface with one
    implementation per backend, chosen once, in place of the test of
    [isOnDesktop] that every method repeats; and a staged request that
    carries a tag of the six operations in place of a member name.  This file
    writes both down ([Backend], [dispatch], [RequestDescriptor],
    [flush_static]) and proves that the methods of the source are equal to
    them: in one execution, in every interleaving in which the mode flag is
    constant, and in every world that the plugin can reach.  For a tagged
    request the flush never meets a name that it cannot call; [tag] reads the
    tag back from a stored descriptor, and fails on every name that is not
    the name of one of the six operations. *)

From S2P Require Import Prelude JsValue Proc Plugin Gate Lifecycle Slot Settle.
From S2P Require Import EventLoop Invariants.

(** ** The interface and its two implementations *)

(** The capabilities of a backend: generate, complete, answer, explain,
    explainError, insert. *)
Class Backend : Type := {
  generate : value → M value;
  complete : value → M value;
  answer : value → M value;
  explain : value → value → value → M value;
  explainError : value → value → M value;
  insert : value → value → M value
}.

(** The desktop plugin [remixAID]; it is not passed the [params] of
    [error_explaining]. *)
Definition local_companion : Backend := {|
  generate p := desktop "code_generation" [p];
  complete p := desktop "code_completion" [p];
  answer p := desktop "solidity_answer" [p];
  explain p c params := desktop "code_explaining" [p; c; params];
  explainError p params := desktop "error_explaining" [p];
  insert pfx sfx := desktop "code_insertion" [pfx; sfx]
|}.

(** The remote inferencer. *)
Definition remote_endpoint : Backend := {|
  generate p := remote "code_generation" [p];
  complete p := remote "code_completion" [p];
  answer p := remote "solidity_answer" [p];
  explain p c params := remote "code_explaining" [p; c; params];
  explainError p params := remote "error_explaining" [p; params];
  insert pfx sfx := remote "code_insertion" [pfx; sfx]
|}.

(** The implementation that the constructor's [inDesktop] selects. *)
Definition active_backend (inDesktop : bool) : Backend :=
  if inDesktop then local_companion else remote_endpoint.

Section dispatcher.
Context `{RemixAICore} `{Backend}.

(** The busy gate, once. *)
Definition gated (t : M value) : M value :=
  s ← get;
  if isInferencing s then busy_warning;; mret (Prim Undefined) else t.

(** The echo of the result to the terminal, once. *)
Definition echoed (params : value) (t : M value) : M value :=
  result ← t; echo result params;; mret result.

(** The six operations over the interface. *)
Definition dispatch (op : operation) (args : list value) : M value :=
  let params i := default_param GenerationParams (arg i args) in
  match op with
  | op_code_generation => gated (generate (arg 0 args))
  | op_code_completion => complete (arg 0 args)
  | op_solidity_answer =>
      gated (newPrompt ← await (ChatCommand (arg 0 args));
             echoed (params 1) (answer newPrompt))
  | op_code_explaining =>
      gated (echoed (params 2) (explain (arg 0 args) (arg 1 args) (params 2)))
  | op_error_explaining => gated (echoed (params 2) (explainError (arg 0 args) (params 2)))
  | op_code_insertion => insert (arg 0 args) (arg 1 args)
  end.

End dispatcher.

(** ** The tagged request *)

(** The descriptor of the specification: the operation is one of six. *)
Record RequestDescriptor : Type := {
  operationName : operation;
  descriptor_prompt : value;
  descriptor_context : value
}.

(** The descriptor that [chatPipe] stores for a tagged request. *)
Definition erase (d : RequestDescriptor) : chatRequestBufferT :=
  {| fn_name := Str (operation_name (operationName d));
     prompt := descriptor_prompt d; context := descriptor_context d |}.

(** The operation behind a method, for the methods of the six operations. *)
Definition operation_of_method (m : method) : option operation :=
  match m with
  | m_code_generation => Some op_code_generation
  | m_code_completion => Some op_code_completion
  | m_solidity_answer => Some op_solidity_answer
  | m_code_explaining => Some op_code_explaining
  | m_error_explaining => Some op_error_explaining
  | m_code_insertion => Some op_code_insertion
  | _ => None
  end.

(** The tagged request that a stored descriptor stands for, if its name is
    the name of one of the six operations: the check that the specification
    asks [stage] to make, and that [chatPipe] does not make. *)
Definition tag (b : chatRequestBufferT) : option RequestDescriptor :=
  op ← method_of_value (fn_name b) ≫= operation_of_method;
  Some {| operationName := op; descriptor_prompt := prompt b;
          descriptor_context := context b |}.

(** The flush of a tagged request: the call is to a function that is known,
    with the arguments in the positions in which the source passes them. *)
Definition flush_static `{RemixAICore} (d : RequestDescriptor) (params : value) : M value :=
  let params := default_param GenerationParams params in
  result ← spawn (perform (operationName d)
                    [descriptor_prompt d; descriptor_context d; params]);
  modify (set_chatRequestBuffer None);;
  result.

(** The request of the scenarios of the specification, tagged. *)
Definition tagged_question : RequestDescriptor :=
  {| operationName := op_solidity_answer;
     descriptor_prompt := Str "What is a mapping?"; descriptor_context := Null |}.

Section equivalence.
Context `{RemixAICore}.
Implicit Types (s : RemixAIPlugin) (op : operation) (args : list value)
  (d : RequestDescriptor).

(** ** Lemmas *)

Lemma exec_dispatch env op args s :
  exec env (perform op args) s =
  exec env (@dispatch _ (active_backend (isOnDesktop s)) op args) s.
Proof.
  destruct op; simpl; destruct (isInferencing s), (isOnDesktop s) eqn:Hd; simpl; try done.
  all: destruct (env _) as [e|v]; simpl; try done.
  all: by rewrite ?Hd.
Qed.

Lemma method_of_value_erase d :
  method_of_value (fn_name (erase d)) = Some (operation_method (operationName d)).
Proof. apply method_of_string_name. Qed.

Lemma operation_of_method_Some m op :
  operation_of_method m = Some op ↔ m = operation_method op.
Proof. destruct m, op; simpl; naive_solver. Qed.

Lemma tag_erase d : tag (erase d) = Some d.
Proof.
  unfold tag. rewrite method_of_value_erase. simpl.
  rewrite (proj2 (operation_of_method_Some _ (operationName d))) by done. by destruct d.
Qed.

Lemma tag_Some b d : tag b = Some d → erase d = b.
Proof.
  unfold tag. destruct (method_of_value (fn_name b)) as [m|] eqn:Hm; simpl; [|done].
  destruct (operation_of_method m) as [op|] eqn:Hop; simpl; [|done]. intros [= <-].
  apply operation_of_method_Some in Hop as ->. apply method_of_value_Some in Hm.
  destruct b. unfold erase, operation_name. simpl in *. by subst.
Qed.

(** ** Theorems *)

(** C27: the methods of the source are the dispatcher over the interface,
    in every interleaving.  For a mode flag that does not change, each of the
    six operations and the dispatcher that holds the backend of that mode
    write the same states, emit the same events and await the same requests,
    segment by segment, in whatever states they are resumed. *)
Theorem dispatch_agrees b op args s :
  isOnDesktop s = b →
  agree (λ s, isOnDesktop s = b) s (perform op args)
        (@dispatch _ (active_backend b) op args).
Proof.
  intros Hs. destruct op, b; unfold gated, echoed; agree_tac;
    repeat (progress unfold echo, lift; agree_tac).
Qed.

(** The backend can be chosen once, at construction.  In every world
    that a plugin constructed with [inDesktop = b] can reach, each operation
    executes as the dispatcher that was given the backend of [b] when the
    plugin was made. *)
Theorem dispatch_fixed_at_construction depth b w env op args :
  live depth b w →
  exec env (perform op args) (plugin w) =
  exec env (@dispatch _ (active_backend b) op args) (plugin w).
Proof. intros ((<- & _) & _)%mode_live. apply exec_dispatch. Qed.

(** For a tagged request the dynamic call is a static one.  When the
    staged name is the name of one of the six operations, the flush of the
    source runs as the flush that calls that operation directly, with the
    stored prompt and context and the flush's [params] as its three
    arguments. *)
Theorem flush_static_equiv depth params s d :
  chatRequestBuffer s = Some (erase d) →
  run (ProcessChatRequestBuffer (call_method (S depth)) params) s =
  run (flush_static d params) s.
Proof.
  intros Hb. unfold ProcessChatRequestBuffer, flush_static.
  cbn [run mbind proc_bind bind get]. rewrite Hb.
  destruct d as [[] p c]; reflexivity.
Qed.

(** A tagged request cannot block the slot.  Whatever operation is
    staged, the flush calls it and empties the slot. *)
Theorem tagged_flush_empties_slot depth params s d :
  chatRequestBuffer s = Some (erase d) →
  chatRequestBuffer (run (ProcessChatRequestBuffer (call_method (S depth)) params) s).1.1
    = None.
Proof.
  intros Hb.
  rewrite (run_flush _ _ _ _ (operation_method (operationName d)) Hb)
    by apply method_of_value_erase.
  by destruct (run _ s) as [[??]?].
Qed.

(** The tag and the stored name determine each other.  A stored
    descriptor has a tag exactly when it is the descriptor that [chatPipe]
    stores for that tagged request: erasing a tag and reading it back gives
    the tagged request, and a descriptor whose name is not the name of one of
    the six operations (a misspelt name, a value that is not a string, the
    name of another method of the class) has no tag. *)
Theorem descriptor_roundtrip b d : tag b = Some d ↔ b = erase d.
Proof. split; [by intros <-%tag_Some|intros ->; apply tag_erase]. Qed.

End equivalence.

(** ** Witnesses *)

#[local] Existing Instance remix_ai_core.

Lemma dispatch_agrees_witness :
  agree (λ s, isOnDesktop s = false) (new_RemixAIPlugin false)
    (perform op_solidity_answer [Prim (Str "What is a mapping?")])
    (@dispatch _ (active_backend false) op_solidity_answer
       [Prim (Str "What is a mapping?")]).
Proof. by apply dispatch_agrees. Defined.

Lemma dispatch_fixed_at_construction_witness :
  exec (λ _, inr (Prim (Str "ok"))) (perform op_code_explaining [])
       (plugin (world_after 1 true [Call m_onActivation []])) =
  exec (λ _, inr (Prim (Str "ok"))) (@dispatch _ (active_backend true) op_code_explaining [])
       (plugin (world_after 1 true [Call m_onActivation []])).
Proof. apply (dispatch_fixed_at_construction 1 true), world_after_reachable. Defined.

Lemma flush_static_equiv_witness :
  run (ProcessChatRequestBuffer (call_method 1) Undefined)
      (set_chatRequestBuffer (Some (erase tagged_question)) (new_RemixAIPlugin true)) =
  run (flush_static tagged_question Undefined)
      (set_chatRequestBuffer (Some (erase tagged_question)) (new_RemixAIPlugin true)).
Proof. by apply flush_static_equiv. Defined.

Lemma tagged_flush_empties_slot_witness :
  chatRequestBuffer
    (run (ProcessChatRequestBuffer (call_method 1) Undefined)
         (set_chatRequestBuffer (Some (erase tagged_question)) (new_RemixAIPlugin true))).1.1
    = None.
Proof. by apply (tagged_flush_empties_slot 0 _ _ tagged_question). Defined.
